(** * Verification of the chunking, retrieval and analysis pipeline

    Shallow embedding of [document_processor.py], [chatbot.py] and
    [ai_analyzer.py].  Python values are modelled as follows:

    - a [str] is the list of its Unicode code points ([N]), so that [length]
      is Python's [len];
    - Python integers are [Z];
    - an exception is a value of the [result] type; [try]/[except Exception]
      is [catch];
    - the language-model service and the document extraction libraries are
      parameters of the operations that call them. *)

From Stdlib Require Import List Bool Arith ZArith NArith QArith Qabs Lia.
From Stdlib Require Import Ascii.
From Stdlib Require String.
From Stdlib Require Import Permutation Sorted.
Import ListNotations.
Import String.StringSyntax.
Delimit Scope string_scope with string.

Set Implicit Arguments.
Set Warnings "-register-all".

(* ===================================================================== *)
(** * Exceptions and lists *)
(* ===================================================================== *)

Module Py.

(** The exception classes the modelled code can meet.  [ServiceError]
    stands for whatever the language-model client or an extraction
    library raises. *)
Inductive exn : Type :=
| ZeroDivisionError
| TypeError
| AttributeError
| KeyError
| ValueError
| JSONDecodeError
| ServiceError.

(** The outcome of an expression: a value, or a raised exception. *)
Inductive result (A : Type) : Type :=
| Ok (a : A)
| Raise (e : exn).
Arguments Ok {A} a.
Arguments Raise {A} e.

Definition bind {A B : Type} (r : result A) (k : A -> result B)
  : result B :=
  match r with
  | Ok a => k a
  | Raise e => Raise e
  end.

Definition is_ok {A : Type} (r : result A) : bool :=
  match r with Ok _ => true | Raise _ => false end.

(** [sum(...)] of naturals. *)
Definition sum (l : list nat) : nat := fold_right Nat.add 0%nat l.

(** [l[:k]]: a negative [k] counts from the end. *)
Definition slice_to {A : Type} (k : Z) (l : list A) : list A :=
  if (k <? 0)%Z then firstn (length l - Z.to_nat (- k)) l
  else firstn (Z.to_nat k) l.

Section StableSort.
Variable A : Type.
(** [before x y]: [x], which stood left of [y], stays left of it. *)
Variable before : A -> A -> bool.

Fixpoint insert (x : A) (l : list A) : list A :=
  match l with
  | [] => [x]
  | y :: l' => if before x y then x :: l else y :: insert x l'
  end.

(** A stable sort.  [list.sort] is stable as well, and a stable sort is
    determined by its order, so both return the same list. *)
Definition stable_sort (l : list A) : list A := fold_right insert [] l.
End StableSort.

End Py.

Declare Scope py_scope.
Delimit Scope py_scope with py.
Notation "x <- c1 ;; c2" := (Py.bind c1 (fun x => c2))
  (at level 61, c1 at next level, right associativity) : py_scope.

(* ===================================================================== *)
(** * Python strings *)
(* ===================================================================== *)

Module PyStr.

(** A code point. *)
Definition char := N.

(** A Python [str]. *)
Definition str := list char.

(** Literals: the code points of an ASCII string. *)
Fixpoint lit (s : String.string) : str :=
  match s with
  | String.EmptyString => []
  | String.String a s' => N_of_ascii a :: lit s'
  end.
Arguments lit s%_string.

Definition eqb (a b : str) : bool :=
  if list_eq_dec N.eq_dec a b then true else false.

(** [bool(s)]: a string is truthy when it is not empty. *)
Definition truthy (s : str) : bool :=
  match s with [] => false | _ :: _ => true end.

(** [str.isspace] on one code point: the Unicode white space table of
    CPython (U+0009..U+000D, U+001C..U+0020, U+0085, U+00A0, U+1680,
    U+2000..U+200A, U+2028, U+2029, U+202F, U+205F, U+3000). *)
Definition isspace (c : char) : bool :=
  (((9 <=? c) && (c <=? 13)) || ((28 <=? c) && (c <=? 32)) ||
   (c =? 133) || (c =? 160) || (c =? 5760) ||
   ((8192 <=? c) && (c <=? 8202)) ||
   (c =? 8232) || (c =? 8233) || (c =? 8239) || (c =? 8287) ||
   (c =? 12288))%N.

Definition dot : char := 46%N.
Definition space : char := 32%N.

(** The character class [[.!?]] of the sentence pattern. *)
Definition is_terminator (c : char) : bool :=
  ((c =? 46) || (c =? 33) || (c =? 63))%N.

Fixpoint dropwhile (p : char -> bool) (s : str) : str :=
  match s with
  | [] => []
  | c :: s' => if p c then dropwhile p s' else s
  end.

(** [s.lstrip()], [s.rstrip()] and [s.strip()]. *)
Definition lstrip (s : str) : str := dropwhile isspace s.
Definition rstrip (s : str) : str := rev (dropwhile isspace (rev s)).
Definition strip (s : str) : str := rstrip (lstrip s).

(** [re.split(r'[.!?]+', text)]: the pieces between maximal runs of
    terminators; [n] runs give [n + 1] pieces, empty ones included. *)
Fixpoint re_split (text : str) : list str :=
  match text with
  | [] => [[]]
  | c :: t =>
      if is_terminator c then
        match t with
        | c' :: _ => if is_terminator c' then re_split t else [] :: re_split t
        | [] => [] :: re_split t
        end
      else
        match re_split t with
        | p :: ps => (c :: p) :: ps
        | [] => [[c]]
        end
  end.

(** [s.split()]: the maximal runs of characters that are not white
    space.  [cur] is the word being read, reversed. *)
Fixpoint split_ws_from (cur : str) (s : str) : list str :=
  match s with
  | [] => match cur with [] => [] | _ => [rev cur] end
  | c :: s' =>
      if isspace c then
        match cur with
        | [] => split_ws_from [] s'
        | _ => rev cur :: split_ws_from [] s'
        end
      else split_ws_from (c :: cur) s'
  end.

Definition split (s : str) : list str := split_ws_from [] s.

Fixpoint startswith (s prefix : str) : bool :=
  match prefix, s with
  | [], _ => true
  | _ :: _, [] => false
  | p :: prefix', c :: s' => (p =? c)%N && startswith s' prefix'
  end.

(** [sub in s]. *)
Fixpoint contains (s sub : str) : bool :=
  startswith s sub ||
  match s with
  | [] => false
  | _ :: s' => contains s' sub
  end.

(** [a < b] and [a <= b] on strings: lexicographic on code points. *)
Fixpoint ltb (a b : str) : bool :=
  match a, b with
  | _, [] => false
  | [], _ :: _ => true
  | x :: a', y :: b' => (x <? y)%N || ((x =? y)%N && ltb a' b')
  end.

Definition leb (a b : str) : bool := negb (ltb b a).

(** [s[:n]]. *)
Definition take (n : Z) (s : str) : str := Py.slice_to n s.

(** [sep.join(parts)]. *)
Fixpoint join (sep : str) (parts : list str) : str :=
  match parts with
  | [] => []
  | [p] => p
  | p :: ps => p ++ sep ++ join sep ps
  end.

End PyStr.

(* ===================================================================== *)
(** * document_processor.py *)
(* ===================================================================== *)

Module DocumentProcessor.
Import PyStr.

(** The [metadata] dictionary, one shape per extractor
    ([_extract_pdf_text], [_extract_docx_text], [_extract_pptx_text]). *)
Inductive metadata : Type :=
| PDF (total_pages : nat) (has_images has_tables : bool)
| WordDocument (total_paragraphs total_tables : nat)
               (has_images has_tables : bool)
| PowerPointPresentation (total_slides : nat)
                         (has_images has_tables : bool).

(** [metadata['document_type']]. *)
Definition document_type (m : metadata) : str :=
  match m with
  | PDF _ _ _ => lit "PDF"
  | WordDocument _ _ _ _ => lit "Word Document"
  | PowerPointPresentation _ _ _ => lit "PowerPoint Presentation"
  end.

(** The pages the metadata reports; only the PDF extractor counts pages. *)
Definition page_count (m : metadata) : option nat :=
  match m with
  | PDF total_pages _ _ => Some total_pages
  | _ => None
  end.

(** The extraction result, as far as the pipeline reads it. *)
Record text_content : Type := TextContent {
  full_text : str;
  metadata_of : metadata
}.

(** Lines 182-188: the chunk size after the page-count adjustment. *)
Definition adjusted_chunk_size (m : metadata) (max_chunk_size : Z) : Z :=
  match m with
  | PDF pages _ _ =>
      if (100 <? pages)%nat then 6000%Z
      else if (50 <? pages)%nat then 5000%Z
      else max_chunk_size
  | _ => max_chunk_size
  end.

(** The two loop variables [chunks] and [current_chunk]. *)
Definition loop_state : Type := (list str * str)%type.

(** [chunks.append(current_chunk.strip())] guarded by [if current_chunk]. *)
Definition seal (chunks : list str) (current_chunk : str) : list str :=
  if truthy current_chunk then chunks ++ [strip current_chunk] else chunks.

(** One iteration of the loop of lines 195-207. *)
Definition chunk_step (max_chunk_size : Z) (st : loop_state)
           (sentence : str) : loop_state :=
  let '(chunks, current_chunk) := st in
  let sentence := strip sentence in
  if negb (truthy sentence) then st
  else if (Z.of_nat (length (current_chunk ++ sentence)) <=? max_chunk_size)%Z
       then (chunks, current_chunk ++ sentence ++ [dot; space])
       else (seal chunks current_chunk, sentence ++ [dot; space]).

(** Lines 190-213: the sentence loop, run with the size [max_chunk_size]
    has after the adjustment. *)
Definition chunk_sentences (max_chunk_size : Z) (full_text : str)
  : list str :=
  let sentences := re_split full_text in
  let '(chunks, current_chunk) :=
    fold_left (chunk_step max_chunk_size) sentences ([], []) in
  seal chunks current_chunk.

(** [DocumentProcessor.create_chunks]. *)
Definition create_chunks (tc : text_content) (max_chunk_size : Z)
  : list str :=
  let max_chunk_size := adjusted_chunk_size (metadata_of tc) max_chunk_size in
  chunk_sentences max_chunk_size (full_text tc).

(** The default value of the parameter [max_chunk_size]. *)
Definition default_max_chunk_size : Z := 4000.

(** [create_chunks(text_content)], as both callers write it. *)
Definition create_chunks_default (tc : text_content) : list str :=
  create_chunks tc default_max_chunk_size.

(** The sentences the loop does not skip: the stripped, non-empty pieces
    of the text. *)
Definition sentences_of (text : str) : list str :=
  filter truthy (map strip (re_split text)).

End DocumentProcessor.


(* ===================================================================== *)
(** * chatbot.py *)
(* ===================================================================== *)

Module Chatbot.
Import Py PyStr DocumentProcessor.
Local Open Scope py_scope.

(** One path yielded by [folder_path.rglob('*')]: [file_path.name],
    [str(file_path)], [file_path.is_file()] and [file_path.suffix]. *)
Record file_entry : Type := FileEntry {
  name : str;
  path : str;
  is_file : bool;
  suffix : str
}.

(** The dictionary [doc_info]. *)
Record doc_info : Type := DocInfo {
  filename : str;
  doc_path : str;
  doc_kind : str;
  chunk_count : nat;
  word_count : nat
}.

(** The dictionary [chunk_info]. *)
Record chunk_info : Type := ChunkInfo {
  text : str;
  document : str;
  chunk_id : nat;
  doc_type : str
}.

(** [chunk.copy()] with the key ['similarity'] added.  The quotient of
    two integers is kept as the reduced fraction: all similarities of one
    search share the denominator [len(query_words)], so their order and
    their ties as floats are those of the fractions. *)
Record scored_chunk : Type := Scored {
  chunk : chunk_info;
  similarity : Q
}.

Definition supported_suffixes : list str :=
  [lit ".pdf"; lit ".docx"; lit ".pptx"].

(** [x in l] for a list of strings. *)
Definition str_in (x : str) (l : list str) : bool := existsb (eqb x) l.

(** [enumerate(l)], counting from [i]. *)
Fixpoint enumerate_from {A : Type} (i : nat) (l : list A)
  : list (nat * A) :=
  match l with
  | [] => []
  | x :: l' => (i, x) :: enumerate_from (S i) l'
  end.

(** [a / b] on integers. *)
Definition truediv (a b : Z) : result Q :=
  if (b =? 0)%Z then Raise ZeroDivisionError
  else Ok (Qred (a # Z.to_pos b)).

Section Session.
(** [str.lower]. *)
Variable lower : str -> str.
(** The three extractors of [DocumentProcessor], which read the file. *)
Variables _extract_pdf_text _extract_docx_text _extract_pptx_text :
  str -> result text_content.
(** The TF-IDF matrix type and [self.vectorizer.fit_transform]. *)
Variable matrix : Type.
Variable fit_transform : list str -> result matrix.

(** The attributes of [DocumentChatbot] that ingestion and retrieval
    read or write. *)
Record chatbot : Type := ChatbotState {
  documents : list doc_info;
  chunks : list chunk_info;
  tfidf_matrix : option matrix
}.

(** [DocumentChatbot.__init__]. *)
Definition init : chatbot := ChatbotState [] [] None.

(** [DocumentProcessor.extract_text]. *)
Definition extract_text (f : file_entry) : result text_content :=
  let file_extension := lower (suffix f) in
  if eqb file_extension (lit ".pdf") then _extract_pdf_text (path f)
  else if eqb file_extension (lit ".docx") then _extract_docx_text (path f)
  else if eqb file_extension (lit ".pptx") then _extract_pptx_text (path f)
  else Raise ValueError.

(** The body of the [try] of lines 40-66.  Nothing is appended to
    [processed_docs] or [all_chunks] before the last statement that can
    raise, so the body either adds the whole document or nothing. *)
Definition process_file (f : file_entry)
  : result (doc_info * list chunk_info) :=
  text_content <- extract_text f ;;
  let chunks := create_chunks_default text_content in
  let doc := DocInfo (name f) (path f)
                     (document_type (metadata_of text_content))
                     (length chunks)
                     (length (split (full_text text_content))) in
  Ok (doc,
      map (fun ic => ChunkInfo (snd ic) (name f) (fst ic)
                       (document_type (metadata_of text_content)))
          (enumerate_from 0 chunks)).

(** One iteration of the loop of lines 38-70. *)
Definition folder_step (acc : list doc_info * list chunk_info)
           (file_path : file_entry) : list doc_info * list chunk_info :=
  if is_file file_path
     && str_in (lower (suffix file_path)) supported_suffixes
  then
    match process_file file_path with
    | Ok (doc, cs) => (fst acc ++ [doc], snd acc ++ cs)
    | Raise _ => acc
    end
  else acc.

(** [DocumentChatbot._create_search_index]. *)
Definition _create_search_index (self : chatbot) : chatbot :=
  match chunks self with
  | [] => self
  | _ :: _ =>
      let chunk_texts := map text (chunks self) in
      match fit_transform chunk_texts with
      | Ok m => ChatbotState (documents self) (chunks self) (Some m)
      | Raise _ => ChatbotState (documents self) (chunks self) None
      end
  end.

(** [DocumentChatbot.process_folder]: the returned count and the
    session afterwards. *)
Definition process_folder (self : chatbot) (folder : list file_entry)
  : nat * chatbot :=
  let '(processed_docs, all_chunks) :=
    fold_left folder_step folder ([], []) in
  let self := ChatbotState processed_docs all_chunks (tfidf_matrix self) in
  (length processed_docs, _create_search_index self).

(** [sum(word in text_lower for word in query_words)]. *)
Definition keyword_score (query_words : list str) (c : chunk_info)
  : nat :=
  let text_lower := lower (text c) in
  sum (map (fun word => if contains text_lower word then 1 else 0)%nat
           query_words).

(** The loop of lines 175-182. *)
Fixpoint score_chunks (query_words : list str) (cs : list chunk_info)
  : result (list scored_chunk) :=
  match cs with
  | [] => Ok []
  | c :: rest =>
      let score := keyword_score query_words c in
      if (0 <? score)%nat then
        sim <- truediv (Z.of_nat score)
                       (Z.of_nat (length query_words)) ;;
        scored <- score_chunks query_words rest ;;
        Ok (Scored c sim :: scored)
      else score_chunks query_words rest
  end.

(** The order of [sort(key=similarity, reverse=True)]: an element stays
    before a later one unless its similarity is smaller. *)
Definition by_similarity_desc (x y : scored_chunk) : bool :=
  Qle_bool (similarity y) (similarity x).

(** [DocumentChatbot._keyword_search]. *)
Definition _keyword_search (self : chatbot) (query : str) (top_k : Z)
  : result (list scored_chunk) :=
  let query_words := split (lower query) in
  scored_chunks <- score_chunks query_words (chunks self) ;;
  Ok (slice_to top_k (stable_sort by_similarity_desc scored_chunks)).

End Session.

End Chatbot.

(* ===================================================================== *)
(** * Python objects read from JSON *)
(* ===================================================================== *)

Module PyVal.
Import Py PyStr.
Local Open Scope py_scope.

(** An [int] or a [float].  A finite float is the rational it denotes;
    Python compares integers and floats by their exact values. *)
Inductive number : Type :=
| NInt (z : Z)
| NFloat (q : Q)
| NInf (negative : bool)
| NNaN.

(** The objects [json.loads] builds, and the dictionaries and lists the
    analyzer builds from them.  A dictionary lists its items in insertion
    order. *)
Inductive value : Type :=
| VNone
| VBool (b : bool)
| VNum (n : number)
| VStr (s : str)
| VList (elements : list value)
| VDict (items : list (value * value)).

Definition num_eqb (a b : number) : bool :=
  match a, b with
  | NNaN, _ | _, NNaN => false
  | NInf x, NInf y => Bool.eqb x y
  | NInf _, _ | _, NInf _ => false
  | NInt x, NInt y => (x =? y)%Z
  | NInt x, NFloat q | NFloat q, NInt x => Qeq_bool (inject_Z x) q
  | NFloat p, NFloat q => Qeq_bool p q
  end.

Definition num_Q (a : number) : Q :=
  match a with
  | NInt z => inject_Z z
  | NFloat q => q
  | _ => 0
  end.

Definition num_ltb (a b : number) : bool :=
  match a, b with
  | NNaN, _ | _, NNaN => false
  | NInf x, NInf y => x && negb y
  | NInf x, _ => x
  | _, NInf y => negb y
  | _, _ => negb (Qle_bool (num_Q b) (num_Q a))
  end.

(** [a == b]; [bool] is a subclass of [int], so [True == 1]. *)
Fixpoint py_eqb (a b : value) {struct a} : bool :=
  match a, b with
  | VNone, VNone => true
  | VBool x, VBool y => Bool.eqb x y
  | VBool x, VNum n => num_eqb (NInt (if x then 1 else 0)) n
  | VNum n, VBool y => num_eqb n (NInt (if y then 1 else 0))
  | VNum n, VNum m => num_eqb n m
  | VStr s, VStr t => eqb s t
  | VList l, VList m =>
      (fix all2 (l : list value) (m : list value) {struct l} : bool :=
         match l, m with
         | [], [] => true
         | x :: l', y :: m' => py_eqb x y && all2 l' m'
         | _, _ => false
         end) l m
  | VDict d, VDict e =>
      (length d =? length e)%nat &&
      (fix all_in (d : list (value * value)) {struct d} : bool :=
         match d with
         | [] => true
         | (k, v) :: d' =>
             (fix find (e : list (value * value)) : bool :=
                match e with
                | [] => false
                | (k', v') :: e' =>
                    if py_eqb k k' then py_eqb v v' else find e'
                end) e
             && all_in d'
         end) d
  | _, _ => false
  end.

(** [a < b]; Python raises [TypeError] when the two types have no
    order. *)
Fixpoint py_lt (a b : value) {struct a} : result bool :=
  match a, b with
  | VStr s, VStr t => Ok (ltb s t)
  | VBool x, VBool y =>
      Ok (num_ltb (NInt (if x then 1 else 0)) (NInt (if y then 1 else 0)))
  | VBool x, VNum n => Ok (num_ltb (NInt (if x then 1 else 0)) n)
  | VNum n, VBool y => Ok (num_ltb n (NInt (if y then 1 else 0)))
  | VNum n, VNum m => Ok (num_ltb n m)
  | VList l, VList m =>
      (fix first_diff (l : list value) (m : list value) {struct l}
         : result bool :=
         match l, m with
         | [], [] => Ok false
         | [], _ :: _ => Ok true
         | _ :: _, [] => Ok false
         | x :: l', y :: m' =>
             if py_eqb x y then first_diff l' m' else py_lt x y
         end) l m
  | _, _ => Raise TypeError
  end.

(** [hash(v)] succeeds. *)
Definition hashable (v : value) : bool :=
  match v with
  | VList _ | VDict _ => false
  | _ => true
  end.

(** The value stored under [key], if any. *)
Fixpoint lookup (key : value) (items : list (value * value))
  : option value :=
  match items with
  | [] => None
  | (k, v) :: items' => if py_eqb k key then Some v else lookup key items'
  end.

(** The items after [d[key] = x]. *)
Fixpoint store (key x : value) (items : list (value * value))
  : list (value * value) :=
  match items with
  | [] => [(key, x)]
  | (k, v) :: items' =>
      if py_eqb k key then (k, x) :: items'
      else (k, v) :: store key x items'
  end.

(** [v.get(key, default)] with a string key: only a dictionary has the
    method. *)
Definition py_get (v : value) (key : str) (default : value)
  : result value :=
  match v with
  | VDict items =>
      match lookup (VStr key) items with
      | Some x => Ok x
      | None => Ok default
      end
  | _ => Raise AttributeError
  end.

(** [v[key]] with a string key. *)
Definition py_getitem (v : value) (key : str) : result value :=
  match v with
  | VDict items =>
      match lookup (VStr key) items with
      | Some x => Ok x
      | None => Raise KeyError
      end
  | _ => Raise TypeError
  end.

(** [v[key] = x] with a string key. *)
Definition py_setitem (v : value) (key : str) (x : value)
  : result value :=
  match v with
  | VDict items => Ok (VDict (store (VStr key) x items))
  | _ => Raise TypeError
  end.

(** [key in v] with a string key. *)
Definition py_contains (v : value) (key : str) : result bool :=
  match v with
  | VDict items =>
      Ok (match lookup (VStr key) items with Some _ => true | None => false end)
  | VList l => Ok (existsb (py_eqb (VStr key)) l)
  | VStr s => Ok (contains s key)
  | _ => Raise TypeError
  end.

(** The elements [iter(v)] yields: those of a list, the characters of a
    string, the keys of a dictionary. *)
Definition py_iter (v : value) : result (list value) :=
  match v with
  | VList l => Ok l
  | VStr s => Ok (map (fun c => VStr [c]) s)
  | VDict items => Ok (map fst items)
  | _ => Raise TypeError
  end.

(** [list(set(l))]: fails on an element that cannot be hashed.  The
    order Python returns is unspecified; the first occurrences are kept
    here, in their order. *)
Fixpoint dedup (seen l : list value) : list value :=
  match l with
  | [] => []
  | x :: l' =>
      if existsb (py_eqb x) seen then dedup seen l'
      else x :: dedup (x :: seen) l'
  end.

Definition list_set (l : list value) : result (list value) :=
  if forallb hashable l then Ok (dedup [] l) else Raise TypeError.

(** [l.sort(key=...)] on the pairs (key, element): a stable insertion
    sort with Python's [<] on the keys.  An element moves right past the
    keys smaller than its own. *)
Fixpoint insert_keyed (kx x : value) (l : list (value * value))
  : result (list (value * value)) :=
  match l with
  | [] => Ok [(kx, x)]
  | (ky, y) :: l' =>
      b <- py_lt ky kx ;;
      if b then (r <- insert_keyed kx x l' ;; Ok ((ky, y) :: r))
      else Ok ((kx, x) :: l)
  end.

Fixpoint sort_keyed (l : list (value * value))
  : result (list (value * value)) :=
  match l with
  | [] => Ok []
  | (kx, x) :: l' => r <- sort_keyed l' ;; insert_keyed kx x r
  end.

(** [for x in l: r.append(f(x))] where [f] may raise. *)
Fixpoint map_result {A B : Type} (f : A -> result B) (l : list A)
  : result (list B) :=
  match l with
  | [] => Ok []
  | x :: l' => y <- f x ;; r <- map_result f l' ;; Ok (y :: r)
  end.

(** [l.sort(key=key)]: the keys of all elements are computed first. *)
Definition sort_by (key : value -> result value) (l : list value)
  : result (list value) :=
  keyed <- map_result (fun x => k <- key x ;; Ok (k, x)) l ;;
  sorted <- sort_keyed keyed ;;
  Ok (map snd sorted).

End PyVal.

(* ===================================================================== *)
(** * ai_analyzer.py *)
(* ===================================================================== *)

Module AIAnalyzer.
Import Py PyStr PyVal DocumentProcessor.

(** The request sent to the language model: the template and the values
    it is filled with. *)
Inductive prompt : Type :=
| ExecutiveChunkPrompt (trecho : nat) (chunk : str)
| ConsolidationPrompt (all_points all_data all_conclusions : list value)
| TopicsPrompt (documento : str)
| SingleTopicPrompt (topic : str) (combined_text : str)
| DataExtractionPrompt (chunk : str)
| ClausePrompt (chunk : str)
| TimelinePrompt (chunk : str)
| GeneralPrompt (analysis_type : str) (documento : str).

(** What [self.client.chat.completions.create] does: it returns a
    message content, or it raises. *)
Inductive reply : Type :=
| Content (s : str)
| Failure (e : exn).

(** A computation that sends requests: it starts with the number of
    requests sent so far and ends with a result and the new number. *)
Definition io (A : Type) : Type := nat -> result A * nat.

Definition ret {A : Type} (a : A) : io A := fun n => (Ok a, n).

Definition raise {A : Type} (e : exn) : io A := fun n => (Raise e, n).

Definition bind_io {A B : Type} (c : io A) (k : A -> io B) : io B :=
  fun n =>
    match c n with
    | (Ok a, n') => k a n'
    | (Raise e, n') => (Raise e, n')
    end.

Definition lift {A : Type} (r : result A) : io A := fun n => (r, n).

(** [try: c  except Exception as e: h e]. *)
Definition catch {A : Type} (c : io A) (h : exn -> io A) : io A :=
  fun n =>
    match c n with
    | (Ok a, n') => (Ok a, n')
    | (Raise e, n') => h e n'
    end.

Declare Scope io_scope.
Delimit Scope io_scope with io.
Notation "x <- c1 ;; c2" := (bind_io c1 (fun x => c2))
  (at level 61, c1 at next level, right associativity) : io_scope.

Fixpoint digits (d : Decimal.uint) : str :=
  match d with
  | Decimal.Nil => []
  | Decimal.D0 d' => 48%N :: digits d'
  | Decimal.D1 d' => 49%N :: digits d'
  | Decimal.D2 d' => 50%N :: digits d'
  | Decimal.D3 d' => 51%N :: digits d'
  | Decimal.D4 d' => 52%N :: digits d'
  | Decimal.D5 d' => 53%N :: digits d'
  | Decimal.D6 d' => 54%N :: digits d'
  | Decimal.D7 d' => 55%N :: digits d'
  | Decimal.D8 d' => 56%N :: digits d'
  | Decimal.D9 d' => 57%N :: digits d'
  end.

(** [str(n)] for a natural number. *)
Definition str_of_nat (n : nat) : str := digits (Nat.to_uint n).

(** The analysis names; the accented letters are written as code
    points. *)
Definition RESUMO_EXECUTIVO : str := lit "Resumo Executivo".
Definition ANALISE_POR_TOPICOS : str :=
  lit "An" ++ [225%N] ++ lit "lise por T" ++ [243%N] ++ lit "picos".
Definition EXTRACAO_DE_DADOS : str :=
  lit "Extra" ++ [231%N; 227%N] ++ lit "o de Dados".
Definition ANALISE_DE_CLAUSULAS : str :=
  lit "An" ++ [225%N] ++ lit "lise de Cl" ++ [225%N] ++ lit "usulas".
Definition TIMELINE_DE_EVENTOS : str := lit "Timeline de Eventos".

Definition key (s : String.string) : value := VStr (lit s).
Arguments key s%_string.

Definition data_categories : list str :=
  [lit "dates"; lit "numbers"; lit "percentages"; lit "currencies";
   lit "names"; lit "locations"; lit "organizations"].

Section Analyzer.
(** [str.lower], [json.loads], [str(e)] and the language model; the
    model's reply may depend on how many requests came before. *)
Variable lower : str -> str.
Variable json_loads : str -> result value.
Variable str_exn : exn -> str.
Variable llm : nat -> prompt -> reply.

Local Open Scope io_scope.

(** One request: [response.choices[0].message.content]. *)
Definition chat (p : prompt) : io str :=
  fun n =>
    (match llm n p with
     | Content s => Ok s
     | Failure e => Raise e
     end, S n).

(** A request whose answer is parsed with [json.loads]. *)
Definition chat_json (p : prompt) : io value :=
  content <- chat p ;; lift (json_loads content).

(* ------------------------------------------------------------- *)
(** ** Executive summary *)

(** The record appended when the request for chunk [i] fails. *)
Definition summary_fallback (i : nat) : value :=
  VDict [(key "main_points",
          VList [VStr (lit "Resumo do trecho " ++ str_of_nat (i + 1))]);
         (key "important_data", VList []);
         (key "conclusions", VList [])].

(** The loop of [_executive_summary]; [i] is the index of [enumerate]. *)
Fixpoint summarize_chunks (i : nat) (chunks : list str)
  : io (list value) :=
  match chunks with
  | [] => ret []
  | chunk :: rest =>
      chunk_summary <-
        catch (chat_json (ExecutiveChunkPrompt (i + 1) chunk))
              (fun _ => ret (summary_fallback i)) ;;
      summaries <- summarize_chunks (S i) rest ;;
      ret (chunk_summary :: summaries)
  end.

(** [acc.extend(summary.get(field, []))]. *)
Definition extend_from (acc : list value) (summary : value) (field : str)
  : result (list value) :=
  (v <- py_get summary field (VList []) ;;
   elements <- py_iter v ;;
   Ok (acc ++ elements))%py.

(** The loop of lines 434-437. *)
Fixpoint collect_summaries (summaries : list value)
         (all_points all_data all_conclusions : list value)
  : result (list value * list value * list value) :=
  match summaries with
  | [] => Ok (all_points, all_data, all_conclusions)
  | summary :: rest =>
      (all_points <- extend_from all_points summary (lit "main_points") ;;
       all_data <- extend_from all_data summary (lit "important_data") ;;
       all_conclusions <-
         extend_from all_conclusions summary (lit "conclusions") ;;
       collect_summaries rest all_points all_data all_conclusions)%py
  end.

(** The result returned when the consolidation request fails. *)
Definition consolidation_fallback
           (all_points all_data all_conclusions : list value) : value :=
  VDict [(key "analysis_type", VStr RESUMO_EXECUTIVO);
         (key "executive_summary",
          VStr (lit "Resumo n" ++ [227%N] ++ lit "o dispon" ++ [237%N]
                ++ lit "vel devido a erro de processamento"));
         (key "key_findings", VList (firstn 5 all_points));
         (key "important_metrics", VList (firstn 5 all_data));
         (key "recommendations", VList []);
         (key "main_conclusions", VList (firstn 3 all_conclusions))].

(** [AIAnalyzer._consolidate_summaries]. *)
Definition _consolidate_summaries (summaries : list value) : io value :=
  collected <- lift (collect_summaries summaries [] [] []) ;;
  let '(all_points, all_data, all_conclusions) := collected in
  catch
    (consolidated <-
       chat_json (ConsolidationPrompt all_points all_data all_conclusions) ;;
     lift (py_setitem consolidated (lit "analysis_type")
                      (VStr RESUMO_EXECUTIVO)))
    (fun _ =>
       ret (consolidation_fallback all_points all_data all_conclusions)).

(** [AIAnalyzer._executive_summary]. *)
Definition _executive_summary (chunks : list str) : io value :=
  summaries <- summarize_chunks 0 chunks ;;
  _consolidate_summaries summaries.

(* ------------------------------------------------------------- *)
(** ** Topic analysis *)

Definition topic_fallback (topic : str) : value :=
  VDict [(key "summary",
          VStr (lit "An" ++ [225%N] ++ lit "lise do t" ++ [243%N]
                ++ lit "pico " ++ topic));
         (key "key_points", VList []);
         (key "details", VList []);
         (key "related_data", VList [])].

(** [AIAnalyzer._analyze_single_topic]; [topic.lower()] exists only on
    a string. *)
Definition _analyze_single_topic (chunks : list str) (topic : value)
  : io value :=
  match topic with
  | VStr topic =>
      let topic_lower := lower topic in
      let relevant_chunks :=
        filter (fun chunk => contains (lower chunk) topic_lower) chunks in
      let relevant_chunks :=
        match relevant_chunks with
        | [] => firstn 2 chunks
        | _ :: _ => relevant_chunks
        end in
      let combined_text := take 4000%Z (join [space] relevant_chunks) in
      catch (chat_json (SingleTopicPrompt topic combined_text))
            (fun _ => ret (topic_fallback topic))
  | _ => raise AttributeError
  end.

(** The loop of lines 196-198 over the topics. *)
Fixpoint analyze_topics (chunks : list str) (topics : list value)
         (topic_analyses : list (value * value))
  : io (list (value * value)) :=
  match topics with
  | [] => ret topic_analyses
  | topic :: rest =>
      analysis <- _analyze_single_topic chunks topic ;;
      if hashable topic
      then analyze_topics chunks rest (store topic analysis topic_analyses)
      else raise TypeError
  end.

(** [AIAnalyzer._topic_analysis]. *)
Definition _topic_analysis (chunks : list str) : io value :=
  let all_text := join [space] chunks in
  catch
    (topics_structure <- chat_json (TopicsPrompt (take 5000%Z all_text)) ;;
     main_topics <- lift (py_getitem topics_structure (lit "main_topics")) ;;
     topics <- lift (py_iter main_topics) ;;
     topic_analyses <- analyze_topics chunks topics [] ;;
     ret (VDict [(key "analysis_type", VStr ANALISE_POR_TOPICOS);
                 (key "topics_structure", topics_structure);
                 (key "topic_analyses", VDict topic_analyses)]))
    (fun e =>
       ret (VDict [(key "error",
                    VStr (lit "Erro na an" ++ [225%N] ++ lit "lise por t"
                          ++ [243%N] ++ lit "picos: " ++ str_exn e))])).

(* ------------------------------------------------------------- *)
(** ** Data extraction *)

(** The loop of lines 252-254 inside its [try]: a category that raises
    ends the loop, and the categories extended before it keep what they
    received. *)
Fixpoint merge_categories (chunk_data : value)
         (extracted_data : list (str * list value))
  : list (str * list value) :=
  match extracted_data with
  | [] => []
  | (category, collected) :: rest =>
      match py_contains chunk_data category with
      | Raise _ => extracted_data
      | Ok false => (category, collected) :: merge_categories chunk_data rest
      | Ok true =>
          match (v <- py_getitem chunk_data category ;; py_iter v)%py with
          | Raise _ => extracted_data
          | Ok elements =>
              (category, collected ++ elements)
                :: merge_categories chunk_data rest
          end
      end
  end.

(** The loop of lines 222-257. *)
Fixpoint extract_chunks (chunks : list str)
         (extracted_data : list (str * list value))
  : io (list (str * list value)) :=
  match chunks with
  | [] => ret extracted_data
  | chunk :: rest =>
      extracted_data <-
        catch (chunk_data <- chat_json (DataExtractionPrompt chunk) ;;
               ret (merge_categories chunk_data extracted_data))
              (fun _ => ret extracted_data) ;;
      extract_chunks rest extracted_data
  end.

(** The loop of lines 260-261. *)
Fixpoint remove_duplicates (extracted_data : list (str * list value))
  : result (list (value * value)) :=
  match extracted_data with
  | [] => Ok []
  | (category, collected) :: rest =>
      (unique <- list_set collected ;;
       rest' <- remove_duplicates rest ;;
       Ok ((VStr category, VList unique) :: rest'))%py
  end.

(** [AIAnalyzer._data_extraction]. *)
Definition _data_extraction (chunks : list str) : io value :=
  extracted_data <-
    extract_chunks chunks (map (fun c => (c, [])) data_categories) ;;
  extracted_data <- lift (remove_duplicates extracted_data) ;;
  ret (VDict [(key "analysis_type", VStr EXTRACAO_DE_DADOS);
              (key "extracted_data", VDict extracted_data)]).

(* ------------------------------------------------------------- *)
(** ** Clause analysis *)

(** The loop of [_clause_analysis]; a failing chunk appends nothing. *)
Fixpoint analyze_clauses (i : nat) (chunks : list str) : io (list value) :=
  match chunks with
  | [] => ret []
  | chunk :: rest =>
      found <-
        catch (clause_analysis <- chat_json (ClausePrompt chunk) ;;
               tagged <- lift (py_setitem clause_analysis (lit "section")
                                 (VNum (NInt (Z.of_nat (i + 1))))) ;;
               ret [tagged])
              (fun _ => ret []) ;;
      clauses <- analyze_clauses (S i) rest ;;
      ret (found ++ clauses)
  end.

(** [AIAnalyzer._clause_analysis]. *)
Definition _clause_analysis (chunks : list str) : io value :=
  clauses <- analyze_clauses 0 chunks ;;
  ret (VDict [(key "analysis_type", VStr ANALISE_DE_CLAUSULAS);
              (key "clauses", VList clauses)]).

(* ------------------------------------------------------------- *)
(** ** Timeline *)

(** The loop of lines 312-340: the events of the chunks whose request
    succeeds, in chunk order. *)
Fixpoint collect_events (chunks : list str) : io (list value) :=
  match chunks with
  | [] => ret []
  | chunk :: rest =>
      found <-
        catch (chunk_events <- chat_json (TimelinePrompt chunk) ;;
               v <- lift (py_get chunk_events (lit "events") (VList [])) ;;
               lift (py_iter v))
              (fun _ => ret []) ;;
      events <- collect_events rest ;;
      ret (found ++ events)
  end.

(** [lambda x: x.get("date", "")]. *)
Definition date_key (x : value) : result value :=
  py_get x (lit "date") (VStr []).

(** [AIAnalyzer._timeline_analysis]. *)
Definition _timeline_analysis (chunks : list str) : io value :=
  events <- collect_events chunks ;;
  events <- lift (sort_by date_key events) ;;
  ret (VDict [(key "analysis_type", VStr TIMELINE_DE_EVENTOS);
              (key "timeline", VList events)]).

(* ------------------------------------------------------------- *)
(** ** General analysis and dispatch *)

(** [AIAnalyzer._general_analysis]. *)
Definition _general_analysis (chunks : list str) (analysis_type : str)
  : io value :=
  catch
    (content <- chat (GeneralPrompt analysis_type
                        (take 8000%Z (join [space] chunks))) ;;
     ret (VDict [(key "analysis_type", VStr analysis_type);
                 (key "results", VStr content)]))
    (fun e =>
       ret (VDict [(key "error",
                    VStr (lit "Erro na an" ++ [225%N] ++ lit "lise: "
                          ++ str_exn e))])).

(** [AIAnalyzer.perform_detailed_analysis]. *)
Definition perform_detailed_analysis (text_content : text_content)
           (analysis_type : str) : io value :=
  let chunks := create_chunks_default text_content in
  if eqb analysis_type RESUMO_EXECUTIVO then _executive_summary chunks
  else if eqb analysis_type ANALISE_POR_TOPICOS then _topic_analysis chunks
  else if eqb analysis_type EXTRACAO_DE_DADOS then _data_extraction chunks
  else if eqb analysis_type ANALISE_DE_CLAUSULAS
       then _clause_analysis chunks
  else if eqb analysis_type TIMELINE_DE_EVENTOS
       then _timeline_analysis chunks
  else _general_analysis chunks analysis_type.

(** A result is tagged as failed when it has the key ["error"]. *)
Definition error_tagged (v : value) : bool :=
  match v with
  | VDict items =>
      match lookup (key "error") items with
      | Some _ => true
      | None => false
      end
  | _ => false
  end.

End Analyzer.

End AIAnalyzer.

(* ===================================================================== *)
(** * Vocabulary of the statements *)
(* ===================================================================== *)

Import Py PyStr DocumentProcessor.
Arguments lit s%_string.
Unset Implicit Arguments.

(** A string that starts with a character that is not white space. *)
Definition starts_solid (s : str) : Prop :=
  exists c t, s = c :: t /\ isspace c = false.

(** A string that ends with a character that is not white space. *)
Definition ends_solid (s : str) : Prop :=
  exists c t, s = t ++ [c] /\ isspace c = false.

Definition no_terminator (s : str) : Prop :=
  Forall (fun c => is_terminator c = false) s.

(** A sentence as the loop of [create_chunks] meets it. *)
Definition clean_sentence (s : str) : Prop :=
  starts_solid s /\ ends_solid s /\ no_terminator s.

(** [current_chunk] after the sentences of [group] were appended to the
    empty string. *)
Definition render (group : list str) : str :=
  concat (map (fun s => s ++ [dot; space]) group).

(** The chunk a group of sentences is sealed as. *)
Definition chunk_of (group : list str) : str := strip (render group).

Definition close_group (group : list str) : list (list str) :=
  match group with
  | [] => []
  | _ :: _ => [group]
  end.

(** The greedy grouping of the sentences: [group] is the group being
    filled. *)
Fixpoint pack (max_chunk_size : Z) (group : list str) (sentences : list str)
  : list (list str) :=
  match sentences with
  | [] => close_group group
  | s :: rest =>
      if (Z.of_nat (length (render group ++ s)) <=? max_chunk_size)%Z
      then pack max_chunk_size (group ++ [s]) rest
      else close_group group ++ pack max_chunk_size [s] rest
  end.

(** The chunk size the specification gives: the configured size, widened
    for a document of more than 50 or more than 100 pages. *)
Definition spec_chunk_size (configured : Z) (pages : option nat) : Z :=
  match pages with
  | Some p =>
      if (100 <? p)%nat then 6000%Z
      else if (50 <? p)%nat then 5000%Z
      else configured
  | None => configured
  end.

(** A group of sentences whose rendering stays within the size plus the
    final period and space, or a group of one sentence. *)
Definition bounded_group (max_chunk_size : Z) (group : list str) : Prop :=
  (Z.of_nat (length (render group)) <= max_chunk_size + 2)%Z
  \/ exists s, group = [s].

(** [str.lower] on the letters A to Z; the other characters are kept. *)
Definition ascii_lower (s : str) : str :=
  map (fun c => if ((65 <=? c) && (c <=? 90))%N then (c + 32)%N else c) s.

Import Chatbot.

(** The words of the query: lower-cased, split at white space. *)
Definition query_words (lower : str -> str) (query : str) : list str :=
  split (lower query).

(** The query words that occur in the lower-cased text of the chunk. *)
Definition found_words (lower : str -> str) (words : list str)
           (c : chunk_info) : list str :=
  filter (fun word => contains (lower (text c)) word) words.

(** The fraction of the query words that occur in the chunk. *)
Definition match_fraction (lower : str -> str) (words : list str)
           (c : chunk_info) : Q :=
  Qred (Z.of_nat (length (found_words lower words c))
        # Pos.of_nat (length words)).

(** The chunks with a word of the query, in chunk order, each with its
    fraction. *)
Definition candidates (lower : str -> str) (words : list str)
           (cs : list chunk_info) : list scored_chunk :=
  map (fun c => Scored c (match_fraction lower words c))
      (filter (fun c => (0 <? length (found_words lower words c))%nat) cs).

Definition same_similarity (q : Q) (r : scored_chunk) : bool :=
  Qeq_bool (similarity r) q.

(** The files of a folder that ingestion keeps: regular files with a
    supported extension whose extraction succeeds. *)
Definition ingested (lower : str -> str)
           (pdf docx pptx : str -> result text_content)
           (f : file_entry) : bool :=
  is_file f && str_in (lower (suffix f)) supported_suffixes
  && is_ok (extract_text lower pdf docx pptx f).

(** The chunks of one file, numbered from 0 and labelled with the file. *)
Definition file_chunks (lower : str -> str)
           (pdf docx pptx : str -> result text_content)
           (f : file_entry) : list chunk_info :=
  match extract_text lower pdf docx pptx f with
  | Ok tc =>
      map (fun ic => ChunkInfo (snd ic) (name f) (fst ic)
                               (document_type (metadata_of tc)))
          (enumerate_from 0 (create_chunks_default tc))
  | Raise _ => []
  end.

(** The index [fit_transform] builds over the texts of the chunks; none
    when it raises. *)
Definition index_over {matrix : Type}
           (fit_transform : list str -> result matrix)
           (cs : list chunk_info) : option matrix :=
  match fit_transform (map text cs) with
  | Ok m => Some m
  | Raise _ => None
  end.

(** ** Example data *)

Definition demo_chunk_0 : chunk_info :=
  ChunkInfo (lit "Alpha report. Budget overview.") (lit "a.pdf") 0 (lit "PDF").
Definition demo_chunk_1 : chunk_info :=
  ChunkInfo (lit "Alpha and Beta results.") (lit "a.pdf") 1 (lit "PDF").
Definition demo_chunk_2 : chunk_info :=
  ChunkInfo (lit "Nothing relevant here.") (lit "b.docx") 0
            (lit "Word Document").

(** A session that holds three chunks and no index. *)
Definition demo_session : chatbot unit :=
  ChatbotState [] [demo_chunk_0; demo_chunk_1; demo_chunk_2] None.

(** A folder of a directory and four files: two that can be read, one
    corrupt PDF, and one text file. *)
Definition demo_folder : list file_entry :=
  [FileEntry (lit "docs") (lit "in/docs") false [];
   FileEntry (lit "a.PDF") (lit "in/docs/a.PDF") true (lit ".PDF");
   FileEntry (lit "bad.pdf") (lit "in/docs/bad.pdf") true (lit ".pdf");
   FileEntry (lit "notes.txt") (lit "in/notes.txt") true (lit ".txt");
   FileEntry (lit "b.docx") (lit "in/b.docx") true (lit ".docx")].

Definition demo_extract_pdf (path : str) : result text_content :=
  if eqb path (lit "in/docs/a.PDF")
  then Ok (TextContent (lit "Alpha report! Budget overview.")
                       (PDF 2 false false))
  else Raise ServiceError.

Definition demo_extract_docx (path : str) : result text_content :=
  Ok (TextContent (lit "Minutes of the meeting?") (WordDocument 1 0 false false)).

Definition demo_extract_pptx (path : str) : result text_content :=
  Raise ServiceError.

(** A vectorizer that keeps the texts it was fitted on. *)
Definition demo_fit (texts : list str) : result (list str) := Ok texts.

(** ** The analyzer *)

Import PyVal AIAnalyzer.

(** The events the request for one chunk adds to the timeline: those of
    the reply, or none when the request, the parsing or the reading of
    ["events"] fails. *)
Definition events_of_reply (json_loads : str -> result value)
           (llm : nat -> prompt -> reply) (n : nat) (chunk : str)
  : list value :=
  match fst (chat_json json_loads llm (TimelinePrompt chunk) n) with
  | Ok chunk_events =>
      match bind (py_get chunk_events (lit "events") (VList [])) py_iter with
      | Ok events => events
      | Raise _ => []
      end
  | Raise _ => []
  end.

(** The event lists of all chunks, one after the other; the request for
    the first chunk is request number [n]. *)
Fixpoint flattened_events (json_loads : str -> result value)
         (llm : nat -> prompt -> reply) (n : nat) (chunks : list str)
  : list value :=
  match chunks with
  | [] => []
  | chunk :: rest =>
      events_of_reply json_loads llm n chunk
      ++ flattened_events json_loads llm (S n) rest
  end.

(** The raw date string of an event: that under ["date"], the empty string
    when the key is absent; none for an event that is no dictionary or
    whose date is no string. *)
Definition date_string (event : value) : option str :=
  match event with
  | VDict items =>
      match lookup (VStr (lit "date")) items with
      | None => Some []
      | Some (VStr s) => Some s
      | Some _ => None
      end
  | _ => None
  end.

Definition dated (event : value) : bool :=
  match date_string event with Some _ => true | None => false end.

Definition date_of (event : value) : str :=
  match date_string event with Some s => s | None => [] end.

(** The order of the timeline: an event stays before a later one unless
    its date string is greater. *)
Definition by_date (x y : value) : bool := leb (date_of x) (date_of y).

Definition same_date (d : str) (event : value) : bool := eqb (date_of event) d.

(** An event paired with its sort key. *)
Definition with_date_key (event : value) : value * value :=
  (VStr (date_of event), event).

(** A per-chunk record of the executive summary: a dictionary whose three
    fields, where present, are lists. *)
Definition summary_record (v : value) : bool :=
  match v with
  | VDict items =>
      forallb (fun field =>
                 match lookup (VStr field) items with
                 | None | Some (VList _) => true
                 | Some _ => false
                 end)
              [lit "main_points"; lit "important_data"; lit "conclusions"]
  | _ => false
  end.

(** The elements of a list field of a record. *)
Definition field_elements (field : str) (summary : value) : list value :=
  match summary with
  | VDict items =>
      match lookup (VStr field) items with
      | Some (VList l) => l
      | _ => []
      end
  | _ => []
  end.

(** What the records hold under one field, record after record. *)
Definition collected (field : str) (summaries : list value) : list value :=
  flat_map (field_elements field) summaries.

Definition placeholder_summary : str :=
  lit "Resumo n" ++ [227%N] ++ lit "o dispon" ++ [237%N]
  ++ lit "vel devido a erro de processamento".

(** Three chunks, and a language model whose reply to the request number
    [n] is the text [n]; the parser reads one dated event from each of the
    first three replies. *)
Definition demo_chunks : list str :=
  [lit "The contract was signed."; lit "Work began."; lit "A review followed."].

Definition demo_event (date description : str) : value :=
  VDict [(key "date", VStr date); (key "event", VStr description);
         (key "importance", VStr (lit "alta"))].

Definition demo_llm (n : nat) (p : prompt) : reply := Content [N.of_nat n].

Definition demo_loads (s : str) : result value :=
  match s with
  | [0%N] => Ok (VDict [(key "events",
                         VList [demo_event (lit "2024-03-01") (lit "signed")])])
  | [1%N] => Ok (VDict [(key "events",
                         VList [demo_event (lit "2024-01-15") (lit "began")])])
  | [2%N] => Ok (VDict [(key "events",
                         VList [demo_event (lit "2024-02-10") (lit "review")])])
  | _ => Raise JSONDecodeError
  end.

(** Three per-chunk records with one main point each. *)
Definition demo_record (point : str) : value :=
  VDict [(key "main_points", VList [VStr point]);
         (key "important_data", VList []);
         (key "conclusions", VList [])].

Definition demo_records : list value :=
  [demo_record (lit "p1"); demo_record (lit "p2"); demo_record (lit "p3")].

(** A language model that cannot be reached. *)
Definition unreachable_llm (n : nat) (p : prompt) : reply :=
  Failure ServiceError.

(** A language model that answers the first three requests and fails
    afterwards, with a parser that reads a record from each answer. *)
Definition three_replies_llm (n : nat) (p : prompt) : reply :=
  if (n <? 3)%nat then Content [N.of_nat n] else Failure ServiceError.

Definition records_loads (s : str) : result value :=
  match s with
  | [0%N] => Ok (demo_record (lit "p1"))
  | [1%N] => Ok (demo_record (lit "p2"))
  | [2%N] => Ok (demo_record (lit "p3"))
  | _ => Raise JSONDecodeError
  end.

(** A one-chunk document, and replies that are valid JSON of a shape the
    analyses do not expect: an event whose date is [null], a category that
    holds a list, and a summary that is an array. *)
Definition short_document : text_content :=
  TextContent (lit "Kickoff was in March. Delivery followed.")
              (PDF 1 false false).

Definition null_date_loads (s : str) : result value :=
  Ok (VDict [(key "events",
              VList [VDict [(key "date", VNone);
                            (key "event", VStr (lit "kickoff"))];
                     VDict [(key "date", VStr (lit "2024-03-01"));
                            (key "event", VStr (lit "delivery"))]])]).

Definition nested_dates_loads (s : str) : result value :=
  Ok (VDict [(key "dates",
              VList [VList [VStr (lit "2024-03-01"); VStr (lit "2024-03-31")]])]).

Definition array_summary_loads (s : str) : result value :=
  Ok (VList [VStr (lit "kickoff in March")]).

Definition answering_llm (n : nat) (p : prompt) : reply := Content [].

Definition no_message (e : exn) : str := [].

(* ===================================================================== *)
(** * Further vocabulary: the chunker *)
(* ===================================================================== *)

(** Between two chunks that follow one another, the first sentence of the
    second did not fit: the first chunk, the space after its period and
    that sentence are longer than the size. *)
Fixpoint sealed_when_full (max_chunk_size : Z) (chunks : list str) : Prop :=
  match chunks with
  | c1 :: ((c2 :: _) as rest) =>
      (exists s, hd_error (sentences_of c2) = Some s
                 /\ (max_chunk_size
                     < Z.of_nat (length c1 + 1 + length s))%Z)
      /\ sealed_when_full max_chunk_size rest
  | _ => True
  end.

(** The same on groups of sentences. *)
Fixpoint groups_sealed_when_full (max_chunk_size : Z)
         (groups : list (list str)) : Prop :=
  match groups with
  | g1 :: ((g2 :: _) as rest) =>
      (exists s, hd_error g2 = Some s
                 /\ (max_chunk_size
                     < Z.of_nat (length (render g1 ++ s)))%Z)
      /\ groups_sealed_when_full max_chunk_size rest
  | _ => True
  end.

(** Each sentence of [more] fits when it is appended, in turn, to the
    group that starts as [group]. *)
Fixpoint all_fit (max_chunk_size : Z) (group more : list str) : bool :=
  match more with
  | [] => true
  | s :: more' =>
      (Z.of_nat (length (render group ++ s)) <=? max_chunk_size)%Z
      && all_fit max_chunk_size (group ++ [s]) more'
  end.

(** A group that the loop does not break when it meets its sentences
    again. *)
Definition self_contained (max_chunk_size : Z) (group : list str) : Prop :=
  match group with
  | [] => False
  | s :: more => all_fit max_chunk_size [s] more = true
  end.

Definition exclamation : char := 33%N.
Definition question_mark : char := 63%N.

(* ===================================================================== *)
(** * Further vocabulary: the session and the analyses *)
(* ===================================================================== *)

(** A chunk that belongs to one of the documents: same file name, same
    kind, and a chunk number below the chunk count of the document. *)
Definition chunk_belongs (docs : list doc_info) (c : chunk_info) : Prop :=
  exists d, In d docs /\ filename d = document c /\ doc_kind d = doc_type c
            /\ (chunk_id c < chunk_count d)%nat.

(** The section number a clause record carries. *)
Definition section_of (clause : value) : option Z :=
  match clause with
  | VDict items =>
      match lookup (key "section") items with
      | Some (VNum (NInt z)) => Some z
      | _ => None
      end
  | _ => None
  end.

Definition is_str (v : value) : bool :=
  match v with VStr _ => true | _ => false end.

(** The main point that stands for chunk number [k] when its request
    fails. *)
Definition placeholder_point (k : nat) : value :=
  VStr (lit "Resumo do trecho " ++ str_of_nat k).

(** Two values that Python holds to be different, in both directions. *)
Definition differ (a b : value) : Prop :=
  py_eqb a b = false /\ py_eqb b a = false.

(** A reply to the topics request with two topics, and a language model
    that answers only the first request. *)
Definition topics_loads (s : str) : result value :=
  match s with
  | [0%N] => Ok (VDict [(key "main_topics",
                         VList [VStr (lit "budget"); VStr (lit "schedule")])])
  | _ => Raise JSONDecodeError
  end.

Definition first_reply_llm (n : nat) (p : prompt) : reply :=
  match n with
  | O => Content [0%N]
  | S _ => Failure ServiceError
  end.

(** A reply to the data extraction that names one date twice. *)
Definition repeated_date_loads (s : str) : result value :=
  Ok (VDict [(key "dates",
              VList [VStr (lit "2024-01-01"); VStr (lit "2024-01-01")])]).

(* ===================================================================== *)
(** * chatbot.py: retrieval, answers and statistics *)
(* ===================================================================== *)

Module ChatSession.
Set Implicit Arguments.
Import Py PyStr DocumentProcessor Chatbot AIAnalyzer.

(** One entry of [conversation_history]. *)
Record turn : Type := Turn {
  question : str;
  response : str;
  relevant_docs : list str
}.

(** What [_generate_response] sends: the name and the text of each
    relevant chunk, the question and response of the recent turns, and
    the question. *)
Record chat_prompt : Type := ChatPrompt {
  context_parts : list (str * str);
  recent_history : list (str * str);
  current_question : str
}.

(** The fixed messages; the cross mark is U+274C and the page is
    U+1F4C4. *)
Definition NO_DOCUMENTS : str :=
  [10060%N] ++ lit " Nenhum documento foi processado ainda. Por favor, fa"
  ++ [231%N] ++ lit "a upload de uma pasta com documentos.".

Definition NO_INFORMATION : str :=
  [10060%N] ++ lit " N" ++ [227%N] ++ lit "o encontrei informa"
  ++ [231%N; 245%N]
  ++ lit "es relevantes nos documentos para responder sua pergunta.".

Definition ERROR_PREFIX : str :=
  [10060%N] ++ lit " Erro ao gerar resposta: ".

Definition footer_one (doc_name : str) : str :=
  [10%N; 10%N; 128196%N] ++ lit " *Baseado no documento: " ++ doc_name
  ++ lit "*".

Definition footer_many (doc_names : list str) : str :=
  [10%N; 10%N; 128196%N] ++ lit " *Baseado nos documentos: "
  ++ join (lit ", ") doc_names ++ lit "*".

(** [l[k:]]: a negative [k] counts from the end. *)
Definition slice_from {A : Type} (k : Z) (l : list A) : list A :=
  if (k <? 0)%Z then skipn (length l - Z.to_nat (- k)) l
  else skipn (Z.to_nat k) l.

(** The float [0.1], as the rational it denotes. *)
Definition threshold : Q := (3602879701896397 # 36028797018963968)%Q.

(** The distinct names of a list, each at its last occurrence.  It is one
    of the orders [list(set(names))] may give; the examples use it. *)
Definition distinct_names (names : list str) : list str :=
  nodup (list_eq_dec N.eq_dec) names.

(** [2 ** n] for [n >= 0], and 1 for a negative [n]: the quotient
    [x / y] scaled by the power [n] of two is
    [(x * pow2 n) / (y * pow2 (- n))]. *)
Definition pow2 (n : Z) : Z := (2 ^ Z.max 0 n)%Z.

(** [a / b] on integers: the binary64 number nearest the quotient, ties to
    the even significand, as the rational it denotes.  [e] is the exponent
    of the quotient, [2 ** e <= x / y < 2 ** (e + 1)], and the significand
    has 53 bits; the exponent range is not modelled, the operands being
    lengths of lists, far inside it. *)
Definition float_truediv (a b : Z) : result Q :=
  if (b =? 0)%Z then Raise ZeroDivisionError
  else if (a =? 0)%Z then Ok (0 # 1)%Q
  else
    let x := Z.abs a in
    let y := Z.abs b in
    let k := (Z.log2 x - Z.log2 y)%Z in
    let e := if (y * pow2 k <=? x * pow2 (- k))%Z then k else (k - 1)%Z in
    let shift := (52 - e)%Z in
    let num := (x * pow2 shift)%Z in
    let den := (y * pow2 (- shift))%Z in
    let significand :=
      match (2 * (num mod den) ?= den)%Z with
      | Lt => (num / den)%Z
      | Gt => (num / den + 1)%Z
      | Eq => if Z.even (num / den) then (num / den)%Z
              else (num / den + 1)%Z
      end in
    Ok (Qred ((Z.sgn a * Z.sgn b * significand * pow2 (- shift))
              # Z.to_pos (pow2 shift))).

(** One request to the language model. *)
Definition request {P : Type} (llm : nat -> P -> reply) (p : P) : io str :=
  fun n =>
    (match llm n p with
     | Content s => Ok s
     | Failure e => Raise e
     end, S n).

(** [doc_mentions[doc] = doc_mentions.get(doc, 0) + 1] on a dictionary
    kept in insertion order. *)
Fixpoint bump (doc : str) (doc_mentions : list (str * nat))
  : list (str * nat) :=
  match doc_mentions with
  | [] => [(doc, 1%nat)]
  | (d, c) :: rest =>
      if eqb d doc then (d, S c) :: rest else (d, c) :: bump doc rest
  end.

(** The order of [sorted(..., key=lambda x: x[1], reverse=True)]. *)
Definition by_count_desc (x y : str * nat) : bool := (snd y <=? snd x)%nat.

(** The dictionary [get_conversation_stats] returns: the one of an empty
    history has the key ["total_questions"] only. *)
Inductive stats : Type :=
| NoQuestions
| Stats (total_questions : nat) (most_consulted_docs : list (str * nat))
        (avg_docs_per_question : Q).

Section Session.
Variable lower : str -> str.
Variable matrix : Type.
(** [vectorizer.transform], [cosine_similarity] and [flatten]: the
    similarity of the query to each row of the matrix, or none when one of
    them raises. *)
Variable similarities : matrix -> str -> option (list Q).
(** [similarities.argsort()]. *)
Variable argsort : list Q -> list nat.
Variable str_exn : exn -> str.
Variable llm : nat -> chat_prompt -> reply.
(** [list(set(names))]: the names without repetition, in the order of the
    hash table, which the language leaves open. *)
Variable set_order : list str -> list str.

(** The session: the attributes of [DocumentChatbot]. *)
Record session : Type := Session {
  bot : chatbot matrix;
  conversation_history : list turn
}.

(** The loop of lines 157-161; none when an index is out of range. *)
Fixpoint pick_relevant (self : chatbot matrix) (sims : list Q)
         (top_indices : list nat) : option (list scored_chunk) :=
  match top_indices with
  | [] => Some []
  | idx :: rest =>
      match nth_error sims idx with
      | None => None
      | Some s =>
          if negb (Qle_bool s threshold) then
            match nth_error (chunks self) idx with
            | None => None
            | Some c =>
                match pick_relevant self sims rest with
                | Some found => Some (Scored c s :: found)
                | None => None
                end
            end
          else pick_relevant self sims rest
      end
  end.

(** The body of the [try] of lines 145-163; none when it raises. *)
Definition tfidf_search (self : chatbot matrix) (m : matrix) (query : str)
           (top_k : Z) : option (list scored_chunk) :=
  match similarities m query with
  | None => None
  | Some sims =>
      let top_indices := rev (slice_from (- top_k) (argsort sims)) in
      pick_relevant self sims top_indices
  end.

(** [DocumentChatbot._search_relevant_chunks]. *)
Definition _search_relevant_chunks (self : chatbot matrix) (query : str)
           (top_k : Z) : result (list scored_chunk) :=
  match tfidf_matrix self with
  | None => _keyword_search lower self query top_k
  | Some m =>
      match tfidf_search self m query top_k with
      | Some relevant_chunks => Ok relevant_chunks
      | None => _keyword_search lower self query top_k
      end
  end.

(** The prompt of [_generate_response]: the last three turns only. *)
Definition build_prompt (self : session) (question : str)
           (relevant_chunks : list scored_chunk) : chat_prompt :=
  ChatPrompt
    (map (fun r => (document (chunk r), text (chunk r))) relevant_chunks)
    (map (fun item => (ChatSession.question item, response item))
         (slice_from (-3) (conversation_history self)))
    question.

(** Lines 251-255. *)
Definition footer (relevant_chunks : list scored_chunk) : str :=
  match set_order (map (fun r => document (chunk r)) relevant_chunks) with
  | [doc_name] => footer_one doc_name
  | doc_names => footer_many doc_names
  end.

(** [DocumentChatbot._generate_response]. *)
Definition _generate_response (self : session) (question : str)
           (relevant_chunks : list scored_chunk) : io str :=
  catch
    (bind_io (request llm (build_prompt self question relevant_chunks))
             (fun answer => ret (answer ++ footer relevant_chunks)))
    (fun e => ret (ERROR_PREFIX ++ str_exn e)).

(** [DocumentChatbot.get_response]: the answer and the session
    afterwards. *)
Definition get_response (self : session) (user_question : str)
  : io (str * session) :=
  match chunks (bot self) with
  | [] => ret (NO_DOCUMENTS, self)
  | _ :: _ =>
      bind_io (lift (_search_relevant_chunks (bot self) user_question 5))
        (fun relevant_chunks =>
           match relevant_chunks with
           | [] => ret (NO_INFORMATION, self)
           | _ :: _ =>
               bind_io (_generate_response self user_question relevant_chunks)
                 (fun response =>
                    ret (response,
                         Session (bot self)
                           (conversation_history self
                            ++ [Turn user_question response
                                     (map (fun r => document (chunk r))
                                          (firstn 3 relevant_chunks))])))
           end)
  end.

(** [DocumentChatbot.clear_history]. *)
Definition clear_history (self : session) : session :=
  Session (bot self) [].

(** The documents named by the turns, turn after turn. *)
Definition mentions (history : list turn) : list str :=
  flat_map relevant_docs history.

(** The loop of lines 294-297. *)
Definition count_mentions (history : list turn) : list (str * nat) :=
  fold_left (fun doc_mentions doc => bump doc doc_mentions)
            (mentions history) [].

(** [DocumentChatbot.get_conversation_stats]. *)
Definition get_conversation_stats (self : session) : result stats :=
  match conversation_history self with
  | [] => Ok NoQuestions
  | _ :: _ =>
      let history := conversation_history self in
      let most_used_docs :=
        firstn 3 (stable_sort by_count_desc (count_mentions history)) in
      bind (float_truediv
              (Z.of_nat (sum (map (fun item => length (relevant_docs item))
                                  history)))
              (Z.of_nat (length history)))
           (fun avg => Ok (Stats (length history) most_used_docs avg))
  end.

End Session.

Unset Implicit Arguments.
End ChatSession.

(* ===================================================================== *)
(** * document_processor.py: the document summary *)
(* ===================================================================== *)

Module DocumentSummary.
Set Implicit Arguments.
Import Py PyStr DocumentProcessor.

(** [s.split(sep)] for a separator of one character. *)
Fixpoint split_on (sep : char) (s : str) : list str :=
  match s with
  | [] => [[]]
  | c :: s' =>
      if (c =? sep)%N then [] :: split_on sep s'
      else match split_on sep s' with
           | p :: ps => (c :: p) :: ps
           | [] => [[c]]
           end
  end.

Definition newline : char := 10%N.

(** [metadata.get('has_images', False)] and
    [metadata.get('has_tables', False)]. *)
Definition metadata_has_images (m : metadata) : bool :=
  match m with
  | PDF _ i _ | WordDocument _ _ i _ | PowerPointPresentation _ i _ => i
  end.

Definition metadata_has_tables (m : metadata) : bool :=
  match m with
  | PDF _ _ t | WordDocument _ _ _ t | PowerPointPresentation _ _ t => t
  end.

(** The dictionary [get_document_summary] returns. *)
Record document_summary : Type := DocumentSummaryOf {
  word_count : nat;
  char_count : nat;
  estimated_reading_time : nat;
  potential_titles : list str;
  summary_document_type : str;
  has_images : bool;
  has_tables : bool
}.

Section Summary.
(** [str.isupper]. *)
Variable isupper : str -> bool.

(** The test of line 238 on a stripped line. *)
Definition is_title (line : str) : bool :=
  truthy line && (length line <? 100)%nat && isupper line.

(** The loop of lines 236-239. *)
Definition find_titles (lines : list str) : list str :=
  filter is_title (map strip (firstn 20 lines)).

(** [DocumentProcessor.get_document_summary]. *)
Definition get_document_summary (tc : text_content) : document_summary :=
  let word_count := length (split (full_text tc)) in
  let lines := split_on newline (full_text tc) in
  DocumentSummaryOf
    word_count
    (length (full_text tc))
    (word_count / 200)
    (firstn 5 (find_titles lines))
    (document_type (metadata_of tc))
    (metadata_has_images (metadata_of tc))
    (metadata_has_tables (metadata_of tc)).

End Summary.

Unset Implicit Arguments.
End DocumentSummary.

(* ===================================================================== *)
(** * ai_analyzer.py: the structural analysis *)
(* ===================================================================== *)

Module StructureAnalysis.
Set Implicit Arguments.
Import Py PyStr DocumentProcessor PyVal AIAnalyzer.

(** The [metadata] dictionary of each extractor, as a Python object. *)
Definition metadata_items (m : metadata) : list (value * value) :=
  match m with
  | PDF total_pages has_images has_tables =>
      [(key "total_pages", VNum (NInt (Z.of_nat total_pages)));
       (key "document_type", VStr (document_type m));
       (key "has_images", VBool has_images);
       (key "has_tables", VBool has_tables)]
  | WordDocument total_paragraphs total_tables has_images has_tables =>
      [(key "total_paragraphs", VNum (NInt (Z.of_nat total_paragraphs)));
       (key "total_tables", VNum (NInt (Z.of_nat total_tables)));
       (key "document_type", VStr (document_type m));
       (key "has_images", VBool has_images);
       (key "has_tables", VBool has_tables)]
  | PowerPointPresentation total_slides has_images has_tables =>
      [(key "total_slides", VNum (NInt (Z.of_nat total_slides)));
       (key "document_type", VStr (document_type m));
       (key "has_images", VBool has_images);
       (key "has_tables", VBool has_tables)]
  end.

(** [d.get(k, default)] on the items of a dictionary. *)
Definition get_or (items : list (value * value)) (k : value)
           (default : value) : value :=
  match lookup k items with
  | Some v => v
  | None => default
  end.

(** The request of [analyze_document_structure]. *)
Record structure_prompt : Type := StructurePrompt {
  prompt_filename : str;
  prompt_metadata : metadata;
  sample_text : str
}.

Definition ANALISE_COMPARATIVA : str :=
  lit "An" ++ [225%N] ++ lit "lise Comparativa".

Definition analysis_names (names : list str) : value :=
  VList (map VStr names).

Definition required_fields : list str :=
  [lit "document_type"; lit "main_topic"; lit "structure";
   lit "suggested_analyses"].

Definition all_analyses : list str :=
  [RESUMO_EXECUTIVO; ANALISE_POR_TOPICOS; EXTRACAO_DE_DADOS;
   ANALISE_DE_CLAUSULAS; TIMELINE_DE_EVENTOS; ANALISE_COMPARATIVA].

Definition contract_analyses : list str :=
  [ANALISE_DE_CLAUSULAS; RESUMO_EXECUTIVO; EXTRACAO_DE_DADOS].
Definition report_analyses : list str :=
  [RESUMO_EXECUTIVO; ANALISE_POR_TOPICOS; EXTRACAO_DE_DADOS].
Definition presentation_analyses : list str :=
  [RESUMO_EXECUTIVO; ANALISE_POR_TOPICOS; TIMELINE_DE_EVENTOS].

(** [AIAnalyzer._get_default_value]. *)
Definition _get_default_value (field : str) (m : metadata) : value :=
  let defaults :=
    [(key "document_type",
      get_or (metadata_items m) (key "document_type")
             (VStr (lit "Documento")));
     (key "main_topic",
      VStr (lit "T" ++ [243%N] ++ lit "pico n" ++ [227%N]
            ++ lit "o identificado"));
     (key "structure",
      VDict [(key "estimated_pages",
              get_or (metadata_items m) (key "total_pages")
                     (VStr (lit "N/A")));
             (key "main_sections",
              VList [VStr (lit "Se" ++ [231%N; 227%N] ++ lit "o 1");
                     VStr (lit "Se" ++ [231%N; 227%N] ++ lit "o 2")]);
             (key "has_numerical_data", VBool false);
             (key "has_dates", VBool false);
             (key "has_financial_info", VBool false);
             (key "language", VStr (lit "portugu" ++ [234%N] ++ lit "s"))]);
     (key "suggested_analyses",
      analysis_names [RESUMO_EXECUTIVO; ANALISE_POR_TOPICOS])] in
  get_or defaults (VStr field) (VStr (lit "N/A")).

(** The loop of lines 490-492. *)
Fixpoint fill_required (fields : list str) (analysis : value) (m : metadata)
  : result value :=
  match fields with
  | [] => Ok analysis
  | field :: rest =>
      bind (py_contains analysis field)
           (fun present =>
              if present then fill_required rest analysis m
              else bind (py_setitem analysis field
                                    (_get_default_value field m))
                        (fun analysis => fill_required rest analysis m))
  end.

(** The choice of lines 506-513 on the lower-cased document type. *)
Definition suggestions_for (doc_type : str) : list str :=
  if contains doc_type (lit "contrato") || contains doc_type (lit "legal")
  then contract_analyses
  else if contains doc_type (lit "relat" ++ [243%N] ++ lit "rio")
          || contains doc_type (lit "report")
  then report_analyses
  else if contains doc_type (lit "apresenta" ++ [231%N; 227%N] ++ lit "o")
          || contains doc_type (lit "presentation")
  then presentation_analyses
  else firstn 4 all_analyses.

Section Structure.
Variable lower : str -> str.
Variable json_loads : str -> result value.
Variable llm : nat -> structure_prompt -> reply.

(** [AIAnalyzer._validate_analysis]; [lower] exists only on a string. *)
Definition _validate_analysis (analysis : value) (m : metadata)
  : result value :=
  bind (fill_required required_fields analysis m)
       (fun analysis =>
          bind (py_get analysis (lit "document_type") (VStr []))
               (fun doc_type =>
                  match doc_type with
                  | VStr s =>
                      py_setitem analysis (lit "suggested_analyses")
                        (analysis_names (suggestions_for (lower s)))
                  | _ => Raise AttributeError
                  end)).

(** [AIAnalyzer._fallback_analysis]. *)
Definition _fallback_analysis (tc : text_content) (filename : str) : value :=
  let m := metadata_of tc in
  VDict [(key "document_type", VStr (document_type m));
         (key "main_topic",
          VStr (lit "An" ++ [225%N] ++ lit "lise autom" ++ [225%N]
                ++ lit "tica"));
         (key "confidence_score", VNum (NInt 50));
         (key "structure",
          VDict [(key "estimated_pages",
                  get_or (metadata_items m) (key "total_pages")
                         (VStr (lit "N/A")));
                 (key "main_sections",
                  VList [VStr (lit "In" ++ [237%N] ++ lit "cio");
                         VStr (lit "Meio"); VStr (lit "Fim")]);
                 (key "has_numerical_data", VBool true);
                 (key "has_dates", VBool true);
                 (key "has_financial_info", VBool false);
                 (key "language",
                  VStr (lit "portugu" ++ [234%N] ++ lit "s"))]);
         (key "suggested_analyses",
          analysis_names [RESUMO_EXECUTIVO; ANALISE_POR_TOPICOS;
                          EXTRACAO_DE_DADOS]);
         (key "priority_analysis", VStr RESUMO_EXECUTIVO);
         (key "key_entities", VList [])].

(** [AIAnalyzer.analyze_document_structure]. *)
Definition analyze_document_structure (tc : text_content) (filename : str)
  : io value :=
  catch
    (bind_io
       (ChatSession.request llm
          (StructurePrompt filename (metadata_of tc)
                           (take 3000%Z (full_text tc))))
       (fun content =>
          bind_io (lift (json_loads content))
                  (fun analysis =>
                     lift (_validate_analysis analysis (metadata_of tc)))))
    (fun _ => ret (_fallback_analysis tc filename)).

End Structure.

Unset Implicit Arguments.
End StructureAnalysis.

(* ===================================================================== *)
(** * Further vocabulary: the session, the summary, the structure *)
(* ===================================================================== *)

Import ChatSession.

(** How often the turns of a history name a document. *)
Definition mention_count (history : list turn) (doc : str) : nat :=
  count_occ (list_eq_dec N.eq_dec) (mentions history) doc.

(** The count a dictionary of mentions holds for a document, 0 when it
    has no entry. *)
Fixpoint held_count (doc_mentions : list (str * nat)) (doc : str) : nat :=
  match doc_mentions with
  | [] => 0%nat
  | (d, c) :: rest => if eqb d doc then c else held_count rest doc
  end.

(** Similarities of three chunks, with their indices in ascending order of
    similarity. *)
Definition demo_similarities (m : unit) (query : str) : option (list Q) :=
  Some [(1 # 2)%Q; (1 # 20)%Q; (9 # 10)%Q].

Definition demo_argsort (sims : list Q) : list nat := [1; 0; 2]%nat.

(** A language model for the chat that always answers "ok". *)
Definition ok_llm (n : nat) (p : chat_prompt) : reply := Content (lit "ok").

(** A session with the three example chunks and two earlier turns. *)
Definition demo_chat : session unit :=
  Session demo_session
          [Turn (lit "q1") (lit "r1") [lit "a.pdf"; lit "b.docx"];
           Turn (lit "q2") (lit "r2") [lit "a.pdf"]].

(** [str.isupper] on ASCII text: a letter A to Z and no letter a to z. *)
Definition ascii_isupper (s : str) : bool :=
  existsb (fun c => (65 <=? c) && (c <=? 90))%N s
  && forallb (fun c => negb ((97 <=? c) && (c <=? 122))%N) s.

Definition titled_document : text_content :=
  TextContent (lit "  ANNUAL REPORT " ++ [10%N] ++ lit "prepared in 2024"
               ++ [10%N] ++ lit "SUMMARY")
              (PDF 3 true false).

(** A language model for the structural analysis that returns a contract
    with suggestions of its own. *)
Definition structure_llm (n : nat) (p : StructureAnalysis.structure_prompt)
  : reply := Content [].

Definition contract_loads (s : str) : result value :=
  Ok (VDict [(key "document_type", VStr (lit "Contrato de Servico"));
             (key "suggested_analyses",
              VList [VStr StructureAnalysis.ANALISE_COMPARATIVA])]).

(* ===================================================================== *)
(** * Further vocabulary: clause records and the index of a session *)
(* ===================================================================== *)

(** What chunk number [i] (counted from 0) adds to the clause records
    when the analysis starts at request [n]: the dictionary of its reply
    with the section number [i + 1], or nothing when its request fails,
    the reply does not parse, or it parses to something else than a
    dictionary. *)
Definition clause_of (json_loads : str -> result value)
           (llm : nat -> prompt -> reply) (n : nat) (ic : nat * str)
  : list value :=
  match llm (n + fst ic)%nat (ClausePrompt (snd ic)) with
  | Content s =>
      match json_loads s with
      | Ok (VDict items) =>
          [VDict (store (key "section")
                        (VNum (NInt (Z.of_nat (fst ic + 1)))) items)]
      | _ => []
      end
  | Failure _ => []
  end.

(** A language model that fails on the second request only, and replies
    that parse to an empty dictionary. *)
Definition second_fails_llm (n : nat) (p : prompt) : reply :=
  match n with
  | 1%nat => Failure ServiceError
  | _ => Content []
  end.

Definition empty_dict_loads (s : str) : result value := Ok (VDict []).

(** A session that has ingested the example folder, and a folder whose
    only document is corrupt. *)
Definition indexed_session : chatbot (list str) :=
  snd (process_folder ascii_lower demo_extract_pdf demo_extract_docx
                      demo_extract_pptx demo_fit (init (list str))
                      demo_folder).

Definition corrupt_folder : list file_entry :=
  [FileEntry (lit "bad.pdf") (lit "in/docs/bad.pdf") true (lit ".pdf");
   FileEntry (lit "notes.txt") (lit "in/notes.txt") true (lit ".txt")].

(* ===================================================================== *)
(** * Facts about strings *)
(* ===================================================================== *)

Section StringFacts.

Lemma dropwhile_solid (p : char -> bool) (s : str) :
  dropwhile p s = [] \/
  exists c t, dropwhile p s = c :: t /\ p c = false.
Proof.
  induction s as [|a s IH]; simpl; [now left|].
  destruct (p a) eqn:E; [exact IH|].
  right; exists a, s; auto.
Qed.

Lemma dropwhile_id (p : char -> bool) (c : char) (t : str) :
  p c = false -> dropwhile p (c :: t) = c :: t.
Proof. intros H; simpl; now rewrite H. Qed.

Lemma dropwhile_keeps_last (p : char -> bool) (u : str) (c : char) :
  p c = false -> exists v, dropwhile p (u ++ [c]) = v ++ [c].
Proof.
  intros H; induction u as [|a u IH]; simpl.
  - rewrite H; now exists [].
  - destruct (p a); [exact IH|].
    now exists (a :: u).
Qed.

Lemma dropwhile_suffix (p : char -> bool) (s : str) :
  exists u, s = u ++ dropwhile p s.
Proof.
  induction s as [|a s [u IH]]; simpl.
  - now exists [].
  - destruct (p a).
    + exists (a :: u); simpl; now rewrite <- IH.
    + now exists [].
Qed.

(** [strip] returns the empty string or a string with solid ends. *)
Lemma strip_solid (s : str) :
  strip s = [] \/ (starts_solid (strip s) /\ ends_solid (strip s)).
Proof.
  unfold strip, rstrip, lstrip.
  destruct (dropwhile_solid isspace s) as [E | (c & t & E & Hc)].
  - left; now rewrite E.
  - right; rewrite E.
    assert (Hrev : rev (c :: t) = rev t ++ [c]) by reflexivity.
    destruct (dropwhile_keeps_last isspace (rev t) c Hc) as [v Hv].
    rewrite Hrev, Hv, rev_app_distr; simpl.
    split.
    + exists c, (rev v); auto.
    + destruct (dropwhile_solid isspace (rev t ++ [c])) as [E' | (d & w & E' & Hd)].
      * rewrite Hv in E'; now destruct v.
      * rewrite Hv in E'.
        exists d, (rev w).
        assert (c :: rev v = rev (v ++ [c])) by (rewrite rev_app_distr; reflexivity).
        rewrite H, E'; simpl; auto.
Qed.

Lemma strip_fixed (s : str) :
  starts_solid s -> ends_solid s -> strip s = s.
Proof.
  intros (c & t & -> & Hc) (d & u & E & Hd).
  unfold strip, rstrip, lstrip.
  rewrite (dropwhile_id _ _ _ Hc), E, rev_app_distr; simpl.
  rewrite Hd; simpl. now rewrite rev_involutive.
Qed.

(** The sealed chunk: the trailing space goes, the period stays. *)
Lemma strip_sealed (x : str) :
  starts_solid x -> strip (x ++ [dot; space]) = x ++ [dot].
Proof.
  intros (c & t & -> & Hc).
  unfold strip, rstrip, lstrip.
  change ((c :: t) ++ [dot; space]) with (c :: (t ++ [dot; space])).
  rewrite (dropwhile_id _ _ _ Hc).
  change (c :: t ++ [dot; space]) with ((c :: t) ++ [dot; space]).
  rewrite rev_app_distr; simpl.
  rewrite rev_app_distr; simpl. now rewrite rev_involutive.
Qed.

Lemma strip_leading_space (p : str) : strip (space :: p) = strip p.
Proof. reflexivity. Qed.

Lemma strip_nil : strip [] = [].
Proof. reflexivity. Qed.

Lemma re_split_not_nil (text : str) : re_split text <> [].
Proof.
  induction text as [|c t IH]; simpl; [discriminate|].
  destruct (is_terminator c).
  - destruct t as [|c' t']; [discriminate|].
    destruct (is_terminator c'); [exact IH | discriminate].
  - destruct (re_split t); discriminate.
Qed.

(** No piece of [re.split] holds a terminator. *)
Lemma re_split_no_terminator (text : str) :
  Forall no_terminator (re_split text).
Proof.
  induction text as [|c t IH]; simpl.
  - repeat constructor.
  - destruct (is_terminator c) eqn:E.
    + destruct t as [|c' t'].
      * repeat constructor.
      * destruct (is_terminator c'); [exact IH|].
        constructor; [constructor | exact IH].
    + destruct (re_split t) as [|p ps]; [repeat constructor; exact E|].
      inversion IH; subst.
      constructor; [constructor; assumption | assumption].
Qed.

(** A sentence followed by a period and more text is the first piece. *)
Lemma re_split_sentence (s : str) (c : char) (rest : str) :
  no_terminator s -> is_terminator c = false ->
  re_split (s ++ dot :: c :: rest) = s :: re_split (c :: rest).
Proof.
  intros Hs Hc; induction Hs as [|a s Ha Hs IH].
  - cbn [app re_split]. change (is_terminator dot) with true. cbv iota.
    now rewrite Hc.
  - change ((a :: s) ++ dot :: c :: rest) with (a :: (s ++ dot :: c :: rest)).
    cbn [re_split]. rewrite Ha, IH. reflexivity.
Qed.

Lemma re_split_last_sentence (s : str) :
  no_terminator s -> re_split (s ++ [dot]) = [s; []].
Proof.
  intros Hs; induction Hs as [|a s Ha Hs IH].
  - reflexivity.
  - change ((a :: s) ++ [dot]) with (a :: (s ++ [dot])).
    cbn [re_split]. rewrite Ha, IH. reflexivity.
Qed.

Lemma no_terminator_app (a b : str) :
  no_terminator (a ++ b) <-> no_terminator a /\ no_terminator b.
Proof. unfold no_terminator; apply Forall_app. Qed.

Lemma no_terminator_strip (s : str) :
  no_terminator s -> no_terminator (strip s).
Proof.
  intros H. unfold strip, rstrip, lstrip.
  destruct (dropwhile_suffix isspace s) as [u Hu].
  rewrite Hu in H. apply no_terminator_app in H as [_ H].
  set (l := dropwhile isspace s) in *.
  destruct (dropwhile_suffix isspace (rev l)) as [v Hv].
  assert (H' : no_terminator (rev l))
    by (unfold no_terminator; apply Forall_rev; exact H).
  rewrite Hv in H'. apply no_terminator_app in H' as [_ H'].
  unfold no_terminator; apply Forall_rev; exact H'.
Qed.

End StringFacts.

(* ===================================================================== *)
(** * Facts about the chunker *)
(* ===================================================================== *)

Section ChunkerFacts.

Variable max_chunk_size : Z.

Lemma render_snoc (g : list str) (s : str) :
  render (g ++ [s]) = render g ++ s ++ [dot; space].
Proof.
  unfold render. rewrite map_app, concat_app. simpl.
  now rewrite app_nil_r.
Qed.

Lemma render_single (s : str) : render [s] = s ++ [dot; space].
Proof. unfold render; simpl. now rewrite app_nil_r. Qed.

Lemma truthy_render (g : list str) :
  truthy (render g) = match g with [] => false | _ :: _ => true end.
Proof.
  destruct g as [|s g]; [reflexivity|].
  unfold render; simpl. destruct s; reflexivity.
Qed.

Lemma seal_render (chunks : list str) (g : list str) :
  seal chunks (render g) = chunks ++ map chunk_of (close_group g).
Proof.
  unfold seal. rewrite truthy_render.
  destruct g; simpl; [now rewrite app_nil_r | reflexivity].
Qed.

(** The loop seals the groups of [pack], taken over the sentences it does
    not skip. *)
Lemma loop_pack (pieces : list str) (chunks : list str) (g : list str) :
  (let '(chunks', current_chunk) :=
     fold_left (chunk_step max_chunk_size) pieces (chunks, render g) in
   seal chunks' current_chunk)
  = chunks ++ map chunk_of
                  (pack max_chunk_size g (filter truthy (map strip pieces))).
Proof.
  revert chunks g.
  induction pieces as [|p pieces IH]; intros chunks g.
  - simpl. apply seal_render.
  - cbn [fold_left map filter].
    unfold chunk_step at 2.
    destruct (strip p) as [|c t] eqn:E.
    + cbn [truthy negb]. apply IH.
    + cbn [truthy negb pack].
      destruct (Z.of_nat (length (render g ++ c :: t)) <=? max_chunk_size)%Z.
      * rewrite <- render_snoc. apply IH.
      * rewrite <- render_single, IH, seal_render.
        now rewrite map_app, app_assoc.
Qed.

Lemma chunk_sentences_pack (text : str) :
  chunk_sentences max_chunk_size text
  = map chunk_of (pack max_chunk_size [] (sentences_of text)).
Proof.
  unfold chunk_sentences, sentences_of.
  exact (loop_pack (re_split text) [] []).
Qed.

Lemma concat_close_group (g : list str) : concat (close_group g) = g.
Proof. destruct g; simpl; [reflexivity | now rewrite app_nil_r]. Qed.

(** Grouping keeps every sentence, once and in order. *)
Lemma concat_pack (sentences : list str) (g : list str) :
  concat (pack max_chunk_size g sentences) = g ++ sentences.
Proof.
  revert g; induction sentences as [|s rest IH]; intros g; simpl.
  - rewrite concat_close_group. now rewrite app_nil_r.
  - destruct (Z.of_nat (length (render g ++ s)) <=? max_chunk_size)%Z.
    + rewrite IH. now rewrite <- app_assoc.
    + rewrite concat_app, concat_close_group, IH. reflexivity.
Qed.

Lemma close_group_not_nil (g : list str) :
  Forall (fun grp => grp <> []) (close_group g).
Proof. destruct g; simpl; repeat constructor; discriminate. Qed.

Lemma pack_not_nil (sentences : list str) (g : list str) :
  Forall (fun grp => grp <> []) (pack max_chunk_size g sentences).
Proof.
  revert g; induction sentences as [|s rest IH]; intros g; simpl.
  - apply close_group_not_nil.
  - destruct (Z.of_nat (length (render g ++ s)) <=? max_chunk_size)%Z.
    + apply IH.
    + apply Forall_app; split; [apply close_group_not_nil | apply IH].
Qed.

Lemma pack_members (P : str -> Prop) (sentences : list str) (g : list str) :
  Forall P g -> Forall P sentences ->
  Forall (Forall P) (pack max_chunk_size g sentences).
Proof.
  revert g; induction sentences as [|s rest IH]; intros g Hg Hs; simpl.
  - destruct g; simpl; repeat constructor; inversion Hg; assumption.
  - inversion Hs; subst.
    destruct (Z.of_nat (length (render g ++ s)) <=? max_chunk_size)%Z.
    + apply IH; [apply Forall_app; split; auto | assumption].
    + apply Forall_app; split.
      * destruct g; simpl; repeat constructor; inversion Hg; assumption.
      * apply IH; auto.
Qed.

(** Every sentence the loop keeps is clean. *)
Lemma sentences_of_clean (text : str) :
  Forall clean_sentence (sentences_of text).
Proof.
  unfold sentences_of.
  pose proof (re_split_no_terminator text) as H.
  induction H as [|p ps Hp Hps IH]; simpl; [constructor|].
  destruct (strip p) as [|c t] eqn:E; simpl; [exact IH|].
  constructor; [|exact IH].
  destruct (strip_solid p) as [E' | [Hs He]]; [congruence|].
  rewrite E in Hs, He.
  repeat split; auto.
  rewrite <- E. now apply no_terminator_strip.
Qed.

Lemma render_join (s : str) (g : list str) :
  render (s :: g) = join [dot; space] (s :: g) ++ [dot; space].
Proof.
  revert s; induction g as [|s2 g IH]; intros s.
  - unfold render; simpl. now rewrite app_nil_r.
  - change (render (s :: s2 :: g))
      with ((s ++ [dot; space]) ++ render (s2 :: g)).
    rewrite IH.
    change (join [dot; space] (s :: s2 :: g))
      with (s ++ [dot; space] ++ join [dot; space] (s2 :: g)).
    now rewrite <- !app_assoc.
Qed.

Lemma join_starts_solid (s : str) (g : list str) :
  starts_solid s -> starts_solid (join [dot; space] (s :: g)).
Proof.
  intros (c & t & -> & Hc).
  destruct g as [|s2 g].
  - exists c, t; auto.
  - exists c, (t ++ [dot; space] ++ join [dot; space] (s2 :: g)); auto.
Qed.

(** A non-empty group whose first sentence starts solid is sealed as its
    sentences joined by a period and a space, with a final period. *)
Lemma chunk_of_join (g : list str) :
  g <> [] -> Forall starts_solid g ->
  chunk_of g = join [dot; space] g ++ [dot].
Proof.
  intros Hne Hg. destruct g as [|s g]; [congruence|].
  inversion Hg; subst.
  unfold chunk_of. rewrite render_join.
  apply strip_sealed. now apply join_starts_solid.
Qed.

(** Reading the sentences back from a sealed chunk. *)
Lemma sentences_of_leading_space (text : str) :
  sentences_of (space :: text) = sentences_of text.
Proof.
  unfold sentences_of. cbn [re_split].
  change (is_terminator space) with false. cbv iota.
  pose proof (re_split_not_nil text) as H.
  destruct (re_split text) as [|p ps]; [congruence|].
  cbn [map]. now rewrite strip_leading_space.
Qed.

Lemma sentences_of_join (g : list str) :
  g <> [] -> Forall clean_sentence g ->
  sentences_of (join [dot; space] g ++ [dot]) = g.
Proof.
  intros Hne Hg. induction Hg as [|s g Hs Hg IH]; [congruence|].
  destruct Hs as (Hstart & Hend & Hterm).
  pose proof (strip_fixed s Hstart Hend) as Hfix.
  assert (Hs_ne : truthy s = true)
    by (destruct Hstart as (c & t & -> & _); reflexivity).
  destruct g as [|s2 g].
  - cbn [join]. unfold sentences_of.
    rewrite (re_split_last_sentence s Hterm).
    cbn [map filter]. rewrite Hfix, Hs_ne, strip_nil. reflexivity.
  - change (join [dot; space] (s :: s2 :: g) ++ [dot])
      with ((s ++ [dot; space] ++ join [dot; space] (s2 :: g)) ++ [dot]).
    rewrite <- app_assoc.
    change (s ++ ([dot; space] ++ join [dot; space] (s2 :: g)) ++ [dot])
      with (s ++ dot :: space :: (join [dot; space] (s2 :: g) ++ [dot])).
    unfold sentences_of.
    rewrite (re_split_sentence s space _ Hterm eq_refl).
    cbn [map filter]. rewrite Hfix, Hs_ne.
    f_equal.
    change (filter truthy (map strip (re_split
              (space :: join [dot; space] (s2 :: g) ++ [dot]))))
      with (sentences_of (space :: join [dot; space] (s2 :: g) ++ [dot])).
    rewrite sentences_of_leading_space.
    apply IH. discriminate.
Qed.

Lemma clean_starts_solid (g : list str) :
  Forall clean_sentence g -> Forall starts_solid g.
Proof. apply Forall_impl. now intros s (H & _). Qed.

(** The chunks, as the groups of the sentences of the text. *)
Lemma chunk_sentences_groups (text : str) :
  exists groups,
    chunk_sentences max_chunk_size text
    = map (fun g => join [dot; space] g ++ [dot]) groups
    /\ concat groups = sentences_of text
    /\ Forall (fun g => g <> []) groups
    /\ Forall (Forall clean_sentence) groups.
Proof.
  exists (pack max_chunk_size [] (sentences_of text)).
  assert (Hm : Forall (Forall clean_sentence)
                 (pack max_chunk_size [] (sentences_of text)))
    by (apply pack_members; [constructor | apply sentences_of_clean]).
  pose proof (pack_not_nil (sentences_of text) []) as Hn.
  repeat split; auto.
  - rewrite chunk_sentences_pack.
    apply map_ext_in. intros g Hin.
    rewrite Forall_forall in Hm, Hn.
    apply chunk_of_join; [now apply Hn|].
    apply clean_starts_solid. now apply Hm.
  - apply concat_pack.
Qed.

Lemma chunk_sentences_roundtrip (text : str) :
  concat (map sentences_of (chunk_sentences max_chunk_size text))
  = sentences_of text.
Proof.
  destruct (chunk_sentences_groups text) as (groups & -> & <- & Hn & Hc).
  rewrite map_map. f_equal.
  rewrite <- (map_id groups) at 2.
  apply map_ext_in. intros g Hin.
  rewrite Forall_forall in Hn, Hc.
  apply sentences_of_join; auto.
Qed.

Lemma pack_bounded (sentences : list str) (g : list str) :
  g = [] \/ bounded_group max_chunk_size g ->
  Forall (bounded_group max_chunk_size) (pack max_chunk_size g sentences).
Proof.
  revert g; induction sentences as [|s rest IH]; intros g Hg; simpl.
  - destruct g; simpl; [constructor|].
    destruct Hg as [Hg | Hg]; [discriminate|].
    constructor; [exact Hg | constructor].
  - destruct (Z.leb_spec (Z.of_nat (length (render g ++ s))) max_chunk_size)
      as [Hfit | Hover].
    + apply IH. right; left.
      rewrite render_snoc, app_assoc, length_app. simpl. lia.
    + apply Forall_app; split.
      * destruct g; simpl; [constructor|].
        destruct Hg as [Hg | Hg]; [discriminate|].
        constructor; [exact Hg | constructor].
      * apply IH. right; right. now exists s.
Qed.

(** The bound that does hold: a chunk is at most one character longer
    than the size, unless it is a single sentence that is itself longer
    than the size. *)
Lemma chunk_length_bound (text : str) :
  Forall (fun c =>
            (Z.of_nat (length c) <= max_chunk_size + 1)%Z
            \/ exists s, c = s ++ [dot] /\ clean_sentence s
                         /\ (max_chunk_size < Z.of_nat (length s))%Z)
         (chunk_sentences max_chunk_size text).
Proof.
  rewrite chunk_sentences_pack.
  pose proof (pack_bounded (sentences_of text) [] (or_introl eq_refl)) as Hb.
  pose proof (pack_not_nil (sentences_of text) []) as Hn.
  assert (Hm : Forall (Forall clean_sentence)
                 (pack max_chunk_size [] (sentences_of text)))
    by (apply pack_members; [constructor | apply sentences_of_clean]).
  induction Hb as [|g gs Hg Hgs IH]; simpl; [constructor|].
  inversion Hn; subst. inversion Hm; subst.
  constructor; [|now apply IH].
  rewrite chunk_of_join by (auto using clean_starts_solid).
  assert (Hlen : length (render g)
                 = S (length (join [dot; space] g ++ [dot]))).
  { destruct g as [|s g]; [congruence|].
    rewrite render_join, !length_app. simpl. lia. }
  destruct Hg as [Hg | [s ->]].
  - left. lia.
  - cbn [join].
    destruct (Z.leb_spec (Z.of_nat (length s)) max_chunk_size).
    + left. rewrite length_app. simpl. lia.
    + right. exists s.
      match goal with H : Forall clean_sentence [s] |- _ =>
                        inversion H; subst end.
      split; [reflexivity | split; [assumption | lia]].
Qed.

End ChunkerFacts.

(* ===================================================================== *)
(** * The chunker: properties *)
(* ===================================================================== *)

(** C1, on the code: a document whose text is one sentence of exactly 4000
    characters, chunked with the default size 4000, gives one chunk of 4001
    characters.  The chunk is longer than the size although its only
    sentence is not: the test of line 201 leaves out the period that line
    202 appends. *)
Theorem create_chunks_exceeds_max_chunk_size :
  let sentence := repeat 97%N (Z.to_nat 4000) in
  let tc := TextContent sentence (WordDocument 1 0 false false) in
  create_chunks_default tc = [sentence ++ [dot]]
  /\ sentences_of (full_text tc) = [sentence]
  /\ Z.of_nat (length sentence) = default_max_chunk_size
  /\ Z.of_nat (length (sentence ++ [dot])) = (default_max_chunk_size + 1)%Z.
Proof. vm_compute. repeat split; reflexivity. Qed.

(** The same excess with two sentences and the size 10: both sentences are
    shorter than the size and the chunk has 11 characters. *)
Example create_chunks_two_sentences_exceed :
  create_chunks (TextContent (lit "abcd! efgh?") (PDF 1 false false)) 10
  = [lit "abcd. efgh."].
Proof. vm_compute. reflexivity. Qed.

(** C3: the sentences read back from the chunks, chunk after chunk, are the
    sentences of the text, in order; and an empty text gives no chunk. *)
Theorem create_chunks_reconstructs_sentences
        (tc : text_content) (max_chunk_size : Z) :
  concat (map sentences_of (create_chunks tc max_chunk_size))
  = sentences_of (full_text tc)
  /\ create_chunks (TextContent [] (metadata_of tc)) max_chunk_size = [].
Proof.
  split.
  - unfold create_chunks. apply chunk_sentences_roundtrip.
  - reflexivity.
Qed.

(** C6: [create_chunks] runs the sentence loop with the configured size,
    which is 4000 by default, replaced by 5000 for a PDF of more than 50
    pages and by 6000 for one of more than 100 pages; nothing but the page
    count enters the size. *)
Theorem create_chunks_size_rule (tc : text_content) (max_chunk_size : Z) :
  default_max_chunk_size = 4000%Z
  /\ create_chunks tc max_chunk_size
     = chunk_sentences
         (spec_chunk_size max_chunk_size (page_count (metadata_of tc)))
         (full_text tc)
  /\ create_chunks_default tc
     = chunk_sentences
         (spec_chunk_size 4000 (page_count (metadata_of tc)))
         (full_text tc).
Proof.
  assert (H : forall m, adjusted_chunk_size (metadata_of tc) m
                        = spec_chunk_size m (page_count (metadata_of tc)))
    by (intros m; destruct (metadata_of tc); reflexivity).
  unfold create_chunks_default, create_chunks.
  rewrite !H. repeat split; reflexivity.
Qed.

(** C9: every chunk is not empty and ends with a period that no white
    space follows; it is a group of sentences joined by a period and a
    space, closed by a period, whatever ended the sentences in the text. *)
Theorem create_chunks_end_with_period
        (tc : text_content) (max_chunk_size : Z) :
  Forall (fun c => c <> [] /\ last c space = dot /\ ends_solid c)
         (create_chunks tc max_chunk_size)
  /\ exists groups,
       create_chunks tc max_chunk_size
       = map (fun g => join [dot; space] g ++ [dot]) groups
       /\ concat groups = sentences_of (full_text tc)
       /\ Forall (fun g => g <> []) groups.
Proof.
  unfold create_chunks.
  destruct (chunk_sentences_groups
              (adjusted_chunk_size (metadata_of tc) max_chunk_size)
              (full_text tc)) as (groups & E & Hc & Hn & _).
  split.
  - rewrite E. apply Forall_map, Forall_forall. intros g _.
    repeat split.
    + now destruct (join [dot; space] g).
    + apply last_last.
    + now exists dot, (join [dot; space] g).
  - exists groups; auto.
Qed.

(* ===================================================================== *)
(** * Facts about the stable sort *)
(* ===================================================================== *)

Section StableSortFacts.

Variable A : Type.
Variable before : A -> A -> bool.

Lemma insert_permutation (x : A) (l : list A) :
  Permutation (insert before x l) (x :: l).
Proof.
  induction l as [|y l IH]; simpl; [reflexivity|].
  destruct (before x y); [reflexivity|].
  rewrite IH. apply perm_swap.
Qed.

Lemma stable_sort_permutation (l : list A) :
  Permutation (stable_sort before l) l.
Proof.
  induction l as [|x l IH]; simpl; [reflexivity|].
  rewrite insert_permutation. now constructor.
Qed.

Section Sorted.
Hypothesis before_total :
  forall x y, before x y = true \/ before y x = true.
Hypothesis before_trans :
  forall x y z, before x y = true -> before y z = true ->
                before x z = true.

Lemma insert_sorted (x : A) (l : list A) :
  StronglySorted (fun a b => before a b = true) l ->
  StronglySorted (fun a b => before a b = true) (insert before x l).
Proof.
  induction 1 as [|y l Hl IH Hy]; simpl.
  - repeat constructor.
  - destruct (before x y) eqn:E.
    + constructor; [now constructor|].
      constructor; [exact E|].
      eapply Forall_impl; [|exact Hy].
      intros z Hz. now apply before_trans with y.
    + constructor; [exact IH|].
      assert (Hyx : before y x = true)
        by (destruct (before_total x y); congruence).
      eapply Permutation_Forall.
      * symmetry. apply insert_permutation.
      * now constructor.
Qed.

Lemma stable_sort_sorted (l : list A) :
  StronglySorted (fun a b => before a b = true) (stable_sort before l).
Proof.
  induction l as [|x l IH]; simpl; [constructor|].
  now apply insert_sorted.
Qed.
End Sorted.

(** Elements that the order does not separate keep their places
    relative to one another. *)
Section Stable.
Variable same : A -> bool.
Hypothesis same_before :
  forall x y, same x = true -> same y = true -> before x y = true.

Lemma insert_stable (x : A) (l : list A) :
  filter same (insert before x l) = filter same (x :: l).
Proof.
  induction l as [|y l IH]; [reflexivity|].
  cbn [insert]. destruct (before x y) eqn:E; [reflexivity|].
  cbn [filter] in *. rewrite IH.
  destruct (same x) eqn:Ex, (same y) eqn:Ey; try reflexivity.
  rewrite (same_before x y Ex Ey) in E. discriminate.
Qed.

Lemma stable_sort_stable (l : list A) :
  filter same (stable_sort before l) = filter same l.
Proof.
  induction l as [|x l IH]; [reflexivity|].
  cbn [stable_sort fold_right].
  change (fold_right (insert before) [] l) with (stable_sort before l).
  rewrite insert_stable. cbn [filter]. now rewrite IH.
Qed.
End Stable.

End StableSortFacts.

(* ===================================================================== *)
(** * The keyword search *)
(* ===================================================================== *)

Lemma sum_indicator {X : Type} (p : X -> bool) (l : list X) :
  sum (map (fun x => if p x then 1 else 0)%nat l) = length (filter p l).
Proof.
  induction l as [|x l IH]; simpl; [reflexivity|].
  destruct (p x); simpl; now rewrite IH.
Qed.

Lemma Zpos_of_nat (n : nat) :
  n <> 0%nat -> Zpos (Pos.of_nat n) = Z.of_nat n.
Proof.
  intros H. rewrite <- positive_nat_Z. now rewrite Nat2Pos.id.
Qed.

Lemma to_pos_of_nat (n : nat) :
  n <> 0%nat -> Z.to_pos (Z.of_nat n) = Pos.of_nat n.
Proof.
  intros H. rewrite <- (Zpos_of_nat n H). reflexivity.
Qed.

Lemma StronglySorted_weaken {X : Type} (R S : X -> X -> Prop) (l : list X) :
  (forall x y, R x y -> S x y) -> StronglySorted R l -> StronglySorted S l.
Proof.
  intros H; induction 1 as [|x l Hl IH Hx]; constructor; auto.
  eapply Forall_impl; [|exact Hx]. auto.
Qed.

Lemma slice_to_nonneg {X : Type} (k : Z) (l : list X) :
  (0 <= k)%Z -> slice_to k l = firstn (Z.to_nat k) l.
Proof.
  intros H. unfold slice_to.
  destruct (Z.ltb_spec k 0); [lia | reflexivity].
Qed.

Section KeywordSearchFacts.

Variable lower : str -> str.

Lemma keyword_score_found (words : list str) (c : chunk_info) :
  keyword_score lower words c = length (found_words lower words c).
Proof. unfold keyword_score, found_words. apply sum_indicator. Qed.

Lemma found_words_le (words : list str) (c : chunk_info) :
  (length (found_words lower words c) <= length words)%nat.
Proof. apply filter_length_le. Qed.

(** With at least one query word the loop never divides by zero, and it
    collects the candidates. *)
Lemma score_chunks_candidates (words : list str) (cs : list chunk_info) :
  words <> [] ->
  score_chunks lower words cs = Ok (candidates lower words cs).
Proof.
  intros Hw.
  assert (Hn : length words <> 0%nat) by (destruct words; simpl; congruence).
  induction cs as [|c cs IH]; [reflexivity|].
  cbn [score_chunks]. unfold candidates. cbn [filter].
  rewrite keyword_score_found.
  destruct (0 <? length (found_words lower words c))%nat; [|exact IH].
  unfold truediv.
  destruct (Z.eqb_spec (Z.of_nat (length words)) 0); [lia|].
  cbn [bind]. rewrite IH. cbn [bind map].
  unfold match_fraction. now rewrite (to_pos_of_nat _ Hn).
Qed.

(** Without query words every score is 0 and nothing is divided. *)
Lemma score_chunks_no_words (cs : list chunk_info) :
  score_chunks lower [] cs = Ok [].
Proof. induction cs as [|c cs IH]; [reflexivity | exact IH]. Qed.

Lemma by_similarity_desc_total (x y : scored_chunk) :
  by_similarity_desc x y = true \/ by_similarity_desc y x = true.
Proof.
  unfold by_similarity_desc. rewrite !Qle_bool_iff.
  destruct (Qlt_le_dec (similarity x) (similarity y)) as [H | H].
  - right. now apply Qlt_le_weak.
  - now left.
Qed.

Lemma by_similarity_desc_trans (x y z : scored_chunk) :
  by_similarity_desc x y = true -> by_similarity_desc y z = true ->
  by_similarity_desc x z = true.
Proof.
  unfold by_similarity_desc. rewrite !Qle_bool_iff.
  intros H1 H2. now apply Qle_trans with (similarity y).
Qed.

Lemma same_similarity_before (q : Q) (x y : scored_chunk) :
  same_similarity q x = true -> same_similarity q y = true ->
  by_similarity_desc x y = true.
Proof.
  unfold same_similarity, by_similarity_desc.
  rewrite !Qeq_bool_iff, Qle_bool_iff. intros -> ->. apply Qle_refl.
Qed.

Lemma full_match_fraction (words : list str) (c : chunk_info) :
  words <> [] ->
  length (found_words lower words c) = length words ->
  match_fraction lower words c = 1%Q.
Proof.
  intros Hw E.
  assert (Hn : length words <> 0%nat) by (destruct words; simpl; congruence).
  unfold match_fraction. rewrite E, <- (Zpos_of_nat _ Hn).
  change 1%Q with (Qred 1). apply Qred_complete.
  unfold Qeq; simpl. lia.
Qed.

Lemma fraction_one_full_match (words : list str) (c : chunk_info) :
  words <> [] ->
  (1 <= match_fraction lower words c)%Q ->
  length (found_words lower words c) = length words.
Proof.
  intros Hw H.
  assert (Hn : length words <> 0%nat) by (destruct words; simpl; congruence).
  unfold match_fraction in H. rewrite Qred_correct in H.
  unfold Qle in H; simpl in H. rewrite (Zpos_of_nat _ Hn) in H.
  pose proof (found_words_le words c). lia.
Qed.

Lemma in_candidates (words : list str) (cs : list chunk_info)
      (r : scored_chunk) :
  In r (candidates lower words cs) ->
  In (chunk r) cs
  /\ similarity r = match_fraction lower words (chunk r)
  /\ (0 < length (found_words lower words (chunk r)))%nat.
Proof.
  unfold candidates. rewrite in_map_iff.
  intros (c & <- & Hc). apply filter_In in Hc as [Hin Hpos].
  apply Nat.ltb_lt in Hpos. auto.
Qed.

End KeywordSearchFacts.

(** C4: with at least one query word and a top-k that is not negative, the
    keyword search returns the first top-k of a ranking of the chunks that
    hold a query word, each with the fraction of the query words found in it
    as similarity; the ranking is by similarity, largest first, and chunks
    of equal similarity keep their chunk order.  A chunk that alone holds
    every query word comes first, with similarity 1. *)
Theorem keyword_search_ranking
        (lower : str -> str) (matrix : Type) (self : chatbot matrix)
        (query : str) (top_k : Z) :
  query_words lower query <> [] ->
  (0 <= top_k)%Z ->
  exists ranked,
    _keyword_search lower self query top_k
    = Ok (firstn (Z.to_nat top_k) ranked)
    /\ (length (firstn (Z.to_nat top_k) ranked) <= Z.to_nat top_k)%nat
    /\ Permutation ranked
         (candidates lower (query_words lower query) (chunks self))
    /\ Forall (fun r =>
                 In (chunk r) (chunks self)
                 /\ similarity r
                    = match_fraction lower (query_words lower query) (chunk r)
                 /\ (0 < similarity r)%Q)
              ranked
    /\ StronglySorted (fun x y => (similarity y <= similarity x)%Q) ranked
    /\ (forall q,
          filter (same_similarity q) ranked
          = filter (same_similarity q)
                   (candidates lower (query_words lower query) (chunks self)))
    /\ (forall c,
          In c (chunks self) ->
          length (found_words lower (query_words lower query) c)
          = length (query_words lower query) ->
          (forall c', In c' (chunks self) ->
                      length (found_words lower (query_words lower query) c')
                      = length (query_words lower query) -> c' = c) ->
          (1 <= top_k)%Z ->
          hd_error (firstn (Z.to_nat top_k) ranked) = Some (Scored c 1%Q)).
Proof.
  intros Hw Hk.
  set (words := query_words lower query) in *.
  set (cands := candidates lower words (chunks self)).
  exists (stable_sort by_similarity_desc cands).
  assert (Hperm : Permutation (stable_sort by_similarity_desc cands) cands)
    by apply stable_sort_permutation.
  assert (Hsorted : StronglySorted (fun x y => (similarity y <= similarity x)%Q)
                      (stable_sort by_similarity_desc cands)).
  { eapply StronglySorted_weaken;
      [| apply stable_sort_sorted;
         [apply by_similarity_desc_total | apply by_similarity_desc_trans]].
    intros x y H. now apply Qle_bool_iff. }
  assert (Hall : forall r, In r (stable_sort by_similarity_desc cands) ->
                           In (chunk r) (chunks self)
                           /\ similarity r = match_fraction lower words (chunk r)
                           /\ (0 < length (found_words lower words (chunk r)))%nat).
  { intros r Hr. apply (in_candidates lower words (chunks self)).
    eapply Permutation_in; [exact Hperm | exact Hr]. }
  assert (Hn : length words <> 0%nat) by (destruct words; simpl; congruence).
  split; [|split; [|split; [|split; [|split; [|split]]]]].
  - unfold _keyword_search. fold (query_words lower query). fold words.
    rewrite (score_chunks_candidates lower words (chunks self) Hw).
    cbn [bind]. now rewrite slice_to_nonneg.
  - apply firstn_le_length.
  - exact Hperm.
  - apply Forall_forall. intros r Hr.
    destruct (Hall r Hr) as (Hin & Hsim & Hpos).
    repeat split; auto.
    rewrite Hsim. unfold match_fraction. rewrite Qred_correct.
    unfold Qlt; simpl. lia.
  - exact Hsorted.
  - intros q. apply stable_sort_stable. apply same_similarity_before.
  - intros c Hc Hfull Huniq Hk1.
    set (target := Scored c (match_fraction lower words c)).
    assert (Htarget : In target (stable_sort by_similarity_desc cands)).
    { eapply Permutation_in; [symmetry; exact Hperm|].
      unfold cands, candidates. apply in_map_iff. exists c. split; [reflexivity|].
      apply filter_In. split; [exact Hc|]. apply Nat.ltb_lt. lia. }
    assert (Hone : match_fraction lower words c = 1%Q)
      by now apply full_match_fraction.
    destruct (stable_sort by_similarity_desc cands) as [|h tl] eqn:E;
      [contradiction|].
    assert (Hh : h = target).
    { destruct Htarget as [Hh | Htl]; [exact Hh|].
      inversion Hsorted as [|? ? _ Hle]; subst.
      rewrite Forall_forall in Hle. specialize (Hle target Htl).
      cbn [similarity target] in Hle. rewrite Hone in Hle.
      destruct (Hall h (or_introl eq_refl)) as (Hin & Hsim & _).
      rewrite Hsim in Hle.
      apply fraction_one_full_match in Hle; [|exact Hw].
      pose proof (Huniq (chunk h) Hin Hle) as Hc'.
      destruct h as [ch sh]; cbn [chunk similarity] in *.
      subst ch. unfold target. now rewrite Hsim. }
    destruct (Z.to_nat top_k) as [|m] eqn:Em; [lia|].
    cbn [firstn hd_error]. rewrite Hh. unfold target. now rewrite Hone.
Qed.

(** C10: a query that is empty or all white space once lower-cased has no
    words; the search then returns the empty list, and the division by the
    number of query words, which would raise, is never made. *)
Theorem keyword_search_no_words
        (lower : str -> str) (matrix : Type) (self : chatbot matrix)
        (query : str) (top_k : Z) :
  Forall (fun c => isspace c = true) (lower query) ->
  _keyword_search lower self query top_k = Ok [].
Proof.
  intros H.
  assert (Hs : split (lower query) = []).
  { unfold split. induction H as [|c s Hc Hs IH]; [reflexivity|].
    cbn [split_ws_from]. now rewrite Hc. }
  unfold _keyword_search. rewrite Hs, score_chunks_no_words.
  cbn [bind stable_sort fold_right]. unfold slice_to.
  now destruct (top_k <? 0)%Z; rewrite firstn_nil.
Qed.

(** A witness of [keyword_search_ranking]: the second chunk alone holds
    both words of the query and comes first with similarity 1. *)
Lemma keyword_search_ranking_witness :
  exists ranked,
    _keyword_search ascii_lower demo_session (lit "Alpha BETA") 5
    = Ok (firstn (Z.to_nat 5) ranked)
    /\ hd_error (firstn (Z.to_nat 5) ranked) = Some (Scored demo_chunk_1 1%Q).
Proof.
  assert (Hw : query_words ascii_lower (lit "Alpha BETA") <> [])
    by (vm_compute; discriminate).
  assert (Hk : (0 <= 5)%Z) by lia.
  destruct (keyword_search_ranking ascii_lower unit demo_session
              (lit "Alpha BETA") 5 Hw Hk)
    as (ranked & E & _ & _ & _ & _ & _ & Hhead).
  exists ranked. split; [exact E|].
  apply Hhead.
  - simpl; auto.
  - reflexivity.
  - intros c' [<- | [<- | [<- | []]]]; vm_compute; intros H;
      solve [reflexivity | discriminate H].
  - lia.
Defined.

Example keyword_search_example :
  _keyword_search ascii_lower demo_session (lit "Alpha BETA") 5
  = Ok [Scored demo_chunk_1 1%Q; Scored demo_chunk_0 (1 # 2)%Q].
Proof. vm_compute. reflexivity. Qed.

(** A witness of [keyword_search_no_words]: a query of blanks and a tab. *)
Lemma keyword_search_no_words_witness :
  _keyword_search ascii_lower demo_session (lit "  " ++ [9%N]) 5 = Ok [].
Proof.
  apply keyword_search_no_words.
  vm_compute. repeat constructor.
Defined.

Example keyword_search_empty_query :
  _keyword_search ascii_lower demo_session [] 5 = Ok [].
Proof. reflexivity. Qed.

(* ===================================================================== *)
(** * Folder ingestion *)
(* ===================================================================== *)

Section IngestionFacts.

Variable lower : str -> str.
Variables pdf docx pptx : str -> result text_content.
Variable matrix : Type.
Variable fit_transform : list str -> result matrix.

(** One iteration, by cases on the file. *)
Lemma folder_step_cases (f : file_entry)
      (acc : list doc_info * list chunk_info) :
  (ingested lower pdf docx pptx f = true
   /\ exists doc,
       folder_step lower pdf docx pptx acc f
       = (fst acc ++ [doc], snd acc ++ file_chunks lower pdf docx pptx f)
       /\ filename doc = name f)
  \/ (ingested lower pdf docx pptx f = false
      /\ folder_step lower pdf docx pptx acc f = acc).
Proof.
  unfold folder_step, ingested, file_chunks, process_file.
  destruct (is_file f && str_in (lower (suffix f)) supported_suffixes);
    [|right; auto].
  destruct (extract_text lower pdf docx pptx f) as [tc | e];
    cbn [bind is_ok andb]; [left | right; auto].
  split; [reflexivity|]. eexists. split; reflexivity.
Qed.

(** The loop adds one document and its chunks for each file it keeps, in
    the order of the walk, and nothing for the others. *)
Lemma folder_loop (folder : list file_entry)
      (acc : list doc_info * list chunk_info) :
  exists docs,
    fold_left (folder_step lower pdf docx pptx) folder acc
    = (fst acc ++ docs,
       snd acc ++ flat_map (file_chunks lower pdf docx pptx)
                           (filter (ingested lower pdf docx pptx) folder))
    /\ map filename docs
       = map name (filter (ingested lower pdf docx pptx) folder).
Proof.
  revert acc. induction folder as [|f folder IH]; intros acc.
  - exists []. simpl. rewrite !app_nil_r. now destruct acc.
  - cbn [fold_left filter].
    destruct (folder_step_cases f acc)
      as [(Hk & doc & Estep & Hname) | (Hk & Estep)];
      rewrite Hk, Estep.
    + destruct (IH (fst acc ++ [doc],
                    snd acc ++ file_chunks lower pdf docx pptx f))
        as (docs & E & Hnames).
      exists (doc :: docs). rewrite E. cbn [fst snd flat_map map].
      rewrite Hname, Hnames, <- !app_assoc. split; reflexivity.
    + exact (IH acc).
Qed.

End IngestionFacts.

(** C8, as amended: ingestion keeps the regular files with a supported
    extension whose extraction succeeds and skips the others; it returns
    the number of kept files, records one document for each, holds exactly
    their chunks in the order of the walk, and, when there is a chunk, fits
    the index on the texts of exactly these chunks (the index is none when
    fitting raises).  When there is no chunk the index is not rebuilt: it
    stays what it was before. *)
Theorem process_folder_keeps_valid_files
        (lower : str -> str) (pdf docx pptx : str -> result text_content)
        (matrix : Type) (fit_transform : list str -> result matrix)
        (self : chatbot matrix) (folder : list file_entry) :
  fst (process_folder lower pdf docx pptx fit_transform self folder)
  = length (filter (ingested lower pdf docx pptx) folder)
  /\ map filename
         (documents
            (snd (process_folder lower pdf docx pptx fit_transform self folder)))
     = map name (filter (ingested lower pdf docx pptx) folder)
  /\ chunks (snd (process_folder lower pdf docx pptx fit_transform self folder))
     = flat_map (file_chunks lower pdf docx pptx)
                (filter (ingested lower pdf docx pptx) folder)
  /\ tfidf_matrix
       (snd (process_folder lower pdf docx pptx fit_transform self folder))
     = match flat_map (file_chunks lower pdf docx pptx)
                      (filter (ingested lower pdf docx pptx) folder) with
       | [] => tfidf_matrix self
       | cs => index_over fit_transform cs
       end.
Proof.
  unfold process_folder.
  destruct (folder_loop lower pdf docx pptx folder ([], []))
    as (docs & E & Hnames).
  rewrite E. cbn [fst snd app].
  set (cs := flat_map (file_chunks lower pdf docx pptx)
                      (filter (ingested lower pdf docx pptx) folder)).
  assert (Hlen : length docs
                 = length (filter (ingested lower pdf docx pptx) folder)).
  { rewrite <- (length_map filename docs), Hnames. apply length_map. }
  unfold _create_search_index, index_over. cbn [chunks documents].
  destruct cs as [|c cs'] eqn:Ecs; cbn [fst snd documents chunks tfidf_matrix].
  - auto.
  - destruct (fit_transform (map text (c :: cs')));
      cbn [documents chunks tfidf_matrix]; auto.
Qed.

(** The folder of the example: of the three documents one is corrupt; the
    count is 2 and the session holds the chunks of the two others. *)
Example process_folder_example :
  process_folder ascii_lower demo_extract_pdf demo_extract_docx
                 demo_extract_pptx demo_fit
                 (init (list str)) demo_folder
  = (2%nat,
     ChatbotState
       [DocInfo (lit "a.PDF") (lit "in/docs/a.PDF") (lit "PDF") 1 4;
        DocInfo (lit "b.docx") (lit "in/b.docx") (lit "Word Document") 1 4]
       [ChunkInfo (lit "Alpha report. Budget overview.") (lit "a.PDF") 0
                  (lit "PDF");
        ChunkInfo (lit "Minutes of the meeting.") (lit "b.docx") 0
                  (lit "Word Document")]
       (Some [lit "Alpha report. Budget overview.";
              lit "Minutes of the meeting."])).
Proof. vm_compute. reflexivity. Qed.

(** C8, where the claim fails: a session that holds the index of the
    example folder ingests a folder whose only document is corrupt.  The
    count is 0 and no chunk is held, yet the index is the one fitted on
    the two chunks of the earlier folder: it was not rebuilt, and it is
    not the index of the chunks of the processed files, of which there
    are none. *)
Lemma process_folder_keeps_earlier_index :
  fst (process_folder ascii_lower demo_extract_pdf demo_extract_docx
                      demo_extract_pptx demo_fit indexed_session
                      corrupt_folder) = 0%nat
  /\ chunks (snd (process_folder ascii_lower demo_extract_pdf
                                 demo_extract_docx demo_extract_pptx demo_fit
                                 indexed_session corrupt_folder)) = []
  /\ tfidf_matrix (snd (process_folder ascii_lower demo_extract_pdf
                                       demo_extract_docx demo_extract_pptx
                                       demo_fit indexed_session
                                       corrupt_folder))
     = Some [lit "Alpha report. Budget overview.";
             lit "Minutes of the meeting."]
  /\ tfidf_matrix (snd (process_folder ascii_lower demo_extract_pdf
                                       demo_extract_docx demo_extract_pptx
                                       demo_fit indexed_session
                                       corrupt_folder))
     <> index_over demo_fit
          (flat_map (file_chunks ascii_lower demo_extract_pdf
                                 demo_extract_docx demo_extract_pptx)
                    (filter (ingested ascii_lower demo_extract_pdf
                                      demo_extract_docx demo_extract_pptx)
                            corrupt_folder)).
Proof.
  split; [vm_compute; reflexivity|].
  split; [vm_compute; reflexivity|].
  split; [vm_compute; reflexivity|].
  vm_compute. discriminate.
Qed.

(* ===================================================================== *)
(** * Facts about the order of strings *)
(* ===================================================================== *)

Lemma ltb_irrefl (a : str) : ltb a a = false.
Proof.
  induction a as [|x a IH]; [reflexivity|].
  cbn [ltb]. rewrite N.ltb_irrefl, N.eqb_refl, IH. reflexivity.
Qed.

Lemma ltb_asym (a b : str) : ltb a b = true -> ltb b a = false.
Proof.
  revert b; induction a as [|x a IH]; intros [|y b]; cbn [ltb];
    try reflexivity; try discriminate.
  intros H.
  destruct (N.ltb_spec x y), (N.ltb_spec y x), (N.eqb_spec x y),
    (N.eqb_spec y x); cbn [orb andb] in *; try lia; try discriminate;
    try reflexivity.
  now apply IH.
Qed.

(** If [c < a] then every [b] is above [c] or below [a]. *)
Lemma ltb_cotrans (a b c : str) :
  ltb c a = true -> ltb c b = true \/ ltb b a = true.
Proof.
  revert a b; induction c as [|z c IH]; intros [|x a] [|y b]; cbn [ltb];
    try discriminate; auto.
  intros H.
  destruct (N.ltb_spec z x), (N.ltb_spec z y), (N.ltb_spec y x),
    (N.eqb_spec z x), (N.eqb_spec z y), (N.eqb_spec y x);
    cbn [orb andb] in *; try lia; auto; try discriminate.
Qed.

Lemma leb_total (a b : str) : leb a b = true \/ leb b a = true.
Proof.
  unfold leb. destruct (ltb b a) eqn:E; [right | left; reflexivity].
  now rewrite (ltb_asym b a E).
Qed.

Lemma leb_trans (a b c : str) :
  leb a b = true -> leb b c = true -> leb a c = true.
Proof.
  unfold leb. intros H1 H2.
  destruct (ltb c a) eqn:E; [|reflexivity].
  destruct (ltb_cotrans a b c E) as [H | H]; rewrite H in *; discriminate.
Qed.

Lemma eqb_eq (a b : str) : eqb a b = true <-> a = b.
Proof.
  unfold eqb. destruct (list_eq_dec N.eq_dec a b); split; congruence.
Qed.

(* ===================================================================== *)
(** * The timeline *)
(* ===================================================================== *)

Section TimelineFacts.

Variable json_loads : str -> result value.
Variable llm : nat -> prompt -> reply.

(** The loop collects the events of the chunks in chunk order and sends
    one request for each chunk. *)
Lemma collect_events_flattened (chunks : list str) (n : nat) :
  collect_events json_loads llm chunks n
  = (Ok (flattened_events json_loads llm n chunks),
     (n + length chunks)%nat).
Proof.
  revert n; induction chunks as [|chunk rest IH]; intros n.
  - cbn. now rewrite Nat.add_0_r.
  - cbn [collect_events flattened_events length].
    unfold bind_io at 1, catch, events_of_reply.
    unfold bind_io at 1.
    assert (Hn : snd (chat_json json_loads llm (TimelinePrompt chunk) n)
                 = S n).
    { unfold chat_json, bind_io, chat, lift.
      destruct (llm n (TimelinePrompt chunk)); reflexivity. }
    destruct (chat_json json_loads llm (TimelinePrompt chunk) n)
      as [[v | e] n'] eqn:E; cbn [fst snd] in *; subst n'.
    + unfold bind_io at 1, lift at 1.
      destruct (py_get v (lit "events") (VList [])) as [w | e];
        cbn [bind].
      * unfold lift, ret.
        destruct (py_iter w) as [l | e]; unfold bind_io; rewrite IH;
          cbn; repeat f_equal; lia.
      * unfold ret, bind_io. rewrite IH. cbn. repeat f_equal; lia.
    + unfold ret, bind_io. rewrite IH. cbn. repeat f_equal; lia.
Qed.

Lemma date_key_dated (event : value) :
  dated event = true -> date_key event = Ok (VStr (date_of event)).
Proof.
  unfold dated, date_of, date_string, date_key, py_get.
  destruct event as [| | | |l|items]; try discriminate.
  destruct (lookup (VStr (lit "date")) items) as [[]|];
    try discriminate; reflexivity.
Qed.

Lemma keys_of_dated (events : list value) :
  Forall (fun ev => dated ev = true) events ->
  map_result (fun x => bind (date_key x) (fun k => Ok (k, x))) events
  = Ok (map with_date_key events).
Proof.
  induction 1 as [|ev events Hev _ IH]; [reflexivity|].
  cbn [map_result map]. rewrite (date_key_dated ev Hev), IH. reflexivity.
Qed.

Lemma insert_keyed_dated (x : value) (l : list value) :
  insert_keyed (VStr (date_of x)) x (map with_date_key l)
  = Ok (map with_date_key (insert by_date x l)).
Proof.
  induction l as [|y l IH]; [reflexivity|].
  cbn [map insert_keyed insert with_date_key py_lt bind].
  unfold by_date at 1, leb.
  destruct (ltb (date_of y) (date_of x)); cbn [negb].
  - change (VStr (date_of y), y) with (with_date_key y).
    rewrite IH. reflexivity.
  - reflexivity.
Qed.

Lemma sort_keyed_dated (l : list value) :
  sort_keyed (map with_date_key l)
  = Ok (map with_date_key (stable_sort by_date l)).
Proof.
  induction l as [|x l IH]; [reflexivity|].
  cbn [map sort_keyed with_date_key]. rewrite IH. cbn [bind].
  apply insert_keyed_dated.
Qed.

(** On events with string dates, sorting with Python's [<] on the keys is
    the stable sort by the date strings. *)
Lemma sort_by_date (events : list value) :
  Forall (fun ev => dated ev = true) events ->
  sort_by date_key events = Ok (stable_sort by_date events).
Proof.
  intros H. unfold sort_by.
  rewrite (keys_of_dated events H). cbn [bind].
  rewrite sort_keyed_dated. cbn [bind].
  rewrite map_map. cbn [with_date_key snd]. now rewrite map_id.
Qed.

Lemma by_date_total (x y : value) :
  by_date x y = true \/ by_date y x = true.
Proof. apply leb_total. Qed.

Lemma by_date_trans (x y z : value) :
  by_date x y = true -> by_date y z = true -> by_date x z = true.
Proof. apply leb_trans. Qed.

Lemma same_date_before (d : str) (x y : value) :
  same_date d x = true -> same_date d y = true -> by_date x y = true.
Proof.
  unfold same_date, by_date, leb. rewrite !eqb_eq. intros -> ->.
  now rewrite ltb_irrefl.
Qed.

End TimelineFacts.

(** C7: when every event the replies hold is a dictionary whose date, if
    any, is a string, the timeline analysis returns the events of all
    chunks as one list, sorted in ascending lexicographic order of the raw
    date strings, events with the same date string in chunk order. *)
Theorem timeline_sorted_by_date_string
        (json_loads : str -> result value) (llm : nat -> prompt -> reply)
        (chunks : list str) (n : nat) :
  Forall (fun ev => dated ev = true)
         (flattened_events json_loads llm n chunks) ->
  exists timeline,
    fst (_timeline_analysis json_loads llm chunks n)
    = Ok (VDict [(key "analysis_type", VStr TIMELINE_DE_EVENTOS);
                 (key "timeline", VList timeline)])
    /\ Permutation timeline (flattened_events json_loads llm n chunks)
    /\ StronglySorted (fun x y => leb (date_of x) (date_of y) = true) timeline
    /\ (forall d,
          filter (same_date d) timeline
          = filter (same_date d) (flattened_events json_loads llm n chunks)).
Proof.
  intros H.
  exists (stable_sort by_date (flattened_events json_loads llm n chunks)).
  split; [|split; [|split]].
  - unfold _timeline_analysis, bind_io at 1.
    rewrite collect_events_flattened.
    unfold bind_io, lift. rewrite (sort_by_date _ H). reflexivity.
  - apply stable_sort_permutation.
  - apply (stable_sort_sorted value by_date by_date_total by_date_trans).
  - intros d. apply stable_sort_stable. apply same_date_before.
Qed.

(** A witness of [timeline_sorted_by_date_string], on the three chunks of
    the example. *)
Lemma timeline_sorted_by_date_string_witness :
  exists timeline,
    fst (_timeline_analysis demo_loads demo_llm demo_chunks 0%nat)
    = Ok (VDict [(key "analysis_type", VStr TIMELINE_DE_EVENTOS);
                 (key "timeline", VList timeline)])
    /\ StronglySorted (fun x y => leb (date_of x) (date_of y) = true) timeline.
Proof.
  assert (H : Forall (fun ev => dated ev = true)
                (flattened_events demo_loads demo_llm 0%nat demo_chunks))
    by (vm_compute; repeat constructor).
  destruct (timeline_sorted_by_date_string demo_loads demo_llm demo_chunks 0%nat H)
    as (timeline & E & _ & Hsorted & _).
  exists timeline. split; assumption.
Defined.

(** The example of the specification: events dated 2024-03-01, 2024-01-15
    and 2024-02-10, one from each chunk, come out in the order 2024-01-15,
    2024-02-10, 2024-03-01. *)
Example timeline_example :
  fst (_timeline_analysis demo_loads demo_llm demo_chunks 0%nat)
  = Ok (VDict [(key "analysis_type", VStr TIMELINE_DE_EVENTOS);
               (key "timeline",
                VList [demo_event (lit "2024-01-15") (lit "began");
                       demo_event (lit "2024-02-10") (lit "review");
                       demo_event (lit "2024-03-01") (lit "signed")])]).
Proof. vm_compute. reflexivity. Qed.

(** The order is that of the strings, not of the calendar: "10/01/2024"
    sorts before "2/01/2024". *)
Example lexicographic_not_calendar :
  stable_sort by_date [demo_event (lit "2/01/2024") (lit "second");
                       demo_event (lit "10/01/2024") (lit "tenth")]
  = [demo_event (lit "10/01/2024") (lit "tenth");
     demo_event (lit "2/01/2024") (lit "second")].
Proof. vm_compute. reflexivity. Qed.

(* ===================================================================== *)
(** * The executive summary *)
(* ===================================================================== *)

Section SummaryFacts.

Variable json_loads : str -> result value.
Variable llm : nat -> prompt -> reply.

Lemma extend_from_record (acc : list value) (summary : value) (field : str) :
  summary_record summary = true ->
  In field [lit "main_points"; lit "important_data"; lit "conclusions"] ->
  extend_from acc summary field = Ok (acc ++ field_elements field summary).
Proof.
  intros Hrec Hin. destruct summary as [| | | |l|items]; try discriminate.
  unfold summary_record in Hrec. rewrite forallb_forall in Hrec.
  specialize (Hrec field Hin).
  unfold extend_from, py_get, field_elements.
  destruct (lookup (VStr field) items) as [[]|]; try discriminate;
    cbn [bind py_iter]; [reflexivity|].
  now rewrite app_nil_r.
Qed.

(** The loop over the records gathers each field, record after record. *)
Lemma collect_summaries_records (summaries : list value)
      (all_points all_data all_conclusions : list value) :
  Forall (fun s => summary_record s = true) summaries ->
  collect_summaries summaries all_points all_data all_conclusions
  = Ok (all_points ++ collected (lit "main_points") summaries,
        all_data ++ collected (lit "important_data") summaries,
        all_conclusions ++ collected (lit "conclusions") summaries).
Proof.
  intros H. revert all_points all_data all_conclusions.
  induction H as [|s summaries Hs _ IH]; intros p d c.
  - cbn. now rewrite !app_nil_r.
  - cbn [collect_summaries].
    rewrite !(extend_from_record _ s _ Hs) by (simpl; auto).
    cbn [bind]. rewrite IH. unfold collected. cbn [flat_map].
    now rewrite !app_assoc.
Qed.

(** With records, the consolidation returns a value whatever the language
    model does. *)
Lemma consolidate_records_returns (summaries : list value) (n : nat) :
  Forall (fun s => summary_record s = true) summaries ->
  exists v, fst (_consolidate_summaries json_loads llm summaries n) = Ok v.
Proof.
  intros H. unfold _consolidate_summaries, bind_io, lift.
  rewrite (collect_summaries_records _ [] [] [] H). cbn [app].
  unfold catch.
  destruct (chat_json json_loads llm _ n) as [[v | e] n'].
  - destruct (py_setitem v (lit "analysis_type") (VStr RESUMO_EXECUTIVO));
      cbn; eauto.
  - cbn; eauto.
Qed.

End SummaryFacts.

(** C5: for per-chunk records, when the consolidation request fails, the
    consolidation returns the default result: the first 5 collected main
    points as key findings, the first 5 collected data items as important
    metrics, the first 3 collected conclusions as main conclusions, and the
    placeholder as summary. *)
Theorem consolidation_failure_default
        (json_loads : str -> result value) (llm : nat -> prompt -> reply)
        (summaries : list value) (n : nat) (e : exn) :
  Forall (fun s => summary_record s = true) summaries ->
  fst (chat_json json_loads llm
         (ConsolidationPrompt (collected (lit "main_points") summaries)
                              (collected (lit "important_data") summaries)
                              (collected (lit "conclusions") summaries)) n)
  = Raise e ->
  fst (_consolidate_summaries json_loads llm summaries n)
  = Ok (VDict
          [(key "analysis_type", VStr RESUMO_EXECUTIVO);
           (key "executive_summary", VStr placeholder_summary);
           (key "key_findings",
            VList (firstn 5 (collected (lit "main_points") summaries)));
           (key "important_metrics",
            VList (firstn 5 (collected (lit "important_data") summaries)));
           (key "recommendations", VList []);
           (key "main_conclusions",
            VList (firstn 3 (collected (lit "conclusions") summaries)))]).
Proof.
  intros Hrec Hfail.
  unfold _consolidate_summaries, bind_io at 1, lift at 1.
  rewrite (collect_summaries_records _ [] [] [] Hrec). cbn [app].
  unfold catch, bind_io.
  destruct (chat_json json_loads llm _ n) as [[v | e'] n'];
    cbn [fst] in Hfail; [discriminate|].
  reflexivity.
Qed.

(** A witness of [consolidation_failure_default]: three records with one
    main point each and a language model that cannot be reached; the key
    findings are the three points in order. *)
Lemma consolidation_failure_default_witness :
  fst (_consolidate_summaries records_loads unreachable_llm demo_records 0%nat)
  = Ok (VDict
          [(key "analysis_type", VStr RESUMO_EXECUTIVO);
           (key "executive_summary", VStr placeholder_summary);
           (key "key_findings",
            VList [VStr (lit "p1"); VStr (lit "p2"); VStr (lit "p3")]);
           (key "important_metrics", VList []);
           (key "recommendations", VList []);
           (key "main_conclusions", VList [])]).
Proof.
  apply (consolidation_failure_default records_loads unreachable_llm
           demo_records 0%nat ServiceError).
  - repeat constructor.
  - reflexivity.
Defined.

(** The whole operation on three chunks: the three requests for the chunks
    are answered, the consolidation request fails. *)
Example executive_summary_example :
  fst (_executive_summary records_loads three_replies_llm demo_chunks 0%nat)
  = Ok (VDict
          [(key "analysis_type", VStr RESUMO_EXECUTIVO);
           (key "executive_summary", VStr placeholder_summary);
           (key "key_findings",
            VList [VStr (lit "p1"); VStr (lit "p2"); VStr (lit "p3")]);
           (key "important_metrics", VList []);
           (key "recommendations", VList []);
           (key "main_conclusions", VList [])]).
Proof. vm_compute. reflexivity. Qed.

(** More than five points are cut to the first five. *)
Example consolidation_keeps_five_points :
  fst (_consolidate_summaries records_loads unreachable_llm
         (demo_records ++ demo_records) 0%nat)
  = Ok (VDict
          [(key "analysis_type", VStr RESUMO_EXECUTIVO);
           (key "executive_summary", VStr placeholder_summary);
           (key "key_findings",
            VList [VStr (lit "p1"); VStr (lit "p2"); VStr (lit "p3");
                   VStr (lit "p1"); VStr (lit "p2")]);
           (key "important_metrics", VList []);
           (key "recommendations", VList []);
           (key "main_conclusions", VList [])]).
Proof. vm_compute. reflexivity. Qed.

(* ===================================================================== *)
(** * Exceptions at the boundary of the analyzer *)
(* ===================================================================== *)

(** C2, on the code: the timeline analysis of a one-chunk document, with a
    reply that is valid JSON and holds an event whose date is [null] next
    to an event with a date string, raises [TypeError] out of
    [perform_detailed_analysis].  The events are sorted after the [try] of
    the loop, and [sort] compares the key [None] with a string. *)
Theorem timeline_null_date_raises :
  create_chunks_default short_document
  = [lit "Kickoff was in March. Delivery followed."]
  /\ fst (perform_detailed_analysis ascii_lower null_date_loads no_message
            answering_llm short_document TIMELINE_DE_EVENTOS 0%nat)
     = Raise TypeError.
Proof. vm_compute. split; reflexivity. Qed.

(** The same with the data extraction: a category that holds a list makes
    [set] raise after the loop. *)
Example data_extraction_unhashable_raises :
  fst (perform_detailed_analysis ascii_lower nested_dates_loads no_message
         answering_llm short_document EXTRACAO_DE_DADOS 0%nat)
  = Raise TypeError.
Proof. vm_compute. reflexivity. Qed.

(** And with the executive summary: a per-chunk reply that is an array has
    no method [get] when the summaries are consolidated. *)
Example executive_summary_array_raises :
  fst (perform_detailed_analysis ascii_lower array_summary_loads no_message
         answering_llm short_document RESUMO_EXECUTIVO 0%nat)
  = Raise AttributeError.
Proof. vm_compute. reflexivity. Qed.

Section BoundaryFacts.

Variable lower : str -> str.
Variable json_loads : str -> result value.
Variable str_exn : exn -> str.
Variable llm : nat -> prompt -> reply.

Lemma catch_ret_returns {X : Type} (c : io X) (h : exn -> X) (n : nat) :
  exists x, fst (catch c (fun e => ret (h e)) n) = Ok x.
Proof.
  unfold catch, ret. destruct (c n) as [[x | e] n']; cbn; eauto.
Qed.

(** The topic analysis and the general analysis run inside one [try]:
    they return a value whatever the language model replies. *)
Lemma topic_analysis_returns (chunks : list str) (n : nat) :
  exists v,
    fst (_topic_analysis lower json_loads str_exn llm chunks n) = Ok v.
Proof. apply catch_ret_returns. Qed.

Lemma general_analysis_returns (chunks : list str) (analysis_type : str)
      (n : nat) :
  exists v,
    fst (_general_analysis str_exn llm chunks analysis_type n) = Ok v.
Proof. apply catch_ret_returns. Qed.

(** The clause analysis does all its work on a reply inside the [try] of
    the loop: it returns a value whatever the language model replies. *)
Lemma analyze_clauses_returns (chunks : list str) (i n : nat) :
  exists l, fst (analyze_clauses json_loads llm i chunks n) = Ok l.
Proof.
  revert i n; induction chunks as [|chunk rest IH]; intros i n.
  - now exists [].
  - cbn [analyze_clauses]. unfold bind_io at 1.
    match goal with |- context [catch ?c ?h n] =>
      destruct (catch_ret_returns c (fun _ => []) n) as [found E];
      destruct (catch c h n) as [[found' | e] n'] eqn:Ec
    end; cbn [fst] in E; [|discriminate].
    unfold bind_io.
    destruct (IH (S i) n') as [l El].
    destruct (analyze_clauses json_loads llm (S i) rest n')
      as [[l' | e] n'']; cbn [fst] in El; [|discriminate].
    unfold ret. cbn. eauto.
Qed.

Lemma clause_analysis_returns (chunks : list str) (n : nat) :
  exists v, fst (_clause_analysis json_loads llm chunks n) = Ok v.
Proof.
  unfold _clause_analysis, bind_io.
  destruct (analyze_clauses_returns chunks 0 n) as [l E].
  destruct (analyze_clauses json_loads llm 0 chunks n) as [[l' | e] n'];
    cbn [fst] in E; [|discriminate].
  unfold ret. cbn. eauto.
Qed.

(** When no request yields a parsed reply, the three other analyses
    return their defaults. *)
Section NoReply.
Hypothesis no_reply :
  forall p n, exists e, fst (chat_json json_loads llm p n) = Raise e.

Lemma summarize_chunks_fallbacks (chunks : list str) (i n : nat) :
  exists summaries,
    fst (summarize_chunks json_loads llm i chunks n) = Ok summaries
    /\ Forall (fun s => summary_record s = true) summaries.
Proof.
  revert i n; induction chunks as [|chunk rest IH]; intros i n.
  - exists []. split; [reflexivity | constructor].
  - cbn [summarize_chunks]. unfold bind_io at 1, catch.
    destruct (no_reply (ExecutiveChunkPrompt (i + 1) chunk) n) as [e E].
    destruct (chat_json json_loads llm (ExecutiveChunkPrompt (i + 1) chunk) n)
      as [[v | e'] n']; cbn [fst] in E; [discriminate|].
    unfold ret at 1. unfold bind_io.
    destruct (IH (S i) n') as (ss & Es & Hss).
    destruct (summarize_chunks json_loads llm (S i) rest n')
      as [[ss' | e''] n'']; cbn [fst] in Es; [|discriminate].
    injection Es as ->.
    exists (summary_fallback i :: ss). split; [reflexivity|].
    constructor; [reflexivity | exact Hss].
Qed.

Lemma executive_summary_returns (chunks : list str) (n : nat) :
  exists v, fst (_executive_summary json_loads llm chunks n) = Ok v.
Proof.
  unfold _executive_summary, bind_io.
  destruct (summarize_chunks_fallbacks chunks 0 n) as (ss & E & Hss).
  destruct (summarize_chunks json_loads llm 0 chunks n)
    as [[ss' | e] n']; cbn [fst] in E; [|discriminate].
  injection E as ->.
  now apply consolidate_records_returns.
Qed.

Lemma extract_chunks_unchanged (chunks : list str)
      (extracted_data : list (str * list value)) (n : nat) :
  fst (extract_chunks json_loads llm chunks extracted_data n)
  = Ok extracted_data.
Proof.
  revert n; induction chunks as [|chunk rest IH]; intros n;
    [reflexivity|].
  cbn [extract_chunks]. unfold bind_io at 1, catch, bind_io at 1.
  destruct (no_reply (DataExtractionPrompt chunk) n) as [e E].
  destruct (chat_json json_loads llm (DataExtractionPrompt chunk) n)
    as [[v | e'] n']; cbn [fst] in E; [discriminate|].
  unfold ret at 1. apply IH.
Qed.

Lemma data_extraction_returns (chunks : list str) (n : nat) :
  exists v, fst (_data_extraction json_loads llm chunks n) = Ok v.
Proof.
  unfold _data_extraction, bind_io at 1.
  pose proof (extract_chunks_unchanged chunks
                (map (fun c => (c, [])) data_categories) n) as E.
  destruct (extract_chunks json_loads llm chunks _ n) as [[d | e] n'];
    cbn [fst] in E; [|discriminate].
  injection E as ->. cbn. eauto.
Qed.

Lemma flattened_events_none (chunks : list str) (n : nat) :
  flattened_events json_loads llm n chunks = [].
Proof.
  revert n; induction chunks as [|chunk rest IH]; intros n;
    [reflexivity|].
  cbn [flattened_events]. rewrite IH. unfold events_of_reply.
  destruct (no_reply (TimelinePrompt chunk) n) as [e E].
  now rewrite E.
Qed.

Lemma timeline_analysis_returns (chunks : list str) (n : nat) :
  exists v, fst (_timeline_analysis json_loads llm chunks n) = Ok v.
Proof.
  unfold _timeline_analysis, bind_io at 1.
  rewrite collect_events_flattened, flattened_events_none.
  cbn. eauto.
Qed.

(** X12, what the code does guarantee: when the language model cannot be
    reached, or none of its replies parses, every kind of analysis
    returns a value. *)
Lemma request_failures_are_absorbed (tc : text_content)
      (analysis_type : str) (n : nat) :
  exists v,
    fst (perform_detailed_analysis lower json_loads str_exn llm tc
           analysis_type n) = Ok v.
Proof.
  unfold perform_detailed_analysis.
  repeat match goal with
         | |- context [if ?b then _ else _] => destruct b
         end.
  - apply executive_summary_returns.
  - apply topic_analysis_returns.
  - apply data_extraction_returns.
  - apply clause_analysis_returns.
  - apply timeline_analysis_returns.
  - apply general_analysis_returns.
Qed.
End NoReply.

End BoundaryFacts.

(** An unreachable language model gives an error-tagged result only for the
    topic analysis and the general analysis; the timeline, for one, is
    returned empty and untagged. *)
Example unreachable_topic_analysis_tagged :
  exists v,
    fst (perform_detailed_analysis ascii_lower demo_loads no_message
           unreachable_llm short_document ANALISE_POR_TOPICOS 0%nat) = Ok v
    /\ error_tagged v = true.
Proof. eexists. split; vm_compute; reflexivity. Qed.

Example unreachable_timeline_untagged :
  fst (perform_detailed_analysis ascii_lower demo_loads no_message
         unreachable_llm short_document TIMELINE_DE_EVENTOS 0%nat)
  = Ok (VDict [(key "analysis_type", VStr TIMELINE_DE_EVENTOS);
               (key "timeline", VList [])]).
Proof. vm_compute. reflexivity. Qed.

(* ===================================================================== *)
(** * Further properties of the chunker *)
(* ===================================================================== *)

Section ChunkerShape.

Variable max_chunk_size : Z.

Lemma pack_from_empty (s : str) (rest : list str) :
  pack max_chunk_size [] (s :: rest) = pack max_chunk_size [s] rest.
Proof.
  cbn [pack close_group app].
  now destruct (Z.of_nat (length (render [] ++ s)) <=? max_chunk_size)%Z.
Qed.

(** From a group that is being filled, [pack] first completes that group;
    every later group starts with a sentence that did not fit. *)
Lemma pack_sealed_when_full (sentences : list str) (g : list str) :
  g <> [] ->
  exists more rest,
    pack max_chunk_size g sentences = (g ++ more) :: rest
    /\ groups_sealed_when_full max_chunk_size ((g ++ more) :: rest).
Proof.
  revert g; induction sentences as [|s sentences IH]; intros g Hg.
  - exists [], []. rewrite app_nil_r. destruct g; [congruence|].
    split; [reflexivity | exact I].
  - cbn [pack].
    destruct (Z.leb_spec (Z.of_nat (length (render g ++ s))) max_chunk_size)
      as [Hfit | Hover].
    + destruct (IH (g ++ [s])) as (more & rest & E & Hs);
        [now destruct g|].
      exists (s :: more), rest. rewrite <- app_assoc in E, Hs.
      split; assumption.
    + destruct (IH [s]) as (more & rest & E & Hs); [discriminate|].
      exists [], (([s] ++ more) :: rest). rewrite app_nil_r.
      destruct g as [|a g]; [congruence|].
      cbn [close_group app]. rewrite E. split; [reflexivity|].
      cbn [groups_sealed_when_full]. split; [|exact Hs].
      exists s. split; [reflexivity | exact Hover].
Qed.

Lemma pack_groups_sealed (sentences : list str) :
  groups_sealed_when_full max_chunk_size
    (pack max_chunk_size [] sentences).
Proof.
  destruct sentences as [|s rest]; [exact I|].
  rewrite pack_from_empty.
  destruct (pack_sealed_when_full rest [s]) as (more & tl & -> & H);
    [discriminate | exact H].
Qed.

Lemma all_fit_snoc (g more : list str) (s : str) :
  all_fit max_chunk_size g more = true ->
  (Z.of_nat (length (render (g ++ more) ++ s)) <=? max_chunk_size)%Z = true ->
  all_fit max_chunk_size g (more ++ [s]) = true.
Proof.
  revert g; induction more as [|t more IH]; intros g Hfit Hs.
  - cbn [app all_fit]. rewrite app_nil_r in Hs. now rewrite Hs.
  - cbn [app all_fit] in *. apply andb_true_iff in Hfit as [Ht Hmore].
    rewrite Ht. cbn [andb]. apply IH; [exact Hmore|].
    now rewrite <- app_assoc.
Qed.

(** A run of sentences that all fit is taken into the group without a
    break. *)
Lemma pack_all_fit (g more rest : list str) :
  all_fit max_chunk_size g more = true ->
  pack max_chunk_size g (more ++ rest)
  = pack max_chunk_size (g ++ more) rest.
Proof.
  revert g; induction more as [|t more IH]; intros g Hfit.
  - now rewrite app_nil_r.
  - cbn [app all_fit pack] in *. apply andb_true_iff in Hfit as [Ht Hmore].
    rewrite Ht, (IH _ Hmore). now rewrite <- app_assoc.
Qed.

Lemma pack_self_contained (sentences : list str) (s : str) (more : list str) :
  all_fit max_chunk_size [s] more = true ->
  Forall (self_contained max_chunk_size)
         (pack max_chunk_size (s :: more) sentences).
Proof.
  revert s more; induction sentences as [|t sentences IH]; intros s more Hfit.
  - cbn. repeat constructor. exact Hfit.
  - cbn [pack].
    destruct (Z.of_nat (length (render (s :: more) ++ t)) <=? max_chunk_size)%Z
      eqn:Et.
    + change ((s :: more) ++ [t]) with (s :: (more ++ [t])).
      apply IH. now apply all_fit_snoc.
    + cbn [close_group app]. constructor; [exact Hfit|].
      now apply IH.
Qed.

Lemma pack_groups_self_contained (sentences : list str) :
  Forall (self_contained max_chunk_size)
         (pack max_chunk_size [] sentences).
Proof.
  destruct sentences as [|s rest]; [constructor|].
  rewrite pack_from_empty. now apply pack_self_contained.
Qed.

Lemma pack_of_self_contained (g : list str) :
  self_contained max_chunk_size g -> pack max_chunk_size [] g = [g].
Proof.
  destruct g as [|s more]; [contradiction|]. intros H.
  rewrite pack_from_empty.
  rewrite <- (app_nil_r more) at 1.
  rewrite (pack_all_fit [s] more [] H). reflexivity.
Qed.

Lemma join_forall (P : char -> Prop) (sep : str) (g : list str) :
  Forall P sep -> Forall (Forall P) g -> Forall P (join sep g).
Proof.
  intros Hsep Hg; induction Hg as [|s g Hs Hg IH]; [constructor|].
  destruct g as [|s2 g]; [exact Hs|].
  change (join sep (s :: s2 :: g)) with (s ++ sep ++ join sep (s2 :: g)).
  apply Forall_app; split; [exact Hs|].
  apply Forall_app; split; [exact Hsep | exact IH].
Qed.

Lemma length_concat_groups (groups : list (list str)) :
  Forall (fun g => g <> []) groups ->
  (length groups <= length (concat groups))%nat.
Proof.
  induction 1 as [|g groups Hg _ IH]; [reflexivity|].
  cbn [concat length]. rewrite length_app.
  destruct g; [congruence|]. cbn [length]. lia.
Qed.

End ChunkerShape.

(** X1: a chunk is at most one character longer than the size the loop
    runs with, unless it is one sentence, followed by a period, that is
    itself longer than that size. *)
Theorem create_chunks_length_bound (tc : text_content) (max_chunk_size : Z) :
  Forall (fun c =>
            (Z.of_nat (length c)
             <= adjusted_chunk_size (metadata_of tc) max_chunk_size + 1)%Z
            \/ exists s, c = s ++ [dot] /\ clean_sentence s
                         /\ (adjusted_chunk_size (metadata_of tc) max_chunk_size
                             < Z.of_nat (length s))%Z)
         (create_chunks tc max_chunk_size).
Proof. unfold create_chunks. apply chunk_length_bound. Qed.

(** X2: a chunk starts with a character that is not white space and holds
    neither an exclamation mark nor a question mark: every terminator of
    the text is replaced by a period or dropped. *)
Theorem create_chunks_punctuation (tc : text_content) (max_chunk_size : Z) :
  Forall (fun c =>
            starts_solid c
            /\ Forall (fun ch => ch <> exclamation /\ ch <> question_mark) c)
         (create_chunks tc max_chunk_size).
Proof.
  unfold create_chunks.
  destruct (chunk_sentences_groups
              (adjusted_chunk_size (metadata_of tc) max_chunk_size)
              (full_text tc)) as (groups & -> & _ & Hn & Hc).
  apply Forall_map, Forall_forall. intros g Hg.
  rewrite Forall_forall in Hn, Hc.
  specialize (Hn g Hg). specialize (Hc g Hg).
  split.
  - destruct g as [|s g]; [congruence|]. inversion Hc; subst.
    destruct (join_starts_solid s g) as (c & t & E & Hsolid);
      [now destruct H1|].
    rewrite E. now exists c, (t ++ [dot]).
  - apply Forall_app; split; [|repeat constructor; discriminate].
    apply join_forall; [repeat constructor; discriminate|].
    eapply Forall_impl; [|exact Hc].
    intros s (_ & _ & Hterm). eapply Forall_impl; [|exact Hterm].
    intros ch Hch. unfold exclamation, question_mark.
    split; intros ->; discriminate.
Qed.

(** X3: there are at most as many chunks as sentences, and there is no
    chunk exactly when the text has no sentence. *)
Theorem create_chunks_count (tc : text_content) (max_chunk_size : Z) :
  (length (create_chunks tc max_chunk_size)
   <= length (sentences_of (full_text tc)))%nat
  /\ (create_chunks tc max_chunk_size = []
      <-> sentences_of (full_text tc) = []).
Proof.
  unfold create_chunks.
  destruct (chunk_sentences_groups
              (adjusted_chunk_size (metadata_of tc) max_chunk_size)
              (full_text tc)) as (groups & -> & <- & Hn & _).
  rewrite length_map. split; [now apply length_concat_groups|].
  split.
  - intros E. apply map_eq_nil in E. now subst.
  - intros E. destruct groups as [|g groups]; [reflexivity|].
    inversion Hn; subst. destruct g; [congruence | discriminate].
Qed.

(** X4: the loop seals a chunk only when the next sentence does not fit:
    for two chunks that follow one another, the first chunk, one space and
    the first sentence of the second are longer than the size. *)
Theorem create_chunks_sealed_when_full
        (tc : text_content) (max_chunk_size : Z) :
  sealed_when_full (adjusted_chunk_size (metadata_of tc) max_chunk_size)
                   (create_chunks tc max_chunk_size).
Proof.
  unfold create_chunks.
  set (m := adjusted_chunk_size (metadata_of tc) max_chunk_size).
  rewrite chunk_sentences_pack.
  pose proof (pack_groups_sealed m (sentences_of (full_text tc))) as Hs.
  pose proof (pack_not_nil m (sentences_of (full_text tc)) []) as Hn.
  assert (Hc : Forall (Forall clean_sentence)
                 (pack m [] (sentences_of (full_text tc))))
    by (apply pack_members; [constructor | apply sentences_of_clean]).
  induction (pack m [] (sentences_of (full_text tc))) as [|g1 groups IH];
    [exact I|].
  destruct groups as [|g2 groups]; [exact I|].
  cbn [map]. cbn [map] in IH.
  destruct Hs as ((s & Hhd & Hlen) & Hs).
  inversion Hn as [|? ? Hg1 Hn']; subst.
  inversion Hc as [|? ? Hc1 Hc']; subst.
  inversion Hn' as [|? ? Hg2 _]; subst.
  inversion Hc' as [|? ? Hc2 _]; subst.
  cbn [sealed_when_full]. split; [|now apply IH].
  exists s. split.
  - rewrite (chunk_of_join g2 Hg2 (clean_starts_solid g2 Hc2)).
    now rewrite sentences_of_join.
  - rewrite (chunk_of_join g1 Hg1 (clean_starts_solid g1 Hc1)).
    destruct g1 as [|a g1]; [congruence|].
    rewrite render_join in Hlen.
    rewrite !length_app in *. cbn [length] in *. lia.
Qed.

(** X5: chunking is stable: a chunk it produced, chunked again as the text
    of a document with the same metadata and the same size, gives that
    chunk and nothing else. *)
Theorem create_chunks_stable (tc : text_content) (max_chunk_size : Z) :
  Forall (fun c =>
            create_chunks (TextContent c (metadata_of tc)) max_chunk_size
            = [c])
         (create_chunks tc max_chunk_size).
Proof.
  unfold create_chunks. cbn [full_text metadata_of].
  set (m := adjusted_chunk_size (metadata_of tc) max_chunk_size).
  rewrite chunk_sentences_pack.
  pose proof (pack_groups_self_contained m (sentences_of (full_text tc)))
    as Hs.
  pose proof (pack_not_nil m (sentences_of (full_text tc)) []) as Hn.
  assert (Hc : Forall (Forall clean_sentence)
                 (pack m [] (sentences_of (full_text tc))))
    by (apply pack_members; [constructor | apply sentences_of_clean]).
  apply Forall_map, Forall_forall. intros g Hg.
  rewrite Forall_forall in Hs, Hn, Hc.
  rewrite (chunk_of_join g (Hn g Hg) (clean_starts_solid g (Hc g Hg))).
  rewrite chunk_sentences_pack, sentences_of_join by auto.
  rewrite (pack_of_self_contained m g (Hs g Hg)). cbn [map].
  now rewrite (chunk_of_join g (Hn g Hg) (clean_starts_solid g (Hc g Hg))).
Qed.

(* ===================================================================== *)
(** * Further properties of the keyword search and of ingestion *)
(* ===================================================================== *)

Lemma slice_to_incl {X : Type} (k : Z) (l : list X) (x : X) :
  In x (slice_to k l) -> In x l.
Proof.
  assert (Hfirst : forall n, In x (firstn n l) -> In x l).
  { intros n H. rewrite <- (firstn_skipn n l). apply in_or_app. now left. }
  unfold slice_to. destruct (k <? 0)%Z; apply Hfirst.
Qed.

Lemma match_fraction_le_1 (lower : str -> str) (words : list str)
      (c : chunk_info) :
  words <> [] -> (match_fraction lower words c <= 1)%Q.
Proof.
  intros Hw.
  assert (Hn : length words <> 0%nat) by (destruct words; simpl; congruence).
  unfold match_fraction. rewrite Qred_correct.
  unfold Qle; simpl. rewrite (Zpos_of_nat _ Hn).
  pose proof (found_words_le lower words c). lia.
Qed.

(** The keyword search returns chunks of the session with a positive
    similarity. *)
Lemma keyword_search_positive
      (lower : str -> str) (matrix : Type) (self : chatbot matrix)
      (query : str) (top_k : Z) :
  exists found,
    _keyword_search lower self query top_k = Ok found
    /\ Forall (fun r => In (chunk r) (chunks self) /\ (0 < similarity r)%Q)
              found.
Proof.
  unfold _keyword_search.
  destruct (split (lower query)) as [|w ws] eqn:Ew.
  - rewrite score_chunks_no_words. cbn [bind stable_sort fold_right].
    exists (slice_to top_k []). split; [reflexivity|].
    apply Forall_forall. intros r Hr. apply slice_to_incl in Hr. destruct Hr.
  - assert (Hw : w :: ws <> []) by discriminate.
    rewrite (score_chunks_candidates lower (w :: ws) (chunks self) Hw).
    cbn [bind]. eexists. split; [reflexivity|].
    apply Forall_forall. intros r Hr. apply slice_to_incl in Hr.
    apply (Permutation_in _ (stable_sort_permutation _ by_similarity_desc _))
      in Hr.
    apply in_candidates in Hr as (Hin & Hsim & Hpos).
    split; [exact Hin|].
    rewrite Hsim. unfold match_fraction. rewrite Qred_correct.
    unfold Qlt; cbn [Qnum Qden]. lia.
Qed.

(** X6: the keyword search never raises, whatever the query and the
    top-k: it returns chunks of the session, each with a similarity above
    0 and at most 1. *)
Theorem keyword_search_returns
        (lower : str -> str) (matrix : Type) (self : chatbot matrix)
        (query : str) (top_k : Z) :
  exists found,
    _keyword_search lower self query top_k = Ok found
    /\ Forall (fun r => In (chunk r) (chunks self)
                        /\ (0 < similarity r)%Q /\ (similarity r <= 1)%Q)
              found.
Proof.
  unfold _keyword_search.
  destruct (split (lower query)) as [|w ws] eqn:Ew.
  - rewrite score_chunks_no_words. cbn [bind stable_sort fold_right].
    exists (slice_to top_k []). split; [reflexivity|].
    apply Forall_forall. intros r Hr. apply slice_to_incl in Hr. destruct Hr.
  - assert (Hw : w :: ws <> []) by discriminate.
    rewrite (score_chunks_candidates lower (w :: ws) (chunks self) Hw).
    cbn [bind]. eexists. split; [reflexivity|].
    apply Forall_forall. intros r Hr. apply slice_to_incl in Hr.
    apply (Permutation_in _ (stable_sort_permutation _ by_similarity_desc _))
      in Hr.
    apply in_candidates in Hr as (Hin & Hsim & Hpos).
    repeat split; [exact Hin | | ].
    + rewrite Hsim. unfold match_fraction. rewrite Qred_correct.
      unfold Qlt; cbn [Qnum Qden]. lia.
    + rewrite Hsim. now apply match_fraction_le_1.
Qed.

Lemma enumerate_from_length {X : Type} (i : nat) (l : list X) :
  length (enumerate_from i l) = length l.
Proof.
  revert i; induction l as [|x l IH]; intros i; simpl; [reflexivity|].
  now rewrite IH.
Qed.

Lemma enumerate_from_bounds {X : Type} (i : nat) (l : list X) :
  Forall (fun ix => (i <= fst ix < i + length l)%nat) (enumerate_from i l).
Proof.
  revert i; induction l as [|x l IH]; intros i; simpl; constructor.
  - simpl; lia.
  - eapply Forall_impl; [|apply (IH (S i))]. intros ix H; simpl in *; lia.
Qed.

Lemma sum_app (a b : list nat) : sum (a ++ b) = (sum a + sum b)%nat.
Proof.
  unfold sum. induction a as [|x a IH]; simpl; [reflexivity|].
  rewrite IH. lia.
Qed.

Lemma chunk_belongs_more (docs more : list doc_info) (c : chunk_info) :
  chunk_belongs docs c -> chunk_belongs (docs ++ more) c.
Proof.
  intros (d & Hin & H). exists d. split; [|exact H].
  apply in_or_app. now left.
Qed.

Section IngestionInvariant.

Variable lower : str -> str.
Variables pdf docx pptx : str -> result text_content.

(** One iteration keeps the documents and the chunks in step. *)
Lemma folder_step_linked (f : file_entry)
      (acc : list doc_info * list chunk_info) :
  sum (map chunk_count (fst acc)) = length (snd acc) ->
  Forall (chunk_belongs (fst acc)) (snd acc) ->
  sum (map chunk_count (fst (folder_step lower pdf docx pptx acc f)))
  = length (snd (folder_step lower pdf docx pptx acc f))
  /\ Forall (chunk_belongs (fst (folder_step lower pdf docx pptx acc f)))
            (snd (folder_step lower pdf docx pptx acc f)).
Proof.
  intros Hsum Hall. unfold folder_step, process_file.
  destruct (is_file f && str_in (lower (suffix f)) supported_suffixes);
    [|auto].
  destruct (extract_text lower pdf docx pptx f) as [tc | e];
    cbn [bind]; [|auto].
  cbn [fst snd]. split.
  - rewrite map_app, sum_app, length_app, length_map, enumerate_from_length.
    cbn. lia.
  - apply Forall_app; split.
    + eapply Forall_impl; [|exact Hall].
      intros c. apply chunk_belongs_more.
    + apply Forall_map.
      eapply Forall_impl; [|apply (enumerate_from_bounds 0)].
      intros ic Hic. eexists. split; [apply in_or_app; right; left; reflexivity|].
      cbn. cbn in Hic. repeat split; lia.
Qed.

Lemma folder_loop_linked (folder : list file_entry)
      (acc : list doc_info * list chunk_info) :
  sum (map chunk_count (fst acc)) = length (snd acc) ->
  Forall (chunk_belongs (fst acc)) (snd acc) ->
  sum (map chunk_count
         (fst (fold_left (folder_step lower pdf docx pptx) folder acc)))
  = length (snd (fold_left (folder_step lower pdf docx pptx) folder acc))
  /\ Forall (chunk_belongs
               (fst (fold_left (folder_step lower pdf docx pptx) folder acc)))
            (snd (fold_left (folder_step lower pdf docx pptx) folder acc)).
Proof.
  revert acc; induction folder as [|f folder IH]; intros acc Hsum Hall.
  - auto.
  - cbn [fold_left].
    destruct (folder_step_linked f acc Hsum Hall) as [Hsum' Hall'].
    now apply IH.
Qed.

End IngestionInvariant.

(** X7: after ingestion the documents and the chunks of the session agree:
    the returned count is the number of documents, the chunk counts of the
    documents add up to the number of chunks held, and every chunk carries
    the file name and the kind of one of the documents and a chunk number
    below that document's chunk count. *)
Theorem process_folder_documents_and_chunks
        (lower : str -> str) (pdf docx pptx : str -> result text_content)
        (matrix : Type) (fit_transform : list str -> result matrix)
        (self : chatbot matrix) (folder : list file_entry) :
  fst (process_folder lower pdf docx pptx fit_transform self folder)
  = length (documents
              (snd (process_folder lower pdf docx pptx fit_transform
                      self folder)))
  /\ sum (map chunk_count
            (documents
               (snd (process_folder lower pdf docx pptx fit_transform
                       self folder))))
     = length (chunks
                 (snd (process_folder lower pdf docx pptx fit_transform
                         self folder)))
  /\ Forall (chunk_belongs
               (documents
                  (snd (process_folder lower pdf docx pptx fit_transform
                          self folder))))
            (chunks
               (snd (process_folder lower pdf docx pptx fit_transform
                       self folder))).
Proof.
  unfold process_folder.
  destruct (folder_loop_linked lower pdf docx pptx folder ([], [])
              eq_refl (Forall_nil _)) as [Hsum Hall].
  destruct (fold_left (folder_step lower pdf docx pptx) folder ([], []))
    as [docs cs].
  cbn [fst snd] in *.
  unfold _create_search_index. cbn [chunks documents].
  destruct cs as [|c cs]; cbn [fst snd documents chunks]; [auto|].
  destruct (fit_transform (map text (c :: cs)));
    cbn [documents chunks]; auto.
Qed.

(* ===================================================================== *)
(** * Further properties of the analyses *)
(* ===================================================================== *)

Lemma eqb_refl (s : str) : eqb s s = true.
Proof. now apply eqb_eq. Qed.

(** Reading a string key after writing it. *)
Lemma lookup_store_same (s : str) (x : value) (items : list (value * value)) :
  lookup (VStr s) (store (VStr s) x items) = Some x.
Proof.
  induction items as [|[k v] items IH]; cbn [store lookup].
  - cbn [py_eqb]. now rewrite eqb_refl.
  - destruct (py_eqb k (VStr s)) eqn:E; cbn [lookup]; rewrite E;
      [reflexivity | exact IH].
Qed.

(** Writing a key loses no key. *)
Lemma lookup_store_keeps (k k' x : value) (items : list (value * value)) :
  lookup k items <> None -> lookup k (store k' x items) <> None.
Proof.
  induction items as [|[k0 v] items IH]; cbn [store lookup];
    [congruence|].
  destruct (py_eqb k0 k') eqn:E; cbn [lookup];
    destruct (py_eqb k0 k); auto; discriminate.
Qed.

(** Writing a key adds no other key. *)
Lemma store_keys (k' x : value) (items : list (value * value)) :
  Forall (fun kv => In (fst kv) (map fst items) \/ fst kv = k')
         (store k' x items).
Proof.
  induction items as [|[k0 v] items IH]; cbn [store].
  - constructor; [now right | constructor].
  - destruct (py_eqb k0 k').
    + constructor; [left; now left|].
      apply Forall_forall. intros kv Hkv. left. right.
      now apply in_map.
    + constructor; [left; now left|].
      eapply Forall_impl; [|exact IH].
      intros kv [H | H]; [left; now right | now right].
Qed.

(** Strictly increasing integers within bounds are at most as many as the
    bounds leave room for. *)
Lemma increasing_bounded (secs : list Z) (lo hi : Z) :
  (lo <= hi)%Z -> StronglySorted Z.lt secs ->
  Forall (fun z => (lo < z <= hi)%Z) secs ->
  (Z.of_nat (length secs) <= hi - lo)%Z.
Proof.
  intros Hle Hs. revert lo Hle.
  induction Hs as [|a secs Hs IH Ha]; intros lo Hle Hall.
  - cbn. lia.
  - inversion Hall as [|? ? Hlo Hrest]; subst.
    assert (Hrec : (Z.of_nat (length secs) <= hi - a)%Z).
    { apply IH; [lia|]. apply Forall_forall. intros y Hy.
      rewrite Forall_forall in Ha, Hrest.
      specialize (Ha y Hy). specialize (Hrest y Hy). cbn beta in *. lia. }
    cbn [length]. lia.
Qed.

Section AnalysisFacts.

Variable lower : str -> str.
Variable json_loads : str -> result value.
Variable str_exn : exn -> str.
Variable llm : nat -> prompt -> reply.

Lemma chat_json_count (p : prompt) (n : nat) :
  snd (chat_json json_loads llm p n) = S n.
Proof.
  unfold chat_json, bind_io, chat, lift. now destruct (llm n p).
Qed.

(** The clause records carry the positions of their chunks. *)
Lemma analyze_clauses_sections (chunks : list str) (i n : nat) :
  exists clauses secs,
    analyze_clauses json_loads llm i chunks n
    = (Ok clauses, (n + length chunks)%nat)
    /\ map section_of clauses = map Some secs
    /\ StronglySorted Z.lt secs
    /\ Forall (fun z => (Z.of_nat i + 1 <= z
                         <= Z.of_nat i + Z.of_nat (length chunks))%Z) secs.
Proof.
  revert i n; induction chunks as [|chunk rest IH]; intros i n.
  - exists [], []. cbn. rewrite Nat.add_0_r. repeat split; constructor.
  - cbn [analyze_clauses length]. unfold bind_io at 1, catch, bind_io at 1.
    pose proof (chat_json_count (ClausePrompt chunk) n) as Hn.
    destruct (IH (S i) (S n)) as (clauses & secs & E & Hmap & Hsorted & Hall).
    assert (Hall' : Forall (fun z => (Z.of_nat i + 1 <= z
                      <= Z.of_nat i + Z.of_nat (S (length rest)))%Z) secs)
      by (eapply Forall_impl; [|exact Hall]; intros z Hz; cbn beta in Hz; lia).
    assert (Hskip : exists clauses0 secs0,
               (let (r, n') := analyze_clauses json_loads llm (S i) rest (S n) in
                match r with
                | Ok a => ret ([] ++ a) n'
                | Raise e => (Raise e, n')
                end) = (Ok clauses0, (n + S (length rest))%nat)
               /\ map section_of clauses0 = map Some secs0
               /\ StronglySorted Z.lt secs0
               /\ Forall (fun z => (Z.of_nat i + 1 <= z
                            <= Z.of_nat i + Z.of_nat (S (length rest)))%Z) secs0).
    { exists clauses, secs. rewrite E. unfold ret. cbn [app].
      repeat split; auto; try (f_equal; lia). }
    destruct (chat_json json_loads llm (ClausePrompt chunk) n)
      as [[v | e] n'] eqn:Ec; cbn [snd] in Hn; subst n'.
    + unfold bind_io at 1, lift at 1.
      destruct v as [| | | |l|items]; cbn [py_setitem]; unfold ret at 1;
        unfold bind_io; try exact Hskip.
      exists (VDict (store (VStr (lit "section"))
                       (VNum (NInt (Z.of_nat (i + 1)))) items) :: clauses),
        (Z.of_nat (i + 1) :: secs).
      rewrite E. unfold ret. cbn [app map].
      split; [f_equal; lia|]. split; [|split].
      * f_equal; [|exact Hmap]. unfold section_of, key.
        now rewrite lookup_store_same.
      * constructor; [exact Hsorted|].
        eapply Forall_impl; [|exact Hall]. intros z Hz; cbn beta in Hz; lia.
      * constructor; [lia | exact Hall'].
    + unfold ret at 1. unfold bind_io. exact Hskip.
Qed.

(** The pairs of [enumerate]: the index and the element at it. *)
Lemma in_enumerate_from {A : Type} (k : nat) (l : list A) (j : nat) (x : A) :
  In (j, x) (enumerate_from k l)
  <-> (k <= j)%nat /\ nth_error l (j - k) = Some x.
Proof.
  revert k; induction l as [|a l IH]; intros k; cbn [enumerate_from In].
  - split; [intros [] | intros [_ H]]. now destruct (j - k)%nat.
  - rewrite IH. split.
    + intros [[= <- <-] | [Hle H]].
      * rewrite Nat.sub_diag. split; [lia | reflexivity].
      * split; [lia|].
        replace (j - k)%nat with (S (j - S k)) by lia. exact H.
    + intros [Hle H]. destruct (Nat.eq_dec k j) as [<- | Hne].
      * rewrite Nat.sub_diag in H. cbn in H. left. congruence.
      * right. split; [lia|].
        replace (j - k)%nat with (S (j - S k)) in H by lia. exact H.
Qed.

(** A chunk adds no record or one, which carries its position. *)
Lemma clause_of_cases (n : nat) (ic : nat * str) :
  clause_of json_loads llm n ic = []
  \/ exists r, clause_of json_loads llm n ic = [r]
               /\ section_of r = Some (Z.of_nat (fst ic + 1)).
Proof.
  unfold clause_of.
  destruct (llm (n + fst ic)%nat (ClausePrompt (snd ic))) as [s | e];
    [|now left].
  destruct (json_loads s) as [[| | | | |items] | e]; try now left.
  right. eexists. split; [reflexivity|].
  unfold section_of, key. now rewrite lookup_store_same.
Qed.

(** The loop of the clause analysis, chunk by chunk: request [n0 + i]
    is the one of chunk number [i]. *)
Lemma analyze_clauses_flat (chunks : list str) (i n0 : nat) :
  analyze_clauses json_loads llm i chunks (n0 + i)%nat
  = (Ok (flat_map (clause_of json_loads llm n0) (enumerate_from i chunks)),
     (n0 + i + length chunks)%nat).
Proof.
  revert i; induction chunks as [|chunk rest IH]; intros i.
  - cbn. now rewrite Nat.add_0_r.
  - cbn [analyze_clauses enumerate_from flat_map length].
    specialize (IH (S i)).
    replace (n0 + S i)%nat with (S (n0 + i)) in IH by lia.
    replace (n0 + i + S (length rest))%nat
      with (S (n0 + i) + length rest)%nat by lia.
    unfold clause_of at 1. cbn [fst snd].
    unfold bind_io at 1, catch, bind_io at 1, chat_json, bind_io at 1, chat,
      lift at 1.
    destruct (llm (n0 + i)%nat (ClausePrompt chunk)) as [s | e].
    + destruct (json_loads s) as [v | e]; cbn [lift].
      * unfold bind_io at 1, lift at 1.
        destruct v as [| | | |l|items]; cbn [py_setitem]; unfold ret at 1;
          unfold bind_io; rewrite IH; reflexivity.
      * unfold ret at 1. unfold bind_io. rewrite IH. reflexivity.
    + unfold ret at 1. unfold bind_io. rewrite IH. reflexivity.
Qed.

(** X8: the clause analysis never raises.  Its records are those of the
    chunks in chunk order, the record of a chunk being the dictionary of
    the reply to the request of that chunk, with the 1-based position of
    the chunk as section number; a chunk whose request or parsing fails
    adds none, so its position is missing from the section numbers, which
    are strictly increasing.  A record that carries the position of a
    chunk is the record of that chunk. *)
Theorem clause_analysis_sections (chunks : list str) (n : nat) :
  exists clauses secs,
    fst (_clause_analysis json_loads llm chunks n)
    = Ok (VDict [(key "analysis_type", VStr ANALISE_DE_CLAUSULAS);
                 (key "clauses", VList clauses)])
    /\ map section_of clauses = map Some secs
    /\ StronglySorted Z.lt secs
    /\ Forall (fun z => (1 <= z <= Z.of_nat (length chunks))%Z) secs
    /\ (length clauses <= length chunks)%nat
    /\ clauses
       = flat_map (clause_of json_loads llm n) (enumerate_from 0 chunks)
    /\ forall (i : nat) (chunk : str),
         nth_error chunks i = Some chunk ->
         (clause_of json_loads llm n (i, chunk) = []
          -> ~ In (Z.of_nat (i + 1)) secs)
         /\ (forall r, clause_of json_loads llm n (i, chunk) = [r]
                       -> In r clauses
                          /\ section_of r = Some (Z.of_nat (i + 1)))
         /\ (forall r, In r clauses
                       -> section_of r = Some (Z.of_nat (i + 1))
                       -> clause_of json_loads llm n (i, chunk) = [r]).
Proof.
  destruct (analyze_clauses_sections chunks 0 n)
    as (clauses & secs & E & Hmap & Hsorted & Hall).
  pose proof (analyze_clauses_flat chunks 0 n) as Eflat.
  rewrite Nat.add_0_r in Eflat. rewrite E in Eflat.
  injection Eflat as Eflat.
  exists clauses, secs. unfold _clause_analysis, bind_io. rewrite E.
  split; [reflexivity|].
  split; [exact Hmap|]. split; [exact Hsorted|]. split; [exact Hall|].
  split.
  { assert (Hlen : length clauses = length secs)
      by (rewrite <- (length_map section_of), Hmap; apply length_map).
    rewrite Hlen.
    pose proof (increasing_bounded secs 0 (Z.of_nat (length chunks))
                  (Nat2Z.is_nonneg _) Hsorted) as H.
    assert (Hall0 : Forall (fun z => (0 < z <= Z.of_nat (length chunks))%Z)
                           secs)
      by (eapply Forall_impl; [|exact Hall]; intros z Hz; cbn beta in *; lia).
    specialize (H Hall0). lia. }
  split; [exact Eflat|].
  intros i chunk Hnth.
  assert (Hown : forall r, In r clauses ->
                           section_of r = Some (Z.of_nat (i + 1)) ->
                           clause_of json_loads llm n (i, chunk) = [r]).
  { intros r Hr Hsec. rewrite Eflat in Hr.
    apply in_flat_map in Hr as ([j c] & Hjc & Hr).
    apply in_enumerate_from in Hjc as [_ Hjc].
    rewrite Nat.sub_0_r in Hjc.
    destruct (clause_of_cases n (j, c)) as [Enone | (r' & Eone & Hsec')].
    - rewrite Enone in Hr. contradiction.
    - rewrite Eone in Hr. destruct Hr as [<- | []].
      cbn [fst] in Hsec'. rewrite Hsec in Hsec'.
      assert (j = i) by (injection Hsec' as H; lia). subst j.
      rewrite Hnth in Hjc. injection Hjc as <-. exact Eone. }
  split; [|split; [|exact Hown]].
  - intros Enone Hin.
    apply (in_map Some) in Hin. rewrite <- Hmap in Hin.
    apply in_map_iff in Hin as (r & Hsec & Hr).
    rewrite (Hown r Hr Hsec) in Enone. discriminate.
  - intros r Eone. split.
    + rewrite Eflat. apply in_flat_map. exists (i, chunk). split.
      * apply in_enumerate_from. rewrite Nat.sub_0_r. split; [lia | exact Hnth].
      * rewrite Eone. now left.
    + destruct (clause_of_cases n (i, chunk)) as [Enone | (r' & Eone' & Hsec)].
      * rewrite Enone in Eone. discriminate.
      * rewrite Eone' in Eone. injection Eone as <-. exact Hsec.
Qed.

(** Three chunks, the request of the second fails: the records carry the
    sections 1 and 3. *)
Example clause_analysis_example :
  fst (_clause_analysis empty_dict_loads second_fails_llm
         [lit "First."; lit "Second."; lit "Third."] 0%nat)
  = Ok (VDict [(key "analysis_type", VStr ANALISE_DE_CLAUSULAS);
               (key "clauses",
                VList [VDict [(key "section", VNum (NInt 1))];
                       VDict [(key "section", VNum (NInt 3))]])]).
Proof. vm_compute. reflexivity. Qed.

Lemma collect_events_count (chunks : list str) (n : nat) :
  snd (collect_events json_loads llm chunks n) = (n + length chunks)%nat.
Proof. now rewrite collect_events_flattened. Qed.

Lemma extract_chunks_count (chunks : list str)
      (extracted_data : list (str * list value)) (n : nat) :
  exists d, extract_chunks json_loads llm chunks extracted_data n
            = (Ok d, (n + length chunks)%nat).
Proof.
  revert extracted_data n; induction chunks as [|chunk rest IH];
    intros extracted_data n.
  - exists extracted_data. cbn. now rewrite Nat.add_0_r.
  - cbn [extract_chunks length]. unfold bind_io at 1, catch, bind_io at 1.
    pose proof (chat_json_count (DataExtractionPrompt chunk) n) as Hn.
    destruct (chat_json json_loads llm (DataExtractionPrompt chunk) n)
      as [[v | e] n']; cbn [snd] in Hn; subst n'; unfold ret at 1.
    + destruct (IH (merge_categories v extracted_data) (S n)) as [d E].
      exists d. rewrite E. f_equal. lia.
    + destruct (IH extracted_data (S n)) as [d E].
      exists d. rewrite E. f_equal. lia.
Qed.

Lemma summarize_chunks_count (chunks : list str) (i n : nat) :
  exists summaries,
    summarize_chunks json_loads llm i chunks n
    = (Ok summaries, (n + length chunks)%nat)
    /\ length summaries = length chunks.
Proof.
  revert i n; induction chunks as [|chunk rest IH]; intros i n.
  - exists []. cbn. now rewrite Nat.add_0_r.
  - cbn [summarize_chunks length]. unfold bind_io at 1, catch.
    pose proof (chat_json_count (ExecutiveChunkPrompt (i + 1) chunk) n) as Hn.
    destruct (IH (S i) (S n)) as (ss & E & Hlen).
    destruct (chat_json json_loads llm (ExecutiveChunkPrompt (i + 1) chunk) n)
      as [[v | e] n']; cbn [snd] in Hn; subst n'; unfold ret at 1;
      unfold bind_io; rewrite E; unfold ret;
      eexists; (split; [f_equal; lia | cbn [length]; now rewrite Hlen]).
Qed.

(** X9: an analysis sends one request for each chunk, in chunk order,
    whatever the earlier requests gave: a failure neither stops the loop
    nor is retried.  The general analysis sends one request; the executive
    summary sends one more, for the consolidation, unless a summary cannot
    be read. *)
Theorem requests_per_analysis (chunks : list str) (analysis_type : str)
        (n : nat) :
  snd (_timeline_analysis json_loads llm chunks n) = (n + length chunks)%nat
  /\ snd (_data_extraction json_loads llm chunks n) = (n + length chunks)%nat
  /\ snd (_clause_analysis json_loads llm chunks n) = (n + length chunks)%nat
  /\ snd (_general_analysis str_exn llm chunks analysis_type n) = S n
  /\ (n + length chunks
      <= snd (_executive_summary json_loads llm chunks n)
      <= n + length chunks + 1)%nat.
Proof.
  split; [|split; [|split; [|split]]].
  - unfold _timeline_analysis, bind_io at 1.
    rewrite collect_events_flattened. unfold bind_io, lift.
    now destruct (sort_by date_key _).
  - unfold _data_extraction, bind_io at 1.
    destruct (extract_chunks_count chunks
                (map (fun c => (c, [])) data_categories) n) as [d E].
    rewrite E. unfold bind_io, lift. now destruct (remove_duplicates d).
  - unfold _clause_analysis, bind_io.
    destruct (analyze_clauses_sections chunks 0 n) as (cl & secs & E & _).
    now rewrite E.
  - unfold _general_analysis, catch, bind_io, chat, ret.
    now destruct (llm n _).
  - assert (H : exists r k,
               _executive_summary json_loads llm chunks n = (r, k)
               /\ (k = (n + length chunks)%nat
                   \/ k = (n + length chunks + 1)%nat)).
    { unfold _executive_summary, bind_io at 1.
      destruct (summarize_chunks_count chunks 0 n) as (ss & E & _).
      rewrite E. unfold _consolidate_summaries, bind_io at 1, lift at 1.
      destruct (collect_summaries ss [] [] []) as [[[p d] c] | e];
        [|eexists; eexists; split; [reflexivity | now left]].
      unfold catch, bind_io.
      pose proof (chat_json_count (ConsolidationPrompt p d c)
                    (n + length chunks)%nat) as Hn.
      destruct (chat_json json_loads llm (ConsolidationPrompt p d c)
                  (n + length chunks)%nat) as [[v | e] n'];
        cbn [snd] in Hn; subst n'; unfold lift, ret;
        try destruct (py_setitem v _ _); eexists; eexists;
        (split; [reflexivity | right; lia]). }
    destruct H as (r & k & -> & [-> | ->]); cbn [snd]; lia.
Qed.

(** X10: the topic analysis, the clause analysis and the general analysis
    never raise, whatever the language model replies: every step that can
    fail on a reply runs inside a [try]. *)
Theorem guarded_analyses_return (chunks : list str) (analysis_type : str)
        (n : nat) :
  (exists v, fst (_topic_analysis lower json_loads str_exn llm chunks n) = Ok v)
  /\ (exists v, fst (_clause_analysis json_loads llm chunks n) = Ok v)
  /\ (exists v,
        fst (_general_analysis str_exn llm chunks analysis_type n) = Ok v).
Proof.
  split; [|split].
  - apply catch_ret_returns.
  - destruct (analyze_clauses_sections chunks 0 n) as (cl & secs & E & _).
    unfold _clause_analysis, bind_io. rewrite E. cbn. eauto.
  - apply catch_ret_returns.
Qed.

(** The per-topic analysis of a string never raises. *)
Lemma analyze_single_topic_returns (chunks : list str) (t : str) (n : nat) :
  exists v,
    _analyze_single_topic lower json_loads llm chunks (VStr t) n
    = (Ok v, S n).
Proof.
  unfold _analyze_single_topic, catch, ret.
  match goal with |- context [chat_json json_loads llm ?p n] =>
    pose proof (chat_json_count p n) as Hn;
    destruct (chat_json json_loads llm p n) as [[v | e] n']
  end; cbn [snd] in Hn; subst n'; eauto.
Qed.

(** Every topic of a list of strings gets an entry, and no other key is
    added. *)
Lemma analyze_topics_entries (chunks : list str) (topics : list value)
      (ta : list (value * value)) (n : nat) :
  Forall (fun t => is_str t = true) topics ->
  exists ta',
    fst (analyze_topics lower json_loads llm chunks topics ta n) = Ok ta'
    /\ Forall (fun t => lookup t ta' <> None) topics
    /\ (forall k, lookup k ta <> None -> lookup k ta' <> None)
    /\ Forall (fun kv => In (fst kv) (map fst ta) \/ In (fst kv) topics) ta'.
Proof.
  intros H. revert ta n.
  induction H as [|t topics Ht _ IH]; intros ta n.
  - exists ta. cbn. repeat split; auto.
    apply Forall_forall. intros kv Hkv. left. now apply in_map.
  - destruct t as [| | |t| |]; try discriminate.
    cbn [analyze_topics]. unfold bind_io at 1.
    destruct (analyze_single_topic_returns chunks t n) as [v E].
    rewrite E. cbn [hashable].
    destruct (IH (store (VStr t) v ta) (S n))
      as (ta' & E' & Hall & Hkeep & Hkeys).
    exists ta'. split; [exact E'|]. split; [|split].
    + constructor; [|exact Hall].
      apply Hkeep. now rewrite lookup_store_same.
    + intros k Hk. apply Hkeep. now apply lookup_store_keeps.
    + apply Forall_forall. intros kv Hkv.
      rewrite Forall_forall in Hkeys. destruct (Hkeys kv Hkv) as [Hin | Hin].
      * apply in_map_iff in Hin as (kv0 & Efst & Hin0).
        pose proof (store_keys (VStr t) v ta) as Hs.
        rewrite Forall_forall in Hs. destruct (Hs kv0 Hin0) as [Hold | Hnew].
        -- left. now rewrite <- Efst.
        -- right. left. now rewrite <- Efst, Hnew.
      * right. now right.
Qed.

(** X11: when the reply to the topics request is a dictionary whose
    ["main_topics"] is a list of strings, the topic analysis returns an
    untagged result that has an entry for every topic and for nothing
    else, whatever becomes of the requests for the single topics. *)
Theorem topic_analysis_covers_topics (chunks : list str) (n : nat)
        (structure : value) (topics : list value) :
  fst (chat_json json_loads llm
         (TopicsPrompt (take 5000 (join [space] chunks))) n) = Ok structure ->
  py_getitem structure (lit "main_topics") = Ok (VList topics) ->
  Forall (fun t => is_str t = true) topics ->
  exists topic_analyses,
    fst (_topic_analysis lower json_loads str_exn llm chunks n)
    = Ok (VDict [(key "analysis_type", VStr ANALISE_POR_TOPICOS);
                 (key "topics_structure", structure);
                 (key "topic_analyses", VDict topic_analyses)])
    /\ Forall (fun t => lookup t topic_analyses <> None) topics
    /\ Forall (fun kv => In (fst kv) topics) topic_analyses.
Proof.
  intros Hreply Hget Hstr.
  unfold _topic_analysis, catch, bind_io at 1.
  pose proof (chat_json_count
                (TopicsPrompt (take 5000 (join [space] chunks))) n) as Hn.
  destruct (chat_json json_loads llm
              (TopicsPrompt (take 5000 (join [space] chunks))) n)
    as [[v | e] n']; cbn [fst snd] in *; [|discriminate].
  injection Hreply as ->. subst n'.
  unfold bind_io at 1, lift at 1. rewrite Hget.
  unfold bind_io at 1, lift at 1. cbn [py_iter].
  unfold bind_io.
  destruct (analyze_topics_entries chunks topics [] (S n) Hstr)
    as (ta & E & Hall & _ & Hkeys).
  destruct (analyze_topics lower json_loads llm chunks topics [] (S n))
    as [[ta0 | e] n'']; cbn [fst] in E; [|discriminate].
  injection E as ->. exists ta. unfold ret. cbn [fst].
  split; [reflexivity|]. split; [exact Hall|].
  eapply Forall_impl; [|exact Hkeys]. intros kv [[] | H]; exact H.
Qed.

End AnalysisFacts.

(** A witness of [topic_analysis_covers_topics]: two topics, and a language
    model that answers the topics request and then fails. *)
Lemma topic_analysis_covers_topics_witness :
  exists topic_analyses,
    fst (_topic_analysis ascii_lower topics_loads no_message first_reply_llm
           demo_chunks 0%nat)
    = Ok (VDict [(key "analysis_type", VStr ANALISE_POR_TOPICOS);
                 (key "topics_structure",
                  VDict [(key "main_topics",
                          VList [VStr (lit "budget"); VStr (lit "schedule")])]);
                 (key "topic_analyses", VDict topic_analyses)])
    /\ Forall (fun t => lookup t topic_analyses <> None)
              [VStr (lit "budget"); VStr (lit "schedule")].
Proof.
  destruct (topic_analysis_covers_topics ascii_lower topics_loads no_message
              first_reply_llm demo_chunks 0%nat
              (VDict [(key "main_topics",
                       VList [VStr (lit "budget"); VStr (lit "schedule")])])
              [VStr (lit "budget"); VStr (lit "schedule")])
    as (ta & E & Hall & _).
  - reflexivity.
  - reflexivity.
  - repeat constructor.
  - exists ta. split; assumption.
Defined.

(** A witness of [request_failures_are_absorbed]: the timeline analysis
    with a language model that cannot be reached. *)
Lemma request_failures_are_absorbed_witness :
  exists v,
    fst (perform_detailed_analysis ascii_lower demo_loads no_message
           unreachable_llm short_document TIMELINE_DE_EVENTOS 0%nat) = Ok v.
Proof.
  apply (request_failures_are_absorbed ascii_lower demo_loads no_message
           unreachable_llm).
  intros p n. exists ServiceError. reflexivity.
Defined.

Section PlaceholderFacts.

Variable json_loads : str -> result value.
Variable llm : nat -> prompt -> reply.
Hypothesis no_reply :
  forall p n, exists e, fst (chat_json json_loads llm p n) = Raise e.

Lemma summarize_chunks_no_reply (chunks : list str) (i n : nat) :
  fst (summarize_chunks json_loads llm i chunks n)
  = Ok (map (summary_fallback) (seq i (length chunks))).
Proof.
  revert i n; induction chunks as [|chunk rest IH]; intros i n;
    [reflexivity|].
  cbn [summarize_chunks length seq map]. unfold bind_io at 1, catch.
  destruct (no_reply (ExecutiveChunkPrompt (i + 1) chunk) n) as [e E].
  destruct (chat_json json_loads llm (ExecutiveChunkPrompt (i + 1) chunk) n)
    as [[v | e'] n']; cbn [fst] in E; [discriminate|].
  unfold ret at 1. unfold bind_io.
  specialize (IH (S i) n').
  destruct (summarize_chunks json_loads llm (S i) rest n')
    as [[ss | e''] n'']; cbn [fst] in IH; [|discriminate].
  injection IH as ->. reflexivity.
Qed.

Lemma collected_fallbacks (i len : nat) :
  collected (lit "main_points") (map summary_fallback (seq i len))
  = map placeholder_point (seq (i + 1) len)
  /\ collected (lit "important_data") (map summary_fallback (seq i len)) = []
  /\ collected (lit "conclusions") (map summary_fallback (seq i len)) = [].
Proof.
  revert i; induction len as [|len IH]; intros i; [repeat split|].
  destruct (IH (S i)) as (Hp & Hd & Hc).
  unfold collected in *. cbn [seq map flat_map].
  rewrite Hp, Hd, Hc. repeat split.
Qed.

(** X13: when no request yields a parsed reply, the executive summary is
    still returned, untagged: its key findings are the placeholders
    "Resumo do trecho 1", "Resumo do trecho 2", ... of the first five
    chunks, and it has no metrics and no conclusions. *)
Theorem executive_summary_placeholders (chunks : list str) (n : nat) :
  fst (_executive_summary json_loads llm chunks n)
  = Ok (VDict
          [(key "analysis_type", VStr RESUMO_EXECUTIVO);
           (key "executive_summary", VStr placeholder_summary);
           (key "key_findings",
            VList (firstn 5 (map placeholder_point
                                 (seq 1 (length chunks)))));
           (key "important_metrics", VList []);
           (key "recommendations", VList []);
           (key "main_conclusions", VList [])]).
Proof.
  unfold _executive_summary, bind_io at 1.
  pose proof (summarize_chunks_no_reply chunks 0 n) as Es.
  destruct (summarize_chunks json_loads llm 0 chunks n) as [[ss | e] n'];
    cbn [fst] in Es; [|discriminate].
  injection Es as ->.
  unfold _consolidate_summaries, bind_io at 1, lift at 1.
  rewrite collect_summaries_records
    by (apply Forall_map, Forall_forall; intros; reflexivity).
  destruct (collected_fallbacks 0 (length chunks)) as (-> & -> & ->).
  cbn [app Nat.add]. unfold catch, bind_io.
  match goal with |- context [chat_json json_loads llm ?p n'] =>
    destruct (no_reply p n') as [e E];
    destruct (chat_json json_loads llm p n') as [[v | e'] n'']
  end; cbn [fst] in E; [discriminate|].
  reflexivity.
Qed.

End PlaceholderFacts.

(** A witness of [executive_summary_placeholders]: three chunks and a
    language model that cannot be reached. *)
Lemma executive_summary_placeholders_witness :
  fst (_executive_summary demo_loads unreachable_llm demo_chunks 0%nat)
  = Ok (VDict
          [(key "analysis_type", VStr RESUMO_EXECUTIVO);
           (key "executive_summary", VStr placeholder_summary);
           (key "key_findings",
            VList [VStr (lit "Resumo do trecho 1");
                   VStr (lit "Resumo do trecho 2");
                   VStr (lit "Resumo do trecho 3")]);
           (key "important_metrics", VList []);
           (key "recommendations", VList []);
           (key "main_conclusions", VList [])]).
Proof.
  apply (executive_summary_placeholders demo_loads unreachable_llm).
  intros p n. exists ServiceError. reflexivity.
Defined.

(* --------------------------------------------------------------------- *)
(** ** Data extraction *)

Lemma Qeq_bool_sym (p q : Q) : Qeq_bool p q = Qeq_bool q p.
Proof.
  destruct (Qeq_bool p q) eqn:E1, (Qeq_bool q p) eqn:E2; try reflexivity.
  - apply Qeq_bool_iff in E1. symmetry in E1. apply Qeq_bool_iff in E1.
    congruence.
  - apply Qeq_bool_iff in E2. symmetry in E2. apply Qeq_bool_iff in E2.
    congruence.
Qed.

Lemma num_eqb_sym (a b : number) : num_eqb a b = num_eqb b a.
Proof.
  destruct a as [x|p|x|], b as [y|q|y|]; cbn; try reflexivity.
  - apply Z.eqb_sym.
  - apply Qeq_bool_sym.
  - now destruct x, y.
Qed.

Lemma eqb_sym (s t : str) : eqb s t = eqb t s.
Proof.
  destruct (eqb s t) eqn:E1, (eqb t s) eqn:E2; try reflexivity.
  - apply eqb_eq in E1. subst. now rewrite eqb_refl in E2.
  - apply eqb_eq in E2. subst. now rewrite eqb_refl in E1.
Qed.

(** On values that can be hashed, [==] is symmetric. *)
Lemma py_eqb_sym (a b : value) :
  hashable a = true -> hashable b = true -> py_eqb a b = py_eqb b a.
Proof.
  destruct a as [|x|n|s|l|d], b as [|y|m|t|l'|d']; cbn [py_eqb hashable];
    try reflexivity; try discriminate; intros _ _.
  - now destruct x, y.
  - apply num_eqb_sym.
  - apply num_eqb_sym.
  - apply num_eqb_sym.
  - apply eqb_sym.
Qed.

(** [dedup] keeps elements of the list, none of them equal to one it has
    seen or to one it kept before. *)
Lemma dedup_distinct (l seen : list value) :
  Forall (fun x => In x l
                   /\ Forall (fun s => py_eqb x s = false) seen)
         (dedup seen l)
  /\ ForallOrdPairs (fun a b => py_eqb b a = false) (dedup seen l).
Proof.
  revert seen; induction l as [|x l IH]; intros seen.
  - split; constructor.
  - cbn [dedup]. destruct (existsb (py_eqb x) seen) eqn:Ex.
    + destruct (IH seen) as [Hall Hpairs]. split; [|exact Hpairs].
      eapply Forall_impl; [|exact Hall]. intros y [Hin Hs].
      split; [now right | exact Hs].
    + destruct (IH (x :: seen)) as [Hall Hpairs]. split.
      * constructor.
        -- split; [now left|]. apply Forall_forall. intros s Hs.
           destruct (py_eqb x s) eqn:E; [|reflexivity].
           assert (existsb (py_eqb x) seen = true)
             by (apply existsb_exists; eauto).
           congruence.
        -- eapply Forall_impl; [|exact Hall]. intros y [Hin Hs].
           split; [now right|]. now inversion Hs.
      * constructor; [|exact Hpairs].
        eapply Forall_impl; [|exact Hall]. intros y [_ Hs].
        now inversion Hs.
Qed.

Lemma list_set_distinct (l unique : list value) :
  list_set l = Ok unique ->
  ForallOrdPairs differ unique /\ Forall (fun x => In x l) unique.
Proof.
  unfold list_set. destruct (forallb hashable l) eqn:Eh; [|discriminate].
  intros [= <-]. rewrite forallb_forall in Eh.
  destruct (dedup_distinct l []) as [Hall Hpairs].
  split; [|eapply Forall_impl; [|exact Hall]; now intros x [H _]].
  assert (Hhash : Forall (fun x => hashable x = true) (dedup [] l))
    by (eapply Forall_impl; [|exact Hall]; intros x [H _]; now apply Eh).
  induction Hpairs as [|a rest Ha Hrest IH]; [constructor|].
  inversion Hhash as [|? ? Hha Hhrest]; subst.
  inversion Hall; subst.
  constructor; [|now apply IH].
  rewrite Forall_forall in Ha, Hhrest. apply Forall_forall. intros b Hb.
  split; [|now apply Ha].
  rewrite (py_eqb_sym a b Hha (Hhrest b Hb)). now apply Ha.
Qed.

Lemma merge_categories_keys (chunk_data : value)
      (extracted_data : list (str * list value)) :
  map fst (merge_categories chunk_data extracted_data)
  = map fst extracted_data.
Proof.
  induction extracted_data as [|[c l] rest IH]; [reflexivity|].
  cbn [merge_categories].
  destruct (py_contains chunk_data c) as [[|] | e]; [| |reflexivity].
  - destruct (bind (py_getitem chunk_data c) py_iter); [|reflexivity].
    cbn [map fst]. now rewrite IH.
  - cbn [map fst]. now rewrite IH.
Qed.

Section DataExtractionFacts.

Variable json_loads : str -> result value.
Variable llm : nat -> prompt -> reply.

Lemma extract_chunks_keys (chunks : list str)
      (extracted_data : list (str * list value)) (n : nat) :
  exists d, fst (extract_chunks json_loads llm chunks extracted_data n) = Ok d
            /\ map fst d = map fst extracted_data.
Proof.
  revert extracted_data n; induction chunks as [|chunk rest IH];
    intros extracted_data n.
  - exists extracted_data. auto.
  - cbn [extract_chunks]. unfold bind_io at 1, catch, bind_io at 1.
    destruct (chat_json json_loads llm (DataExtractionPrompt chunk) n)
      as [[v | e] n']; unfold ret at 1.
    + destruct (IH (merge_categories v extracted_data) n') as (d & E & Hk).
      exists d. split; [exact E|]. now rewrite Hk, merge_categories_keys.
    + apply IH.
Qed.

Lemma remove_duplicates_distinct (d : list (str * list value))
      (entries : list (value * value)) :
  remove_duplicates d = Ok entries ->
  exists lists,
    entries = combine (map VStr (map fst d)) (map VList lists)
    /\ length lists = length d
    /\ Forall (ForallOrdPairs differ) lists.
Proof.
  revert entries; induction d as [|[c l] d IH]; intros entries.
  - intros [= <-]. exists []. repeat split. constructor.
  - cbn [remove_duplicates].
    destruct (list_set l) as [unique | e] eqn:El; cbn [bind]; [|discriminate].
    destruct (remove_duplicates d) as [rest | e]; cbn [bind]; [|discriminate].
    intros [= <-]. destruct (IH rest eq_refl) as (lists & -> & Hlen & Hd).
    exists (unique :: lists). cbn. repeat split; [now rewrite Hlen|].
    constructor; [|exact Hd]. now destruct (list_set_distinct l unique El).
Qed.

(** X14: when the data extraction returns, its result lists the seven
    categories in their fixed order, and no list holds two equal values,
    however often the chunks repeat a value. *)
Theorem data_extraction_distinct (chunks : list str) (n : nat) (v : value) :
  fst (_data_extraction json_loads llm chunks n) = Ok v ->
  exists lists,
    v = VDict [(key "analysis_type", VStr EXTRACAO_DE_DADOS);
               (key "extracted_data",
                VDict (combine (map VStr data_categories)
                               (map VList lists)))]
    /\ length lists = 7%nat
    /\ Forall (ForallOrdPairs differ) lists.
Proof.
  unfold _data_extraction, bind_io at 1.
  destruct (extract_chunks_keys chunks
              (map (fun c => (c, [])) data_categories) n) as (d & E & Hk).
  change (map fst (map (fun c : str => (c, @nil value)) data_categories))
    with data_categories in Hk.
  destruct (extract_chunks json_loads llm chunks _ n) as [[d' | e] n'];
    cbn [fst] in E; [|discriminate].
  injection E as ->. unfold bind_io, lift.
  destruct (remove_duplicates d) as [entries | e] eqn:Er;
    cbn [fst]; [|discriminate].
  intros [= <-].
  destruct (remove_duplicates_distinct d entries Er) as (lists & -> & Hlen & Hd).
  exists lists. rewrite Hk.
  repeat split; [|exact Hd].
  rewrite Hlen, <- (length_map fst), Hk. reflexivity.
Qed.

End DataExtractionFacts.

(** A witness of [data_extraction_distinct]: the reply names the date
    2024-01-01 twice and the result holds it once. *)
Lemma data_extraction_distinct_witness :
  exists lists,
    VDict [(key "analysis_type", VStr EXTRACAO_DE_DADOS);
           (key "extracted_data",
            VDict [(key "dates", VList [VStr (lit "2024-01-01")]);
                   (key "numbers", VList []);
                   (key "percentages", VList []);
                   (key "currencies", VList []);
                   (key "names", VList []);
                   (key "locations", VList []);
                   (key "organizations", VList [])])]
    = VDict [(key "analysis_type", VStr EXTRACAO_DE_DADOS);
             (key "extracted_data",
              VDict (combine (map VStr data_categories) (map VList lists)))]
    /\ length lists = 7%nat
    /\ Forall (ForallOrdPairs differ) lists.
Proof.
  apply (data_extraction_distinct repeated_date_loads answering_llm
           (create_chunks_default short_document) 0%nat).
  vm_compute. reflexivity.
Defined.

(* ===================================================================== *)
(** * Retrieval and answers *)
(* ===================================================================== *)

Lemma threshold_positive : (0 < threshold)%Q.
Proof. reflexivity. Qed.

Lemma slice_from_last {X : Type} (k : Z) (l : list X) :
  (1 <= k)%Z -> (length (slice_from (- k) l) <= Z.to_nat k)%nat.
Proof.
  intros Hk. unfold slice_from.
  destruct (Z.ltb_spec (- k) 0); [|lia].
  rewrite length_skipn, Z.opp_involutive. lia.
Qed.


Section RetrievalFacts.

Variable lower : str -> str.
Variable matrix : Type.
Variable similarities : matrix -> str -> option (list Q).
Variable argsort : list Q -> list nat.
Variable str_exn : exn -> str.
Variable llm : nat -> chat_prompt -> reply.
Variable set_order : list str -> list str.

Lemma pick_relevant_spec (self : chatbot matrix) (sims : list Q)
      (top_indices : list nat) (found : list scored_chunk) :
  pick_relevant self sims top_indices = Some found ->
  Forall (fun r => In (chunk r) (chunks self)
                   /\ (threshold < similarity r)%Q) found
  /\ (length found <= length top_indices)%nat.
Proof.
  revert found; induction top_indices as [|idx rest IH]; intros found.
  - intros [= <-]. split; [constructor | reflexivity].
  - cbn [pick_relevant].
    destruct (nth_error sims idx) as [s|]; [|discriminate].
    destruct (Qle_bool s threshold) eqn:Es; cbn [negb].
    + intros H. destruct (IH found H) as [Hall Hlen].
      split; [exact Hall | cbn [length]; lia].
    + destruct (nth_error (chunks self) idx) as [c|] eqn:Ec; [|discriminate].
      destruct (pick_relevant self sims rest) as [found'|]; [|discriminate].
      intros [= <-]. destruct (IH found' eq_refl) as [Hall Hlen].
      split; [|cbn [length]; lia].
      constructor; [|exact Hall]. cbn [chunk similarity]. split.
      * eapply nth_error_In; exact Ec.
      * apply Qnot_le_lt. intros Hle. apply Qle_bool_iff in Hle. congruence.
Qed.

(** X15: when the index answers, every chunk it returns is a chunk of the
    session whose similarity is above 0.1, and for a top-k of at least 1
    there are at most top-k of them. *)
Theorem tfidf_search_above_threshold (self : chatbot matrix) (m : matrix)
        (query : str) (top_k : Z) (found : list scored_chunk) :
  tfidf_search similarities argsort self m query top_k = Some found ->
  Forall (fun r => In (chunk r) (chunks self)
                   /\ (threshold < similarity r)%Q) found
  /\ ((1 <= top_k)%Z -> (length found <= Z.to_nat top_k)%nat).
Proof.
  unfold tfidf_search.
  destruct (similarities m query) as [sims|]; [|discriminate].
  intros H. destruct (pick_relevant_spec _ _ _ _ H) as [Hall Hlen].
  split; [exact Hall|]. intros Hk.
  rewrite length_rev in Hlen.
  pose proof (slice_from_last top_k (argsort sims) Hk). lia.
Qed.

(** The search returns chunks of the session. *)
Lemma search_relevant_chunks_ok (self : chatbot matrix)
      (query : str) (top_k : Z) :
  exists found,
    _search_relevant_chunks lower similarities argsort self query top_k
    = Ok found
    /\ Forall (fun r => In (chunk r) (chunks self)) found.
Proof.
  destruct (keyword_search_positive lower matrix self query top_k)
    as (kw & Ekw & Hkw).
  assert (Hkw' : Forall (fun r => In (chunk r) (chunks self)) kw)
    by (eapply Forall_impl; [|exact Hkw]; now intros r [H _]).
  unfold _search_relevant_chunks.
  destruct (tfidf_matrix self) as [m|]; [|eauto].
  unfold tfidf_search.
  destruct (similarities m query) as [sims|]; [|eauto].
  destruct (pick_relevant self sims _) as [found|] eqn:Ep; [|eauto].
  exists found. split; [reflexivity|].
  destruct (pick_relevant_spec _ _ _ _ Ep) as [Hall _].
  eapply Forall_impl; [|exact Hall]. now intros r [H _].
Qed.


(** X16: the search for relevant chunks never raises: without an index, or
    when the index raises, it is the keyword search; what it returns are
    chunks of the session with a similarity above 0. *)
Theorem search_relevant_chunks_returns (self : chatbot matrix)
        (query : str) (top_k : Z) :
  exists found,
    _search_relevant_chunks lower similarities argsort self query top_k
    = Ok found
    /\ Forall (fun r => In (chunk r) (chunks self) /\ (0 < similarity r)%Q)
              found
    /\ (tfidf_matrix self = None ->
        _keyword_search lower self query top_k = Ok found)
    /\ (forall m, tfidf_matrix self = Some m ->
                  tfidf_search similarities argsort self m query top_k = None ->
                  _keyword_search lower self query top_k = Ok found).
Proof.
  destruct (keyword_search_positive lower matrix self query top_k)
    as (kw & Ekw & Hkw').
  unfold _search_relevant_chunks.
  destruct (tfidf_matrix self) as [m|].
  - destruct (tfidf_search similarities argsort self m query top_k)
      as [found|] eqn:Et.
    + exists found. split; [reflexivity|]. split; [|split].
      * assert (Hall : Forall (fun r => In (chunk r) (chunks self)
                                        /\ (threshold < similarity r)%Q)
                               found).
        { unfold tfidf_search in Et.
          destruct (similarities m query) as [sims|]; [|discriminate].
          now destruct (pick_relevant_spec _ _ _ _ Et). }
        eapply Forall_impl; [|exact Hall]. intros r [Hin Hs].
        split; [exact Hin|].
        eapply Qlt_trans; [exact threshold_positive | exact Hs].
      * discriminate.
      * intros m' [= <-] Hnone. congruence.
    + exists kw. repeat split; auto; try discriminate.
  - exists kw. repeat split; auto; try discriminate.
Qed.

(** [_generate_response] returns a response and counts one request. *)
Lemma generate_response_ok (self : session matrix) (question : str)
      (relevant_chunks : list scored_chunk) (n : nat) :
  exists r,
    _generate_response str_exn llm set_order self question relevant_chunks n
    = (Ok r, S n).
Proof.
  unfold _generate_response, catch, bind_io, request, ret.
  destruct (llm n (build_prompt self question relevant_chunks)); eauto.
Qed.



(** X18: [get_response] never raises.  Either it returns one of the two
    fixed messages, sends no request and leaves the history as it was;
    or it sends one request and appends one turn, which holds the
    question, the returned response and the documents of at most three
    chunks of the session.  Without chunks it is the message that no
    document was processed. *)
Theorem get_response_outcomes (self : session matrix) (user_question : str)
        (n : nat) :
  exists r self' n',
    get_response lower similarities argsort str_exn llm set_order self
                 user_question n
    = (Ok (r, self'), n')
    /\ bot self' = bot self
    /\ ((conversation_history self' = conversation_history self
         /\ n' = n /\ (r = NO_DOCUMENTS \/ r = NO_INFORMATION))
        \/ (exists docs,
              conversation_history self'
              = conversation_history self ++ [Turn user_question r docs]
              /\ n' = S n
              /\ (length docs <= 3)%nat
              /\ Forall (fun d => exists c, In c (chunks (bot self))
                                            /\ document c = d) docs))
    /\ (chunks (bot self) = [] -> r = NO_DOCUMENTS /\ n' = n).
Proof.
  unfold get_response.
  destruct (chunks (bot self)) as [|c0 cs] eqn:Ec.
  - exists NO_DOCUMENTS, self, n. unfold ret.
    repeat split; auto.
  - destruct (search_relevant_chunks_ok (bot self) user_question 5)
      as (found & E & Hall).
    unfold bind_io at 1, lift. rewrite E.
    destruct found as [|r0 found].
    + exists NO_INFORMATION, self, n. unfold ret.
      repeat split; auto. discriminate.
    + destruct (generate_response_ok self user_question (r0 :: found) n)
        as (r & Er).
      unfold bind_io. rewrite Er. unfold ret.
      eexists r, _, (S n). split; [reflexivity|].
      split; [reflexivity|]. split; [|discriminate].
      right. eexists. split; [reflexivity|]. split; [reflexivity|].
      split.
      * rewrite length_map. apply firstn_le_length.
      * apply Forall_map, Forall_forall. intros x Hx.
        exists (chunk x). split; [|reflexivity].
        rewrite Forall_forall in Hall. rewrite <- Ec.
        apply Hall. rewrite <- (firstn_skipn 3 (r0 :: found)).
        apply in_or_app. now left.
Qed.

End RetrievalFacts.

(** A witness of [tfidf_search_above_threshold]: of three chunks with the
    similarities 1/2, 1/20 and 9/10 and top-k 2, the third and the first
    are returned. *)
Lemma tfidf_search_above_threshold_witness :
  Forall (fun r => In (chunk r) (chunks demo_session)
                   /\ (threshold < similarity r)%Q)
         [Scored demo_chunk_2 (9 # 10)%Q; Scored demo_chunk_0 (1 # 2)%Q]
  /\ ((1 <= 2)%Z -> (2 <= Z.to_nat 2)%nat).
Proof.
  apply (tfidf_search_above_threshold unit demo_similarities demo_argsort
           demo_session tt (lit "budget") 2).
  reflexivity.
Defined.

Example get_response_example :
  fst (get_response ascii_lower demo_similarities demo_argsort no_message
         ok_llm distinct_names demo_chat (lit "alpha beta") 0%nat)
  = Ok (lit "ok" ++ footer_one (lit "a.pdf"),
        Session demo_session
          [Turn (lit "q1") (lit "r1") [lit "a.pdf"; lit "b.docx"];
           Turn (lit "q2") (lit "r2") [lit "a.pdf"];
           Turn (lit "alpha beta") (lit "ok" ++ footer_one (lit "a.pdf"))
                [lit "a.pdf"; lit "a.pdf"]]).
Proof. vm_compute. reflexivity. Qed.

(* ===================================================================== *)
(** * Conversation statistics *)
(* ===================================================================== *)

Lemma held_count_bump (doc d : str) (m : list (str * nat)) :
  held_count (bump doc m) d
  = (held_count m d + if eqb doc d then 1 else 0)%nat.
Proof.
  induction m as [|[k c] m IH]; cbn [bump held_count].
  - destruct (eqb doc d); reflexivity.
  - destruct (eqb k doc) eqn:Ek; cbn [held_count].
    + apply eqb_eq in Ek. subst k.
      destruct (eqb doc d); lia.
    + destruct (eqb k d) eqn:Ed; [|exact IH].
      apply eqb_eq in Ed. subst k. rewrite eqb_sym, Ek. lia.
Qed.

Lemma bump_keys (doc : str) (m : list (str * nat)) :
  NoDup (map fst m) ->
  NoDup (map fst (bump doc m))
  /\ (forall d, In d (map fst (bump doc m)) <-> d = doc \/ In d (map fst m)).
Proof.
  induction m as [|[k c] m IH]; cbn [bump map fst]; intros Hnd.
  - split; [repeat constructor; intros []|].
    intros d. cbn. intuition congruence.
  - inversion Hnd as [|? ? Hk Hm]; subst.
    destruct (eqb k doc) eqn:Ek; cbn [map fst].
    + apply eqb_eq in Ek. subst k. split; [exact Hnd|].
      intros d. cbn. intuition congruence.
    + destruct (IH Hm) as [Hnd' Hin]. split.
      * constructor; [|exact Hnd'].
        intros H. apply Hin in H as [H | H]; [|contradiction].
        subst k. now rewrite eqb_refl in Ek.
      * intros d. cbn. rewrite Hin. intuition congruence.
Qed.

Lemma held_count_entry (m : list (str * nat)) (e : str * nat) :
  NoDup (map fst m) -> In e m -> held_count m (fst e) = snd e.
Proof.
  induction m as [|[k c] m IH]; [contradiction|].
  cbn [map fst held_count]. intros Hnd [<- | Hin].
  - cbn [fst snd]. now rewrite eqb_refl.
  - inversion Hnd as [|? ? Hk Hm]; subst.
    destruct (eqb k (fst e)) eqn:Ek; [|now apply IH].
    apply eqb_eq in Ek. subst k. exfalso. apply Hk. now apply in_map.
Qed.

(** The dictionary of mentions counts every document as often as the
    turns name it. *)
Lemma count_mentions_spec (docs : list str) (m : list (str * nat))
      (seen : list str) :
  NoDup (map fst m) ->
  (forall d, held_count m d = count_occ (list_eq_dec N.eq_dec) seen d) ->
  (forall d, In d (map fst m) <-> In d seen) ->
  let m' := fold_left (fun acc doc => bump doc acc) docs m in
  NoDup (map fst m')
  /\ (forall d, held_count m' d
                = count_occ (list_eq_dec N.eq_dec) (seen ++ docs) d)
  /\ (forall d, In d (map fst m') <-> In d (seen ++ docs)).
Proof.
  revert m seen; induction docs as [|doc docs IH]; intros m seen Hnd Hc Hk.
  - cbn. rewrite app_nil_r. auto.
  - cbn [fold_left]. destruct (bump_keys doc m Hnd) as [Hnd' Hin].
    specialize (IH (bump doc m) (seen ++ [doc]) Hnd').
    replace (seen ++ doc :: docs) with ((seen ++ [doc]) ++ docs)
      by (now rewrite <- app_assoc).
    apply IH.
    + intros d. rewrite held_count_bump, count_occ_app, Hc. cbn [count_occ].
      destruct (list_eq_dec N.eq_dec doc d) as [-> | Hne].
      * now rewrite eqb_refl.
      * destruct (eqb doc d) eqn:E; [apply eqb_eq in E; contradiction|].
        reflexivity.
    + intros d. rewrite Hin, in_app_iff, Hk. cbn. intuition congruence.
Qed.

Lemma by_count_desc_total (x y : str * nat) :
  by_count_desc x y = true \/ by_count_desc y x = true.
Proof.
  unfold by_count_desc.
  destruct (Nat.leb_spec (snd y) (snd x)); [now left|].
  right. apply Nat.leb_le. lia.
Qed.

Lemma by_count_desc_trans (x y z : str * nat) :
  by_count_desc x y = true -> by_count_desc y z = true ->
  by_count_desc x z = true.
Proof. unfold by_count_desc. rewrite !Nat.leb_le. lia. Qed.

Lemma StronglySorted_split {X : Type} (R : X -> X -> Prop) (n : nat)
      (l : list X) :
  StronglySorted R l ->
  StronglySorted R (firstn n l)
  /\ forall x y, In x (firstn n l) -> In y (skipn n l) -> R x y.
Proof.
  intros H. revert n. induction H as [|a l Hl IH Ha]; intros n.
  - rewrite firstn_nil, skipn_nil. split; [constructor | intros ? ? []].
  - destruct n as [|n]; [split; [constructor | intros ? ? []]|].
    cbn [firstn skipn]. destruct (IH n) as [Hs Hcross]. split.
    + constructor; [exact Hs|].
      rewrite Forall_forall in *. intros x Hx. apply Ha.
      rewrite <- (firstn_skipn n l). apply in_or_app. now left.
    + intros x y [<- | Hx] Hy.
      * rewrite Forall_forall in Ha. apply Ha.
        rewrite <- (firstn_skipn n l). apply in_or_app. now right.
      * now apply Hcross.
Qed.

Lemma sum_lengths (history : list turn) :
  sum (map (fun item => length (relevant_docs item)) history)
  = length (mentions history).
Proof.
  unfold mentions, sum. induction history as [|t history IH]; [reflexivity|].
  cbn [map fold_right flat_map]. rewrite length_app. now rewrite IH.
Qed.

(** ** The floating-point quotient *)

Section FloatFacts.

Local Open Scope Z_scope.

Lemma pow2_pos (n : Z) : 0 < pow2 n.
Proof. unfold pow2. apply Z.pow_pos_nonneg; lia. Qed.

Lemma pow2_shift (n c : Z) :
  0 <= c -> pow2 (n + c) * pow2 (- n) = 2 ^ c * pow2 n * pow2 (- (n + c)).
Proof.
  intros Hc. unfold pow2.
  destruct (Z.max_spec 0 (n + c)) as [[? ->] | [? ->]];
  destruct (Z.max_spec 0 (- n)) as [[? ->] | [? ->]];
  destruct (Z.max_spec 0 n) as [[? ->] | [? ->]];
  destruct (Z.max_spec 0 (- (n + c))) as [[? ->] | [? ->]];
  try lia; rewrite <- ?Z.pow_add_r by lia;
  rewrite ?Z.pow_0_r, ?Z.mul_1_r, ?Z.mul_1_l;
  try (f_equal; lia).
  replace c with 0 by lia. reflexivity.
Qed.

(** The exponent of the quotient: [2 ** e <= x / y]. *)
Lemma exponent_below (x y : Z) :
  0 < x -> 0 < y ->
  let k := Z.log2 x - Z.log2 y in
  let e := if y * pow2 k <=? x * pow2 (- k) then k else k - 1 in
  y * pow2 e <= x * pow2 (- e).
Proof.
  intros Hx Hy k e. subst e.
  destruct (Z.leb_spec (y * pow2 k) (x * pow2 (- k))) as [H | H]; [exact H|].
  destruct (Z.log2_spec x Hx) as [Hx1 Hx2].
  destruct (Z.log2_spec y Hy) as [Hy1 Hy2].
  pose proof (Z.log2_nonneg x) as Hlx. pose proof (Z.log2_nonneg y) as Hly.
  subst k. unfold pow2.
  destruct (Z.max_spec 0 (Z.log2 x - Z.log2 y - 1)) as [[? ->] | [? ->]];
  destruct (Z.max_spec 0 (- (Z.log2 x - Z.log2 y - 1))) as [[? ->] | [? ->]];
    try lia.
  - (* the exponent is positive *)
    rewrite Z.pow_0_r, Z.mul_1_r.
    assert (2 ^ Z.succ (Z.log2 y) * 2 ^ (Z.log2 x - Z.log2 y - 1)
            = 2 ^ Z.log2 x)
      by (rewrite <- Z.pow_add_r by lia; f_equal; lia).
    assert (0 < 2 ^ (Z.log2 x - Z.log2 y - 1))
      by (apply Z.pow_pos_nonneg; lia).
    nia.
  - (* the exponent is negative or zero *)
    rewrite Z.pow_0_r, Z.mul_1_r.
    assert (2 ^ Z.log2 x * 2 ^ (- (Z.log2 x - Z.log2 y - 1))
            = 2 ^ Z.succ (Z.log2 y))
      by (rewrite <- Z.pow_add_r by lia; f_equal; lia).
    assert (0 < 2 ^ (- (Z.log2 x - Z.log2 y - 1)))
      by (apply Z.pow_pos_nonneg; lia).
    nia.
  - replace (Z.log2 x - Z.log2 y - 1) with 0 by lia.
    replace (- 0) with 0 by lia. rewrite Z.pow_0_r.
    assert (Z.log2 x = Z.log2 y + 1) by lia.
    assert (2 ^ Z.log2 x = 2 ^ Z.succ (Z.log2 y)) by (f_equal; lia).
    lia.
Qed.

(** Scaled so that the exponent is 52, the quotient is at least
    [2 ** 52]. *)
Lemma scaled_quotient_above (x y e : Z) :
  0 < x -> 0 < y ->
  y * pow2 e <= x * pow2 (- e) ->
  2 ^ 52 * (y * pow2 (- (52 - e))) <= x * pow2 (52 - e).
Proof.
  intros Hx Hy H.
  pose proof (pow2_shift (- e) 52 ltac:(lia)) as E.
  replace (- e + 52) with (52 - e) in E by lia.
  replace (- - e) with e in E by lia.
  pose proof (pow2_pos e). pose proof (pow2_pos (- e)).
  pose proof (pow2_pos (52 - e)). pose proof (pow2_pos (- (52 - e))).
  apply Z.mul_le_mono_pos_r with (p := pow2 e); [assumption|].
  replace (x * pow2 (52 - e) * pow2 e)
    with (x * (pow2 (52 - e) * pow2 e)) by ring.
  rewrite E.
  replace (2 ^ 52 * (y * pow2 (- (52 - e))) * pow2 e)
    with (2 ^ 52 * pow2 (- (52 - e)) * (y * pow2 e)) by ring.
  replace (x * (2 ^ 52 * pow2 (- e) * pow2 (- (52 - e))))
    with (2 ^ 52 * pow2 (- (52 - e)) * (x * pow2 (- e))) by ring.
  apply Z.mul_le_mono_nonneg_l; [|exact H].
  apply Z.mul_nonneg_nonneg; [apply Z.pow_nonneg|]; lia.
Qed.

(** Rounding to the nearest integer is off by at most one half. *)
Lemma nearest_error (num den : Z) :
  0 < den ->
  let m := match 2 * (num mod den) ?= den with
           | Lt => num / den
           | Gt => num / den + 1
           | Eq => if Z.even (num / den) then num / den else num / den + 1
           end in
  2 * Z.abs (m * den - num) <= den.
Proof.
  intros Hden m. subst m.
  pose proof (Z.div_mod num den ltac:(lia)) as E.
  pose proof (Z.mod_pos_bound num den Hden) as Hr.
  destruct (Z.compare_spec (2 * (num mod den)) den) as [Hc | Hc | Hc];
    [destruct (Z.even (num / den))| |]; nia.
Qed.


(** The quotient of a non-negative integer by a positive one is returned
    with a relative error of at most [2 ** -53]. *)
Lemma float_truediv_error (a b : Z) :
  0 <= a -> 0 < b ->
  exists q,
    float_truediv a b = Ok q
    /\ (Qabs (q * inject_Z b - inject_Z a) * inject_Z (2 ^ 53)
        <= inject_Z a)%Q.
Proof.
  intros Ha Hb. unfold float_truediv.
  destruct (Z.eqb_spec b 0) as [|_]; [lia|].
  destruct (Z.eqb_spec a 0) as [-> | Hne].
  - eexists. split; [reflexivity|]. vm_compute. discriminate.
  - assert (Ha' : 0 < a) by lia.
    rewrite (Z.abs_eq a), (Z.abs_eq b) by lia.
    rewrite (Z.sgn_pos a), (Z.sgn_pos b) by lia.
    pose proof (exponent_below a b Ha' Hb) as He. cbv zeta in He.
    set (e := if b * pow2 (Z.log2 a - Z.log2 b)
                 <=? a * pow2 (- (Z.log2 a - Z.log2 b))
              then Z.log2 a - Z.log2 b else Z.log2 a - Z.log2 b - 1) in *.
    pose proof (scaled_quotient_above a b e Ha' Hb He) as Hscaled.
    set (shift := 52 - e) in *.
    pose proof (pow2_pos shift) as HP. pose proof (pow2_pos (- shift)) as HN.
    assert (Hden : 0 < b * pow2 (- shift)) by nia.
    pose proof (nearest_error (a * pow2 shift) (b * pow2 (- shift)) Hden)
      as Hnear. cbv zeta in Hnear.
    set (m := match 2 * ((a * pow2 shift) mod (b * pow2 (- shift)))
                    ?= b * pow2 (- shift) with
              | Lt => a * pow2 shift / (b * pow2 (- shift))
              | Gt => a * pow2 shift / (b * pow2 (- shift)) + 1
              | Eq => if Z.even (a * pow2 shift / (b * pow2 (- shift)))
                      then a * pow2 shift / (b * pow2 (- shift))
                      else a * pow2 shift / (b * pow2 (- shift)) + 1
              end) in *.
    eexists. split; [reflexivity|].
    rewrite Qred_correct.
    unfold Qle, Qabs, Qmult, Qminus, Qplus, Qopp, inject_Z.
    cbn [Qnum Qden].
    rewrite !Pos.mul_1_r, !Z.mul_1_r, Z2Pos.id by exact HP.
    replace (1 * 1 * m * pow2 (- shift) * b + - a * pow2 shift)
      with (m * (b * pow2 (- shift)) - a * pow2 shift) by ring.
    change (2 ^ 53) with (2 ^ 52 * 2).
    nia.
Qed.

End FloatFacts.

(** X19: the statistics never raise, also on an empty history, for which
    they hold the total 0 only.  Otherwise the total is the number of
    turns; the most consulted documents are at most three, all different,
    each with the number of times the turns name it, in descending order
    of that number, and no document left out is named more often than a
    listed one; the average is the floating-point quotient of the number
    of mentions by the total, so that the average times the total differs
    from the number of mentions by at most that number times 2 ** -53. *)
Theorem conversation_stats_counts (matrix : Type) (self : session matrix) :
  exists st,
    get_conversation_stats self = Ok st
    /\ match st with
       | NoQuestions => conversation_history self = []
       | Stats total most avg =>
           total = length (conversation_history self)
           /\ total <> 0%nat
           /\ (length most <= 3)%nat
           /\ NoDup (map fst most)
           /\ Forall (fun e =>
                        snd e = mention_count (conversation_history self)
                                              (fst e)
                        /\ (1 <= snd e)%nat) most
           /\ StronglySorted (fun x y => (snd y <= snd x)%nat) most
           /\ (forall d,
                 In d (mentions (conversation_history self)) ->
                 In d (map fst most)
                 \/ Forall (fun e =>
                              (mention_count (conversation_history self) d
                               <= snd e)%nat) most)
           /\ float_truediv
                (Z.of_nat (length (mentions (conversation_history self))))
                (Z.of_nat total)
              = Ok avg
           /\ (Qabs (avg * inject_Z (Z.of_nat total)
                     - inject_Z (Z.of_nat
                                   (length (mentions
                                              (conversation_history self)))))
               * inject_Z (2 ^ 53)
               <= inject_Z (Z.of_nat
                              (length (mentions
                                         (conversation_history self)))))%Q
       end.
Proof.
  unfold get_conversation_stats.
  destruct (conversation_history self) as [|t0 history] eqn:Eh.
  - exists NoQuestions. auto.
  - set (h := t0 :: history) in *.
    assert (Hlen : length h <> 0%nat) by discriminate.
    destruct (float_truediv_error
                (Z.of_nat (sum (map (fun item => length (relevant_docs item))
                                    h)))
                (Z.of_nat (length h)) ltac:(lia) ltac:(lia))
      as (avg & Eavg & Hnear).
    rewrite Eavg. cbn [bind]. eexists. split; [reflexivity|].
    destruct (count_mentions_spec (mentions h) [] [] (NoDup_nil _))
      as (Hnd & Hcount & Hkeys); [reflexivity | intros d; tauto |].
    cbn [app] in Hcount, Hkeys.
    fold (count_mentions h) in Hnd, Hcount, Hkeys.
    set (m := count_mentions h) in *.
    pose proof (stable_sort_permutation _ by_count_desc m) as Hperm.
    pose proof (stable_sort_sorted _ by_count_desc by_count_desc_total
                  by_count_desc_trans m) as Hsorted.
    set (sorted := stable_sort by_count_desc m) in *.
    assert (Hsorted' : StronglySorted (fun x y => (snd y <= snd x)%nat) sorted).
    { eapply StronglySorted_weaken; [|exact Hsorted].
      intros x y H. now apply Nat.leb_le. }
    destruct (StronglySorted_split _ 3 sorted Hsorted') as [Hfirst Hcross].
    assert (Hentry : forall e, In e sorted ->
                               snd e = mention_count h (fst e)
                               /\ (1 <= snd e)%nat).
    { intros e He. apply (Permutation_in _ Hperm) in He.
      pose proof (held_count_entry m e Hnd He) as Hheld.
      rewrite Hcount in Hheld. unfold mention_count.
      split; [now symmetry|]. rewrite <- Hheld.
      apply count_occ_In. apply Hkeys. now apply in_map. }
    assert (Hsub : forall e, In e (firstn 3 sorted) -> In e sorted).
    { intros e He. rewrite <- (firstn_skipn 3 sorted).
      apply in_or_app. now left. }
    split; [reflexivity|]. split; [exact Hlen|].
    split; [apply firstn_le_length|].
    split; [|split; [|split; [|split; [|split]]]].
    + assert (Hnds : NoDup (map fst sorted))
        by (eapply Permutation_NoDup;
            [apply Permutation_map; symmetry; exact Hperm | exact Hnd]).
      rewrite <- (firstn_skipn 3 sorted), map_app in Hnds.
      now apply NoDup_app_remove_r in Hnds.
    + apply Forall_forall. intros e He. apply Hentry. now apply Hsub.
    + exact Hfirst.
    + intros d Hd.
      assert (Hin : In d (map fst sorted)).
      { apply Hkeys in Hd. apply in_map_iff in Hd as (e & <- & He).
        apply in_map. eapply Permutation_in; [symmetry; exact Hperm | exact He]. }
      rewrite <- (firstn_skipn 3 sorted), map_app in Hin.
      apply in_app_or in Hin as [Hin | Hin]; [now left|].
      right. apply in_map_iff in Hin as (y & <- & Hy).
      apply Forall_forall. intros x Hx.
      assert (Hy' : In y sorted)
        by (rewrite <- (firstn_skipn 3 sorted); apply in_or_app; now right).
      destruct (Hentry y Hy') as [<- _]. now apply Hcross.
    + rewrite <- sum_lengths. exact Eavg.
    + rewrite <- sum_lengths. exact Hnear.
Qed.

(** 15 mentions in 11 turns: the average is the binary64 number next to
    15/11, and 11 times it is not 15. *)
Example float_truediv_example :
  float_truediv 15 11 = Ok (6141272219141585 # 4503599627370496)%Q.
Proof. vm_compute. reflexivity. Qed.

Example conversation_stats_example :
  get_conversation_stats demo_chat
  = Ok (Stats 2 [(lit "a.pdf", 2%nat); (lit "b.docx", 1%nat)] (3 # 2)%Q).
Proof. vm_compute. reflexivity. Qed.

(* ===================================================================== *)
(** * The document summary *)
(* ===================================================================== *)

Import DocumentSummary.

(** X20: the summary lists at most five titles; each is a line among the
    first twenty, stripped, that is not empty, has
    fewer than 100 characters and is upper case.  The reading time is the
    number of words divided by 200, rounded down. *)
Theorem document_summary_titles (isupper : str -> bool) (tc : text_content) :
  (length (potential_titles (get_document_summary isupper tc)) <= 5)%nat
  /\ Forall (fun t =>
               t <> [] /\ (length t < 100)%nat /\ isupper t = true
               /\ starts_solid t /\ ends_solid t
               /\ exists line,
                    In line (firstn 20 (split_on newline (full_text tc)))
                    /\ t = strip line)
            (potential_titles (get_document_summary isupper tc))
  /\ (200 * estimated_reading_time (get_document_summary isupper tc)
      <= word_count (get_document_summary isupper tc)
      < 200 * estimated_reading_time (get_document_summary isupper tc) + 200)%nat
  /\ word_count (get_document_summary isupper tc)
     = length (split (full_text tc))
  /\ char_count (get_document_summary isupper tc) = length (full_text tc).
Proof.
  cbn [get_document_summary potential_titles estimated_reading_time
       word_count char_count].
  split; [apply firstn_le_length|]. split; [|split; [|split; reflexivity]].
  - apply Forall_forall. intros t Ht.
    assert (Hin : In t (find_titles isupper
                          (split_on newline (full_text tc)))).
    { rewrite <- (firstn_skipn 5 (find_titles _ _)).
      apply in_or_app. now left. }
    unfold find_titles in Hin. apply filter_In in Hin as [Hmap Htitle].
    unfold is_title in Htitle.
    apply andb_true_iff in Htitle as [Htitle Hupper].
    apply andb_true_iff in Htitle as [Htruthy Hlen].
    apply Nat.ltb_lt in Hlen.
    apply in_map_iff in Hmap as (line & <- & Hline).
    assert (Hne : strip line <> []) by (destruct (strip line); discriminate).
    destruct (strip_solid line) as [E | [Hs He]]; [contradiction|].
    repeat split; auto. now exists line.
  - set (w := length (split (full_text tc))).
    pose proof (Nat.div_mod_eq w 200).
    pose proof (Nat.mod_upper_bound w 200). lia.
Qed.

Example document_summary_example :
  potential_titles (get_document_summary ascii_isupper titled_document)
  = [lit "ANNUAL REPORT"; lit "SUMMARY"].
Proof. vm_compute. reflexivity. Qed.

(* ===================================================================== *)
(** * The structural analysis *)
(* ===================================================================== *)

Import StructureAnalysis.




Section StructureFacts.

Variable lower : str -> str.
Variable json_loads : str -> result value.
Variable llm : nat -> structure_prompt -> reply.



(** X22: a reply that the validation accepts keeps the fields it had: the
    validation only adds the required fields that are missing and
    replaces the suggested analyses. *)
Theorem validate_analysis_keeps_fields (items : list (value * value))
        (v : value) (m : metadata) (k : value) :
  _validate_analysis lower (VDict items) m = Ok v ->
  lookup k items <> None ->
  exists items', v = VDict items' /\ lookup k items' <> None.
Proof.
  unfold _validate_analysis. intros H Hk.
  assert (Hfill : forall fields its a',
             fill_required fields (VDict its) m = Ok a' ->
             lookup k its <> None ->
             exists its', a' = VDict its' /\ lookup k its' <> None).
  { induction fields as [|field rest IH]; intros its a'.
    - intros [= <-] Hl. eauto.
    - cbn [fill_required py_contains bind].
      destruct (lookup (VStr field) its); cbn [py_setitem bind].
      + apply IH.
      + intros Hf Hl. eapply IH; [exact Hf|]. now apply lookup_store_keeps. }
  destruct (fill_required required_fields (VDict items) m) as [a' | e] eqn:Ef;
    cbn [bind] in H; [|discriminate].
  destruct (Hfill _ _ _ Ef Hk) as (its' & -> & Hk').
  cbn [py_get bind] in H.
  destruct (lookup (VStr (lit "document_type")) its') as [[| | |s| |]|];
    cbn [bind py_setitem] in H; try discriminate;
    injection H as <-; eexists; (split; [reflexivity|]);
    now apply lookup_store_keeps.
Qed.

End StructureFacts.

(** A witness of [validate_analysis_keeps_fields], and an example of the
    suggestions: the reply calls the document a contract and suggests the
    comparative analysis; the result keeps the document type and suggests
    the three analyses of contracts. *)
Lemma validate_analysis_keeps_fields_witness :
  exists items',
    VDict [(key "document_type", VStr (lit "Contrato de Servico"));
           (key "suggested_analyses", analysis_names contract_analyses);
           (key "main_topic", _get_default_value (lit "main_topic")
                                (PDF 1 false false));
           (key "structure", _get_default_value (lit "structure")
                               (PDF 1 false false))]
    = VDict items'
    /\ lookup (key "document_type") items' <> None.
Proof.
  apply (validate_analysis_keeps_fields ascii_lower
           [(key "document_type", VStr (lit "Contrato de Servico"));
            (key "suggested_analyses",
             VList [VStr ANALISE_COMPARATIVA])]
           _ (PDF 1 false false) (key "document_type")).
  - vm_compute. reflexivity.
  - discriminate.
Defined.

Example analyze_document_structure_example :
  fst (analyze_document_structure ascii_lower contract_loads structure_llm
         short_document (lit "contract.pdf") 0%nat)
  = Ok (VDict
          [(key "document_type", VStr (lit "Contrato de Servico"));
           (key "suggested_analyses", analysis_names contract_analyses);
           (key "main_topic", _get_default_value (lit "main_topic")
                                (PDF 1 false false));
           (key "structure", _get_default_value (lit "structure")
                               (PDF 1 false false))]).
Proof. vm_compute. reflexivity. Qed.

(* ===================================================================== *)
(** * The dispatch on the file extension *)
(* ===================================================================== *)

(** X23: [extract_text] and the filter of [process_folder] agree on the
    supported extensions: a file that passes the filter is handed to one
    of the three extractors, and [ValueError] for an unsupported format is
    raised for the other files only. *)
Theorem extract_text_dispatch
        (lower : str -> str) (pdf docx pptx : str -> result text_content)
        (f : file_entry) :
  (str_in (lower (suffix f)) supported_suffixes = true ->
   extract_text lower pdf docx pptx f = pdf (path f)
   \/ extract_text lower pdf docx pptx f = docx (path f)
   \/ extract_text lower pdf docx pptx f = pptx (path f))
  /\ (str_in (lower (suffix f)) supported_suffixes = false ->
      extract_text lower pdf docx pptx f = Raise ValueError).
Proof.
  unfold extract_text, str_in, supported_suffixes. cbn [existsb].
  destruct (eqb (lower (suffix f)) (lit ".pdf"));
    destruct (eqb (lower (suffix f)) (lit ".docx"));
    destruct (eqb (lower (suffix f)) (lit ".pptx"));
    cbn [orb]; split; intros H; auto; discriminate.
Qed.
